(** * ZeroENH: deterministic prompt enhancement

    A shallow embedding of the enhancement engine of
    [nodes/DJZ_ZeroENH_V1.py] and [nodes/DJZ_ZeroENH_V2.py], and proofs
    about its pipeline: tokenize, classify, find gaps, apply rules, thin by
    intensity, select enhancements, format, merge, deduplicate, truncate.

    Conventions of the model.
    - A Python [str] is a [string] of 8-bit characters.  The ASCII range is
      modelled exactly ([lower], [strip], [split], the classes [\s] and [\d]);
      characters above 127 are carried through unchanged.
    - A Python [dict] is an association list in insertion order (the
      iteration order of a dict); lookup takes the first binding.
    - A Python [set] of strings is a duplicate-free list; the order in which
      a set is enumerated is not fixed by the language, so every enumeration
      of a set goes through a parameter [set_iter] of the engine.
    - An exception is the result [None].
    - The rates 0.25, 0.5, 0.75, 1.0 and the threshold 0.7 are rationals;
      the products the code forms with them are exact (or compare as the
      exact ones do) in double precision for every list that fits in memory.
    - [xxhash.xxh32] is the XXH32 function of the xxHash library. *)

From Stdlib Require Import ZArith QArith Qround List Bool Lia Permutation Sorted.
From Stdlib Require Import Strings.String Strings.Ascii.
Import ListNotations.

Open Scope string_scope.
Open Scope list_scope.
Open Scope Z_scope.

(* ================================================================== *)
(** * Python string primitives *)
(* ================================================================== *)

Module Py.

(** [str.isspace] on one ASCII character: TAB, LF, VT, FF, CR, the four
    separators 0x1c..0x1f and the space. *)
Definition isspace (c : ascii) : bool :=
  let n := N_of_ascii c in
  ((9 <=? n) && (n <=? 13) || (28 <=? n) && (n <=? 32))%N.

Definition isdigit (c : ascii) : bool :=
  let n := N_of_ascii c in ((48 <=? n) && (n <=? 57))%N.

Definition lower_char (c : ascii) : ascii :=
  let n := N_of_ascii c in
  if ((65 <=? n) && (n <=? 90))%N then ascii_of_N (n + 32) else c.

(** [s.lower()] *)
Fixpoint lower (s : string) : string :=
  match s with
  | EmptyString => EmptyString
  | String c s' => String (lower_char c) (lower s')
  end.

(** [s.lstrip()] *)
Fixpoint lstrip (s : string) : string :=
  match s with
  | EmptyString => EmptyString
  | String c s' => if isspace c then lstrip s' else s
  end.

(** [s.rstrip()] *)
Fixpoint rstrip (s : string) : string :=
  match s with
  | EmptyString => EmptyString
  | String c s' =>
      match rstrip s' with
      | EmptyString => if isspace c then EmptyString else String c EmptyString
      | r => String c r
      end
  end.

(** [s.strip()] *)
Definition strip (s : string) : string := lstrip (rstrip s).

(** [s.rstrip(ch)] for a one-character argument. *)
Fixpoint rstrip_char (ch : ascii) (s : string) : string :=
  match s with
  | EmptyString => EmptyString
  | String c s' =>
      match rstrip_char ch s' with
      | EmptyString => if Ascii.eqb c ch then EmptyString else String c EmptyString
      | r => String c r
      end
  end.

(** [s.split()]: the maximal runs of characters that are not whitespace. *)
Fixpoint split (s : string) : list string :=
  match s with
  | EmptyString => []
  | String c s' =>
      if isspace c then split s'
      else match s' with
           | EmptyString => [String c EmptyString]
           | String d _ =>
               if isspace d then String c EmptyString :: split s'
               else match split s' with
                    | w :: ws => String c w :: ws
                    | [] => [String c EmptyString]
                    end
           end
  end.

(** [s.split(ch)] for a one-character separator: always at least one
    piece, empty pieces kept. *)
Fixpoint split_on (ch : ascii) (s : string) : list string :=
  match s with
  | EmptyString => [EmptyString]
  | String c s' =>
      if Ascii.eqb c ch then EmptyString :: split_on ch s'
      else match split_on ch s' with
           | w :: ws => String c w :: ws
           | [] => [String c EmptyString]
           end
  end.

(** [sep.join(l)] *)
Definition join (sep : string) (l : list string) : string := String.concat sep l.

(** [s.startswith(p)] *)
Definition startswith (p s : string) : bool := String.prefix p s.

(** [sub in s] *)
Fixpoint contains (sub s : string) : bool :=
  startswith sub s ||
  match s with
  | EmptyString => false
  | String _ s' => contains sub s'
  end.

(** [s.endswith(suffix)] *)
Fixpoint endswith (suffix s : string) : bool :=
  String.eqb suffix s ||
  match s with
  | EmptyString => false
  | String _ s' => endswith suffix s'
  end.

(** [s[:-n]] for [0 < n]. *)
Definition drop_last (n : nat) (s : string) : string :=
  String.substring 0 (String.length s - n) s.

(** [s.replace(old, new)]: every occurrence of [old], left to right and
    without overlap.  [skip] counts the characters of an occurrence that
    are still to be passed over. *)
Fixpoint replace_from (old new : string) (skip : nat) (s : string) : string :=
  match s with
  | EmptyString => EmptyString
  | String c s' =>
      match skip with
      | S k => replace_from old new k s'
      | O =>
          if startswith old s
          then new ++ replace_from old new (String.length old - 1) s'
          else String c (replace_from old new 0 s')
      end
  end.

Fixpoint intersperse_after (new s : string) : string :=
  match s with
  | EmptyString => EmptyString
  | String c s' => String c (new ++ intersperse_after new s')
  end.

Definition replace (old new s : string) : string :=
  match old with
  | EmptyString => new ++ intersperse_after new s
  | _ => replace_from old new 0 s
  end.

(** [x in l] for a list of strings. *)
Definition mem (x : string) (l : list string) : bool :=
  existsb (String.eqb x) l.

(** [set(l)], in first-occurrence order. *)
Fixpoint to_set (l : list string) : list string :=
  match l with
  | [] => []
  | x :: l' => x :: filter (fun y => negb (String.eqb x y)) (to_set l')
  end.

(** [l[:k]] for a Python integer [k]: a negative [k] counts from the
    end. *)
Definition slice_to {A : Type} (k : Z) (l : list A) : list A :=
  if 0 <=? k then firstn (Z.to_nat k) l
  else firstn (Z.to_nat (Z.of_nat (List.length l) + k)) l.

(** [sorted(l)] on strings.  Python's sort is stable; on strings, compared
    by code point, every sort returns the same list. *)
Fixpoint insert_sorted (x : string) (l : list string) : list string :=
  match l with
  | [] => [x]
  | y :: l' => if String.leb x y then x :: l else y :: insert_sorted x l'
  end.

Definition sorted (l : list string) : list string :=
  fold_right insert_sorted [] l.

(** [l.sort(key=...)] with integer keys: a stable sort, an element goes in
    front of the later elements whose key is not smaller. *)
Fixpoint insert_by_key {A : Type} (key : A -> Z) (x : A) (l : list A) : list A :=
  match l with
  | [] => [x]
  | y :: l' => if key x <=? key y then x :: l else y :: insert_by_key key x l'
  end.

Definition sort_by_key {A : Type} (key : A -> Z) (l : list A) : list A :=
  fold_right (insert_by_key key) [] l.

(** [enumerate(l)] *)
Definition enumerate {A : Type} (l : list A) : list (Z * A) :=
  combine (map Z.of_nat (seq 0 (List.length l))) l.

(** [d.get(k)] on a dict. *)
Fixpoint lookup {A : Type} (k : string) (d : list (string * A)) : option A :=
  match d with
  | [] => None
  | (k', v) :: d' => if String.eqb k k' then Some v else lookup k d'
  end.

(** [d[k] = v] on a dict: an existing key keeps its place. *)
Fixpoint dict_set {A : Type} (k : string) (v : A) (d : list (string * A)) : list (string * A) :=
  match d with
  | [] => [(k, v)]
  | (k', v') :: d' =>
      if String.eqb k k' then (k, v) :: d' else (k', v') :: dict_set k v d'
  end.

End Py.

(* ================================================================== *)
(** * Regular expressions ([re.search], [re.sub], [re.split]) *)
(* ================================================================== *)

(** The patterns that occur in the two files and in the built-in profile,
    in parsed form.  Matching is by backtracking, in the order Python's
    engine tries the alternatives: the left branch of [|] first, a greedy
    repetition as many times as possible first. *)
Module Re.

Inductive regex : Type :=
| Eps                          (* the empty pattern *)
| Chr (c : ascii)              (* a literal character *)
| Space                        (* \s *)
| Digit                        (* \d *)
| Seq (r1 r2 : regex)          (* r1 r2 *)
| Alt (r1 r2 : regex)          (* r1|r2 *)
| Star (r : regex)             (* r*, greedy *)
| Bol                          (* ^ *)
| Eol.                         (* $ *)

Definition Plus (r : regex) : regex := Seq r (Star r).     (* r+ *)
Definition Opt (r : regex) : regex := Alt r Eps.           (* r? *)

(** A literal word. *)
Fixpoint lit (s : string) : regex :=
  match s with
  | EmptyString => Eps
  | String c EmptyString => Chr c
  | String c s' => Seq (Chr c) (lit s')
  end.

Fixpoint seqs (l : list regex) : regex :=
  match l with
  | [] => Eps
  | [r] => r
  | r :: l' => Seq r (seqs l')
  end.

Fixpoint alts (l : list regex) : regex :=
  match l with
  | [] => Eps
  | [r] => r
  | r :: l' => Alt r (alts l')
  end.

(** [rmatch r bol s k]: match [r] at the front of [s]; [bol] tells whether
    the front of [s] is the start of the subject.  The continuation [k]
    gets the same two facts about the rest, and its answer is the rest of
    the subject after the whole match.  A round of a repetition has to
    consume a character, so [String.length s] rounds cover every
    repetition on [s]. *)
Fixpoint rmatch (r : regex) (bol : bool) (s : string)
         (k : bool -> string -> option string) : option string :=
  match r with
  | Eps => k bol s
  | Chr c =>
      match s with
      | String d s' => if Ascii.eqb c d then k false s' else None
      | EmptyString => None
      end
  | Space =>
      match s with
      | String d s' => if Py.isspace d then k false s' else None
      | EmptyString => None
      end
  | Digit =>
      match s with
      | String d s' => if Py.isdigit d then k false s' else None
      | EmptyString => None
      end
  | Seq r1 r2 => rmatch r1 bol s (fun b s' => rmatch r2 b s' k)
  | Alt r1 r2 =>
      match rmatch r1 bol s k with
      | Some rest => Some rest
      | None => rmatch r2 bol s k
      end
  | Star r1 =>
      (fix loop (fuel : nat) (b : bool) (s0 : string) : option string :=
         match fuel with
         | O => k b s0
         | S fuel' =>
             match rmatch r1 b s0
                     (fun b' s' =>
                        if (String.length s' <? String.length s0)%nat
                        then loop fuel' b' s' else None) with
             | Some rest => Some rest
             | None => k b s0
             end
         end) (String.length s) bol s
  | Bol => if bol then k bol s else None
  | Eol =>
      match s with
      | EmptyString => k bol s
      | String "010"%char EmptyString => k bol s
      | _ => None
      end
  end.

(** The match of [r] at the front of [s], as the rest after it. *)
Definition match_here (r : regex) (bol : bool) (s : string) : option string :=
  rmatch r bol s (fun _ rest => Some rest).

Fixpoint search_from (r : regex) (bol : bool) (s : string) : bool :=
  match match_here r bol s with
  | Some _ => true
  | None =>
      match s with
      | EmptyString => false
      | String _ s' => search_from r false s'
      end
  end.

(** [re.search(r, s)] as a truth value. *)
Definition search (r : regex) (s : string) : bool := search_from r true s.

(** [re.sub(r, repl, s)] for a replacement without group references: the
    leftmost match at each position, left to right, without overlap. *)
Fixpoint sub_from (r : regex) (repl : string) (skip : nat) (bol : bool)
         (s : string) : string :=
  match skip with
  | S k =>
      match s with
      | EmptyString => EmptyString
      | String _ s' => sub_from r repl k false s'
      end
  | O =>
      match match_here r bol s with
      | Some rest =>
          match s with
          | EmptyString => repl
          | String c s' =>
              match (String.length s - String.length rest)%nat with
              | O => repl ++ String c (sub_from r repl 0 false s')
              | S n => repl ++ sub_from r repl n false s'
              end
          end
      | None =>
          match s with
          | EmptyString => EmptyString
          | String c s' => String c (sub_from r repl 0 false s')
          end
      end
  end.

Definition sub (r : regex) (repl s : string) : string := sub_from r repl 0 true s.

(** [re.split(r, s)] for a pattern without groups that matches no empty
    string: the pieces between the matches. *)
Fixpoint split_from (r : regex) (skip : nat) (bol : bool) (s : string) : list string :=
  match s with
  | EmptyString => [EmptyString]
  | String c s' =>
      match skip with
      | S k => split_from r k false s'
      | O =>
          let keep :=
            match split_from r 0 false s' with
            | w :: ws => String c w :: ws
            | [] => [String c EmptyString]
            end in
          match match_here r bol s with
          | Some rest =>
              match (String.length s - String.length rest)%nat with
              | O => keep
              | S n => EmptyString :: split_from r n false s'
              end
          | None => keep
          end
      end
  end.

Definition split (r : regex) (s : string) : list string := split_from r 0 true s.

End Re.

(* ================================================================== *)
(** * XXH32 *)
(* ================================================================== *)

(** The 32-bit xxHash function behind [xxhash.xxh32], on a list of byte
    values.  All arithmetic is unsigned 32-bit with wrap-around. *)
Module XXH.

Definition u32 (x : Z) : Z := x mod 2 ^ 32.

Definition rotl32 (x r : Z) : Z :=
  u32 (Z.lor (Z.shiftl x r) (Z.shiftr x (32 - r))).

Definition PRIME32_1 : Z := 2654435761.
Definition PRIME32_2 : Z := 2246822519.
Definition PRIME32_3 : Z := 3266489917.
Definition PRIME32_4 : Z := 668265263.
Definition PRIME32_5 : Z := 374761393.

(** Four bytes read as a little-endian word. *)
Definition read32le (b0 b1 b2 b3 : Z) : Z :=
  b0 + 256 * b1 + 65536 * b2 + 16777216 * b3.

Definition round (acc input : Z) : Z :=
  u32 (rotl32 (u32 (acc + input * PRIME32_2)) 13 * PRIME32_1).

Definition avalanche (h : Z) : Z :=
  let h := Z.lxor h (Z.shiftr h 15) in
  let h := u32 (h * PRIME32_2) in
  let h := Z.lxor h (Z.shiftr h 13) in
  let h := u32 (h * PRIME32_3) in
  Z.lxor h (Z.shiftr h 16).

(** The last 0..15 bytes: whole words first, then single bytes. *)
Fixpoint finalize (h : Z) (tail : list Z) : Z :=
  match tail with
  | b0 :: b1 :: b2 :: b3 :: rest =>
      finalize (u32 (rotl32 (u32 (h + read32le b0 b1 b2 b3 * PRIME32_3)) 17 * PRIME32_4)) rest
  | b :: rest =>
      finalize (u32 (rotl32 (u32 (h + b * PRIME32_5)) 11 * PRIME32_1)) rest
  | [] => avalanche h
  end.

(** The 16-byte stripes, four lanes at a time. *)
Fixpoint stripes (fuel : nat) (v1 v2 v3 v4 : Z) (data : list Z)
  : Z * Z * Z * Z * list Z :=
  match fuel with
  | O => (v1, v2, v3, v4, data)
  | S fuel' =>
      match data with
      | a0 :: a1 :: a2 :: a3 :: b0 :: b1 :: b2 :: b3 ::
        c0 :: c1 :: c2 :: c3 :: d0 :: d1 :: d2 :: d3 :: rest =>
          stripes fuel'
            (round v1 (read32le a0 a1 a2 a3))
            (round v2 (read32le b0 b1 b2 b3))
            (round v3 (read32le c0 c1 c2 c3))
            (round v4 (read32le d0 d1 d2 d3)) rest
      | _ => (v1, v2, v3, v4, data)
      end
  end.

(** [xxhash.xxh32(data, seed=seed).intdigest()] *)
Definition xxh32 (seed : Z) (data : list Z) : Z :=
  let len := Z.of_nat (List.length data) in
  if 16 <=? len then
    let '(v1, v2, v3, v4, tail) :=
      stripes (List.length data)
        (u32 (seed + PRIME32_1 + PRIME32_2)) (u32 (seed + PRIME32_2))
        (u32 seed) (u32 (seed - PRIME32_1)) data in
    finalize (u32 (rotl32 v1 1 + rotl32 v2 7 + rotl32 v3 12 + rotl32 v4 18 + len)) tail
  else finalize (u32 (seed + PRIME32_5 + len)) data.

(** [s.encode()] for a string of the model: its bytes. *)
Definition encode (s : string) : list Z :=
  map (fun c => Z.of_N (N_of_ascii c)) (list_ascii_of_string s).

(** [struct.pack('<II', a, b)] *)
Definition pack_u32le (x : Z) : list Z :=
  [x mod 256; (x / 256) mod 256; (x / 65536) mod 256; (x / 16777216) mod 256].

Definition pack_II (a b : Z) : list Z := pack_u32le a ++ pack_u32le b.

End XXH.

(* ================================================================== *)
(** * The enhancement engine *)
(* ================================================================== *)

(** The stage functions.  [DJZ_ZeroENH_V1.py] and [DJZ_ZeroENH_V2.py] define
    them with the same text; they are embedded once. *)
Module Core.

Notation "x <- e ;; k" :=
  (match e with Some x => k | None => None end)
  (at level 61, e at next level, right associativity).

(** ** Data *)

(** One entry of a profile's ["classification"] table. *)
Record ClassRule : Type := {
  keywords : list string;
  patterns : list Re.regex
}.

(** A profile's ["rules"] table; an absent key reads as the empty list. *)
Record Rules : Type := {
  mandatory : list string;
  never_override : list string;
  standard : list string;
  optional : list string
}.

Definition Dict (A : Type) : Type := list (string * A).

(** A profile dict, with the keys the engine reads; [None] is an absent
    key.  (The keys name, description, version and type are never read.) *)
Record Profile : Type := {
  templates : option (list string);
  pools : option (Dict (list string));
  classification : option (Dict ClassRule);
  rules : option Rules;
  anti_pairs : option (Dict (list string))
}.

Definition ORDERED_CATEGORIES : list string :=
  ["subject"; "action"; "environment"; "style"; "lighting"; "camera"; "details"; "mood"].

Definition INTENSITY_RATES : Dict Q :=
  [("minimal", 0.25%Q); ("light", 0.50%Q); ("moderate", 0.75%Q); ("full", 1.00%Q)].

Definition MAX_WORDS : Z := 150.

(** ** Core hash functions *)

Definition enhancement_hash (seed input_hash coord : Z) : Z :=
  XXH.xxh32 (Z.land seed 0xFFFFFFFF)
    (XXH.pack_II (Z.land input_hash 0xFFFFFFFF) (Z.land coord 0xFFFFFFFF)).

(** [h % pool_size]; a zero [pool_size] raises ZeroDivisionError. *)
Definition hash_to_index (h pool_size : Z) : option Z :=
  if pool_size =? 0 then None else Some (h mod pool_size).

Definition len {A : Type} (l : list A) : Z := Z.of_nat (List.length l).

(** [l[i]] for [0 <= i]. *)
Definition item {A : Type} (l : list A) (i : Z) : option A :=
  nth_error l (Z.to_nat i).

(** ** Phase 1: tokenization *)

(** The pattern "\s+-\s+|\s+\|\s+". *)
Definition token_separator : Re.regex :=
  Re.Alt (Re.seqs [Re.Plus Re.Space; Re.Chr "-"; Re.Plus Re.Space])
         (Re.seqs [Re.Plus Re.Space; Re.Chr "|"; Re.Plus Re.Space]).

Definition nonempty (s : string) : bool := negb (String.eqb s "").

Definition tokenize (prompt : string) : list string :=
  let tokens := Py.split_on "," prompt in
  flat_map
    (fun token =>
       let sub_tokens := Re.split token_separator token in
       filter nonempty (map Py.strip sub_tokens))
    tokens.

(** ** Phase 2: classification *)

Definition category_matches (token_lower : string) (rules : ClassRule) : bool :=
  let matched := existsb (fun keyword => Py.contains keyword token_lower) (keywords rules) in
  if negb matched
  then existsb (fun pattern => Re.search pattern token_lower) (patterns rules)
  else matched.

Definition classify_token_multi (token : string) (classification : Dict ClassRule)
  : list string :=
  let token_lower := Py.lower token in
  let categories :=
    map fst (filter (fun entry => category_matches token_lower (snd entry)) classification) in
  match categories with
  | [] => ["unclassified"]
  | _ => categories
  end.

(** [if cat in classified: classified[cat].append(token)] *)
Definition append_token (classified : Dict (list string)) (cat token : string)
  : Dict (list string) :=
  match Py.lookup cat classified with
  | Some bucket => Py.dict_set cat (bucket ++ [token]) classified
  | None => classified
  end.

Definition classify_all_tokens (tokens : list string) (classification : Dict ClassRule)
  : Dict (list string) :=
  let classified :=
    map (fun cat => (cat, [])) ORDERED_CATEGORIES ++ [("unclassified", [])] in
  fold_left
    (fun classified token =>
       let categories := classify_token_multi token classification in
       fold_left (fun classified cat => append_token classified cat token)
         categories classified)
    tokens classified.

(** ** Phase 3: gap finding and rules *)

Definition is_present (entry : string * list string) : bool :=
  match snd entry with
  | [] => false
  | _ => negb (String.eqb (fst entry) "unclassified")
  end.

Definition apply_category_rules (gaps : list string) (rules : Rules) (intensity : string)
  : list string :=
  filter
    (fun gap =>
       if Py.mem gap (mandatory rules) then true
       else if Py.mem gap (standard rules) then true
       else if Py.mem gap (optional rules) then Py.mem intensity ["moderate"; "full"]
       else false)
    gaps.

(** [INTENSITY_RATES.get(intensity, 0.75)] *)
Definition rate_of (intensity : string) : Q :=
  match Py.lookup intensity INTENSITY_RATES with
  | Some rate => rate
  | None => 0.75%Q
  end.

(** [max(1, int(len(gaps) * rate))]; the product is not negative, so
    [int] is the floor. *)
Definition num_to_fill (gaps : list string) (rate : Q) : Z :=
  Z.max 1 (Qfloor (inject_Z (len gaps) * rate)).

Definition select_gaps_to_fill (seed input_hash : Z) (gaps : list string)
           (intensity : string) : list string :=
  let rate := rate_of intensity in
  if Qle_bool 1.0 rate then gaps
  else
    let num_to_fill := num_to_fill gaps rate in
    if len gaps <=? num_to_fill then gaps
    else
      let gap_scores :=
        map (fun ig => (snd ig, enhancement_hash seed input_hash (2000 + fst ig)))
            (Py.enumerate gaps) in
      let gap_scores := Py.sort_by_key snd gap_scores in
      map fst (firstn (Z.to_nat num_to_fill) gap_scores).

(** ** Phase 4: enhancement selection with anti-pairing *)

Definition build_forbidden_set (existing_tokens : list string)
           (anti_pairs : Dict (list string)) : list string :=
  Py.to_set
    (flat_map
       (fun token =>
          let token_lower := Py.lower token in
          flat_map
            (fun entry =>
               if Py.contains (fst entry) token_lower
               then map Py.lower (snd entry) else [])
            anti_pairs)
       existing_tokens).

Section Sets.

(** The order in which a set is enumerated. *)
Variable set_iter : list string -> list string.

Definition find_gaps (classified pools : Dict (list string)) : list string :=
  let present := Py.to_set (map fst (filter is_present classified)) in
  let all_pools := Py.to_set (map fst pools) in
  Py.sorted (set_iter (filter (fun k => negb (Py.mem k present)) all_pools)).

(** [any(f in selection.lower() for f in forbidden)] *)
Definition conflicts (forbidden : list string) (selection : string) : bool :=
  let selection_lower := Py.lower selection in
  existsb (fun f => Py.contains f selection_lower) (set_iter forbidden).

(** The [while attempts < max_attempts] loop, [remaining] rounds before it
    gives up and returns the primary [selection]. *)
Fixpoint resolve_conflict (remaining : nat) (seed input_hash conflict_coord attempts : Z)
         (pool forbidden : list string) (selection : string) : option string :=
  match remaining with
  | O => Some selection
  | S remaining' =>
      let h2 := enhancement_hash seed input_hash (conflict_coord + attempts) in
      alt_idx <- hash_to_index h2 (len pool) ;;
      alt_selection <- item pool alt_idx ;;
      if negb (conflicts forbidden alt_selection) then Some alt_selection
      else resolve_conflict remaining' seed input_hash conflict_coord (attempts + 1)
             pool forbidden selection
  end.

Definition select_with_antipair_check (seed input_hash category_idx : Z)
           (pool forbidden : list string) : option string :=
  let h := enhancement_hash seed input_hash category_idx in
  primary_idx <- hash_to_index h (len pool) ;;
  selection <- item pool primary_idx ;;
  if conflicts forbidden selection then
    let conflict_coord := category_idx + 1000 in
    let max_attempts := Z.min (len pool) 50 in
    resolve_conflict (Z.to_nat max_attempts) seed input_hash conflict_coord 0
      pool forbidden selection
  else Some selection.

End Sets.

(** ** Phase 5: template selection and formatting *)

Definition select_template (seed input_hash : Z) (templates : list string)
  : option string :=
  let h := enhancement_hash seed input_hash 0 in
  idx <- hash_to_index h (len templates) ;;
  item templates idx.

(** The patterns of the clean-up, in the order they are applied. *)
Definition re_spaces : Re.regex :=            (* "\s+" *)
  Re.Plus Re.Space.
Definition re_comma : Re.regex :=             (* "\s*,\s*" *)
  Re.seqs [Re.Star Re.Space; Re.Chr ","; Re.Star Re.Space].
Definition re_commas : Re.regex :=            (* "(,\s* )+" without the blank *)
  Re.Plus (Re.Seq (Re.Chr ",") (Re.Star Re.Space)).
Definition re_leading_comma : Re.regex :=     (* "^\s*,\s*" *)
  Re.seqs [Re.Bol; Re.Star Re.Space; Re.Chr ","; Re.Star Re.Space].
Definition re_trailing_comma : Re.regex :=    (* "\s*,\s*$" *)
  Re.seqs [Re.Star Re.Space; Re.Chr ","; Re.Star Re.Space; Re.Eol].
Definition re_atmosphere : Re.regex :=        (* "\s*atmosphere\s*$" *)
  Re.seqs [Re.Star Re.Space; Re.lit "atmosphere"; Re.Star Re.Space; Re.Eol].
Definition re_orphan_scene : Re.regex :=      (* "^\s*scene\s*," *)
  Re.seqs [Re.Bol; Re.Star Re.Space; Re.lit "scene"; Re.Star Re.Space; Re.Chr ","].

(** The final [while] loop; every round that runs shortens [result], so
    [String.length result] rounds are enough. *)
Fixpoint collapse_commas (fuel : nat) (result : string) : string :=
  match fuel with
  | O => result
  | S fuel' =>
      if Py.contains ",," result || Py.contains ", ," result
      then collapse_commas fuel' (Py.replace ", ," "," (Py.replace ",," "," result))
      else result
  end.

Definition safe_format_template (template : string) (components : Dict string) : string :=
  let result :=
    fold_left
      (fun result kv =>
         let placeholder := ("{" ++ fst kv ++ "}")%string in
         if nonempty (snd kv) then Py.replace placeholder (snd kv) result
         else Py.replace placeholder "" result)
      components template in
  let result := Re.sub re_spaces " " result in
  let result := Re.sub re_comma ", " result in
  let result := Re.sub re_commas ", " result in
  let result := Re.sub re_leading_comma "" result in
  let result := Re.sub re_trailing_comma "" result in
  let result := Re.sub re_atmosphere " atmosphere" result in
  let result := Re.sub re_orphan_scene "" result in
  let result := Py.strip result in
  collapse_commas (String.length result) result.

(** ** Phase 6: merging and deduplication *)

Definition merge_with_unclassified (enhanced : string) (unclassified : list string)
  : string :=
  match unclassified with
  | [] => enhanced
  | _ => (enhanced ++ ", " ++ Py.join ", " unclassified)%string
  end.

(** The suffix loop: the first suffix that the stem ends with and that
    leaves more than two characters is cut off. *)
Fixpoint strip_suffix (suffixes : list string) (stem : string) : string :=
  match suffixes with
  | [] => stem
  | suffix :: suffixes' =>
      if Py.endswith suffix stem
         && (String.length suffix + 2 <? String.length stem)%nat
      then Py.drop_last (String.length suffix) stem
      else strip_suffix suffixes' stem
  end.

Definition stem_of (token : string) : string :=
  strip_suffix ["ing"; "ed"; "ly"; "s"] (Py.lower token).

(** [len(overlap) >= min(len(words), len(seen_words)) * 0.7] *)
Definition overlaps (words seen_words : list string) : bool :=
  let overlap := filter (fun w => Py.mem w seen_words) words in
  Qle_bool (inject_Z (Z.min (len words) (len seen_words)) * 0.7) (inject_Z (len overlap)).

Section Dedup.

Variable set_iter : list string -> list string.

Definition is_duplicate (seen_stems : list string) (stem : string) : bool :=
  let words := Py.to_set (Py.split stem) in
  let is_duplicate := Py.mem stem seen_stems in
  if negb is_duplicate && (0 <? len words)
  then existsb
         (fun seen => overlaps words (Py.to_set (Py.split seen)))
         (set_iter seen_stems)
  else is_duplicate.

(** The loop over the segments, on the state (seen_stems, final_tokens). *)
Definition dedup_step (state : list string * list string) (token : string)
  : list string * list string :=
  let '(seen_stems, final_tokens) := state in
  let stem := stem_of token in
  if is_duplicate seen_stems stem then state
  else (seen_stems ++ [stem], final_tokens ++ [token]).

Definition segments (prompt : string) : list string :=
  filter nonempty (map Py.strip (Py.split_on "," prompt)).

Definition final_tokens (prompt : string) : list string :=
  snd (fold_left dedup_step (segments prompt) ([], [])).

Definition deduplicate_prompt (prompt : string) : string :=
  Py.join ", " (final_tokens prompt).

End Dedup.

(** ** Phase 7: length enforcement *)

Definition enforce_length_limit (prompt : string) (max_words : Z) : string :=
  let words := Py.split prompt in
  if len words <=? max_words then prompt
  else
    let truncated := Py.slice_to max_words words in
    let result := Py.join " " truncated in
    Py.rstrip (Py.rstrip_char "," result).

(** ** The parts of [enhance_prompt] that both variants share *)

(** [existing_tokens]: the buckets of [classified], one after the other. *)
Definition existing_tokens_of (classified : Dict (list string)) : list string :=
  List.concat (map snd classified).

(** The loop that builds [components]. *)
Definition build_components (classified : Dict (list string)) (enhancements : Dict string)
  : Dict string :=
  map
    (fun category =>
       match Py.lookup category classified with
       | Some ((_ :: _) as bucket) => (category, Py.join ", " bucket)
       | _ =>
           match Py.lookup category enhancements with
           | Some selection => (category, selection)
           | None => (category, "")
           end
       end)
    ORDERED_CATEGORIES.

(** [classified.get("unclassified", [])] *)
Definition unclassified_of (classified : Dict (list string)) : list string :=
  match Py.lookup "unclassified" classified with
  | Some bucket => bucket
  | None => []
  end.

(** [not input_prompt or not input_prompt.strip()] *)
Definition is_blank (input_prompt : string) : bool :=
  negb (nonempty input_prompt) || negb (nonempty (Py.strip input_prompt)).

End Core.

(* ================================================================== *)
(** * [DJZ_ZeroENH_V1.py] *)
(* ================================================================== *)

Module V1.
Import Core.

(** ** The hardcoded vocabulary: the entries of [DEFAULT_PROFILE] *)

(** ["templates"] *)
Definition DEFAULT_TEMPLATES : list string :=
  ["{subject}, {environment}, {style}, {lighting}, {camera}, {details}, {mood} atmosphere";
   "{subject}, {environment}, {style}, {lighting}, {details}, {mood}";
   "{style}, {subject}, {environment}, {lighting}, {camera}, {details}";
   "{camera}, {subject}, {environment}, {style}, {lighting}, {details}";
   "{subject}, {environment}, {style}, {lighting}, {details}";
   "{mood} scene, {subject}, {environment}, {style}, {lighting}, {details}";
   "{subject}, {action}, {environment}, {style}, {lighting}, {details}";
   "{style}, {subject}, {environment}, {lighting}, {mood}, {details}"].

(** ["pools"] *)
Definition DEFAULT_POOLS : Dict (list string) :=
  [("subject",
    ["a woman"; "a man"; "a young woman"; "a young man"; "an elderly woman";
     "an elderly man"; "a child"; "a teenager"; "a couple"; "a group of people";
     "a knight"; "a wizard"; "a witch"; "a sorceress"; "a necromancer"; "a paladin";
     "a rogue"; "an assassin"; "a ranger"; "a barbarian"; "a druid"; "a monk";
     "a bard"; "a warlock"; "an elven archer"; "a dwarven smith"; "an orc warrior";
     "a goblin"; "a fairy"; "a nymph"; "a cyborg"; "an android"; "a robot";
     "a mech pilot"; "an astronaut"; "a space marine"; "an alien"; "a hacker";
     "a scientist"; "a bounty hunter"; "a samurai"; "a ninja"; "a viking";
     "a gladiator"; "a pharaoh"; "a geisha"; "a shogun"; "a roman soldier";
     "a medieval peasant"; "a noble"; "a detective"; "a soldier"; "a pilot";
     "a doctor"; "an artist"; "a musician"; "a dancer"; "an athlete"; "a chef";
     "a photographer"; "a dragon"; "a phoenix"; "a griffin"; "a unicorn"; "a werewolf";
     "a vampire"; "a demon"; "an angel"; "a ghost"; "a spirit"; "a wolf"; "a lion";
     "a tiger"; "an eagle"; "a raven"; "a serpent"; "a whale"; "a shark";
     "a butterfly"; "a spider"; "a mechanical spider"; "a clockwork automaton";
     "a golem"; "a sentient statue"; "a living shadow"; "an elemental being";
     "a slime creature"; "a treant"]);

   ("action",
    ["standing in"; "sitting in"; "kneeling in"; "floating above"; "hovering over";
     "resting in"; "meditating in"; "posing in"; "waiting in"; "watching over";
     "walking through"; "running through"; "flying over"; "swimming in"; "climbing";
     "falling into"; "descending into"; "ascending toward"; "emerging from";
     "diving into"; "fighting in"; "battling through"; "defending"; "attacking";
     "dueling in"; "charging through"; "retreating from"; "ambushing in"; "hunting in";
     "exploring"; "discovering"; "searching through"; "investigating";
     "summoning power in"; "casting a spell in"; "channeling energy in";
     "communing with nature in"; "praying in"; "performing a ritual in";
     "transforming in"; "shapeshifting in"; "awakening in"; "mourning in";
     "celebrating in"; "contemplating in"; "dreaming in"]);

   ("environment",
    ["a dark forest"; "an enchanted forest"; "a misty forest"; "a bamboo forest";
     "a snowy mountain"; "a volcanic mountain"; "a floating mountain"; "a vast desert";
     "an oasis"; "a canyon"; "a waterfall"; "a river"; "a beach at sunset";
     "a stormy sea"; "a coral reef"; "an underwater cavern"; "a medieval castle";
     "a ruined fortress"; "a gothic cathedral"; "an ancient temple"; "a hidden shrine";
     "a sacred grove"; "a wizard's tower"; "an alchemist's laboratory";
     "a royal throne room"; "a dungeon"; "catacombs"; "a crypt";
     "a graveyard at midnight"; "a cyberpunk city"; "a neon-lit alley";
     "a futuristic metropolis"; "a space station"; "an alien planet";
     "a terraformed moon"; "a dystopian wasteland"; "a post-apocalyptic city";
     "a megastructure"; "a virtual reality world"; "inside a computer mainframe";
     "a crystal cave"; "a bioluminescent cavern"; "a floating island";
     "the astral plane"; "between dimensions"; "the void"; "a pocket dimension";
     "a mirror world"; "a dream realm"; "cherry blossom gardens"; "an autumn forest";
     "a field of flowers"; "under the northern lights"; "during a solar eclipse"]);

   ("style",
    ["photorealistic"; "hyperrealistic"; "cinematic"; "film still";
     "documentary photography"; "portrait photography"; "fashion photography";
     "oil painting"; "watercolor painting"; "acrylic painting"; "gouache";
     "charcoal drawing"; "pencil sketch"; "ink drawing"; "fresco"; "art nouveau";
     "art deco"; "baroque"; "renaissance"; "romanticism"; "impressionist";
     "expressionist"; "surrealist"; "cubist"; "pre-raphaelite"; "ukiyo-e";
     "chinese ink wash"; "concept art"; "digital painting"; "matte painting";
     "3D render"; "low poly 3D"; "voxel art"; "pixel art"; "vector art"; "anime style";
     "manga style"; "studio ghibli style"; "disney style"; "pixar style";
     "cartoon style"; "comic book style"; "graphic novel style"; "vaporwave aesthetic";
     "synthwave"; "cyberpunk aesthetic"; "solarpunk"; "dark academia"; "cottagecore";
     "steampunk"; "dieselpunk"; "biopunk"; "dark souls style"; "elden ring style";
     "final fantasy style"]);

   ("lighting",
    ["golden hour lighting"; "blue hour lighting"; "harsh midday sun";
     "soft overcast light"; "dappled forest light"; "sunset backlight";
     "sunrise light"; "moonlight"; "starlight"; "dramatic rim lighting";
     "chiaroscuro lighting"; "spotlight"; "harsh shadows"; "silhouette lighting";
     "contre-jour"; "neon lighting"; "fluorescent lighting"; "candlelight";
     "firelight"; "bioluminescent glow"; "magical glow"; "holographic light";
     "volumetric lighting"; "god rays"; "light shafts"; "foggy atmosphere";
     "misty atmosphere"; "dusty atmosphere"; "rainy atmosphere"; "warm lighting";
     "cool lighting"; "neutral lighting"; "high contrast"; "low key lighting";
     "high key lighting"]);

   ("camera",
    ["extreme close-up"; "close-up portrait"; "medium shot"; "full body shot";
     "wide shot"; "extreme wide shot"; "establishing shot"; "eye level";
     "low angle shot"; "high angle shot"; "bird's eye view"; "worm's eye view";
     "dutch angle"; "overhead shot"; "first person view"; "over the shoulder";
     "point of view shot"; "three-quarter view"; "profile view"; "frontal view";
     "rear view"; "shallow depth of field"; "deep focus"; "bokeh background";
     "motion blur"; "long exposure"; "tilt-shift"; "fisheye lens"; "wide angle lens";
     "telephoto compression"; "macro shot"]);

   ("details",
    ["highly detailed"; "intricate details"; "fine details"; "subtle details";
     "sharp focus"; "crystal clear"; "pristine quality"; "4k"; "8k"; "high resolution";
     "ultra HD"; "masterpiece"; "award winning"; "professional"; "museum quality";
     "trending on artstation"; "featured on behance"; "gallery quality"; "ray tracing";
     "global illumination"; "subsurface scattering"; "ambient occlusion";
     "realistic textures"; "photogrammetry"; "expressive brushwork";
     "visible brushstrokes"; "smooth gradients"; "rich colors"; "vibrant palette";
     "muted tones"; "monochromatic"]);

   ("mood",
    ["serene"; "peaceful"; "tranquil"; "joyful"; "euphoric"; "whimsical"; "playful";
     "romantic"; "hopeful"; "triumphant"; "ominous"; "foreboding"; "melancholic";
     "sorrowful"; "tragic"; "terrifying"; "horrific"; "unsettling"; "disturbing";
     "mysterious"; "enigmatic"; "surreal"; "dreamlike"; "ethereal"; "nostalgic";
     "bittersweet"; "contemplative"; "introspective"; "tense"; "intense"; "chaotic";
     "explosive"; "dynamic"; "calm"; "still"; "quiet"; "subtle"; "understated"; "epic";
     "grand"; "intimate"; "cozy"; "lonely"; "isolated"])].

(** ["classification"]; each pattern is given as written and parsed. *)
Definition DEFAULT_CLASSIFICATION : Dict ClassRule :=
  [("subject",
    {| keywords :=
         ["woman"; "man"; "girl"; "boy"; "person"; "people"; "child"; "teen"; "knight";
          "wizard"; "witch"; "warrior"; "soldier"; "samurai"; "ninja"; "dragon";
          "phoenix"; "wolf"; "lion"; "tiger"; "cat"; "dog"; "bird"; "robot"; "android";
          "cyborg"; "alien"; "demon"; "angel"; "ghost"; "fairy"; "elf"; "dwarf"; "orc";
          "goblin"; "vampire"; "werewolf"];
       patterns :=
         [(* "^a " *) Re.seqs [Re.Bol; Re.lit "a "];
          (* "^an " *) Re.seqs [Re.Bol; Re.lit "an "];
          (* "^the " *) Re.seqs [Re.Bol; Re.lit "the "];
          (* "^my " *) Re.seqs [Re.Bol; Re.lit "my "]] |});

   ("action",
    {| keywords :=
         ["standing"; "sitting"; "walking"; "running"; "flying"; "swimming";
          "fighting"; "battling"; "dancing"; "singing"; "playing"; "reading";
          "casting"; "summoning"; "meditating"; "praying"; "sleeping"; "dreaming";
          "exploring"; "hunting"; "searching"; "watching"; "waiting"];
       patterns :=
         [(* "ing\s+(in|on|at|through|over|above|below|near)" *)
          Re.seqs [Re.lit "ing"; Re.Plus Re.Space;
                   Re.alts [Re.lit "in"; Re.lit "on"; Re.lit "at"; Re.lit "through";
                            Re.lit "over"; Re.lit "above"; Re.lit "below"; Re.lit "near"]]] |});

   ("environment",
    {| keywords :=
         ["forest"; "mountain"; "desert"; "ocean"; "sea"; "beach"; "river"; "city";
          "town"; "village"; "castle"; "tower"; "temple"; "church"; "cave"; "cavern";
          "dungeon"; "ruins"; "wasteland"; "garden"; "space"; "planet"; "moon";
          "station"; "void"; "dimension"; "realm"];
       patterns :=
         [(* "^in (a |an |the )?" *)
          Re.seqs [Re.Bol; Re.lit "in ";
                   Re.Opt (Re.alts [Re.lit "a "; Re.lit "an "; Re.lit "the "])];
          (* "^at (a |an |the )?" *)
          Re.seqs [Re.Bol; Re.lit "at ";
                   Re.Opt (Re.alts [Re.lit "a "; Re.lit "an "; Re.lit "the "])];
          (* "^inside" *) Re.seqs [Re.Bol; Re.lit "inside"]] |});

   ("style",
    {| keywords :=
         ["photorealistic"; "hyperrealistic"; "realistic"; "cinematic"; "painting";
          "drawing"; "sketch"; "illustration"; "render"; "anime"; "manga"; "cartoon";
          "comic"; "pixel"; "voxel"; "baroque"; "renaissance"; "impressionist";
          "surrealist"; "cyberpunk"; "steampunk"; "solarpunk"; "dieselpunk";
          "art nouveau"; "art deco"; "gothic"; "victorian"];
       patterns :=
         [(* "style$" *) Re.seqs [Re.lit "style"; Re.Eol];
          (* "aesthetic$" *) Re.seqs [Re.lit "aesthetic"; Re.Eol];
          (* "^in the style of" *) Re.seqs [Re.Bol; Re.lit "in the style of"]] |});

   ("lighting",
    {| keywords :=
         ["lighting"; "light"; "lit"; "glow"; "glowing"; "illuminated"; "shadow";
          "shadows"; "sunlight"; "moonlight"; "starlight"; "golden hour"; "blue hour";
          "sunset"; "sunrise"; "dawn"; "dusk"; "neon"; "fluorescent"; "candlelight";
          "firelight"; "torchlight"];
       patterns :=
         [(* "lighting$" *) Re.seqs [Re.lit "lighting"; Re.Eol];
          (* "light$" *) Re.seqs [Re.lit "light"; Re.Eol];
          (* "lit$" *) Re.seqs [Re.lit "lit"; Re.Eol]] |});

   ("camera",
    {| keywords :=
         ["close-up"; "closeup"; "wide shot"; "medium shot"; "full body"; "portrait";
          "angle"; "view"; "perspective"; "lens"; "bokeh"; "depth of field"; "dof";
          "focus"; "blur"; "fisheye"; "telephoto"; "macro"; "tilt-shift"];
       patterns :=
         [(* "shot$" *) Re.seqs [Re.lit "shot"; Re.Eol];
          (* "angle$" *) Re.seqs [Re.lit "angle"; Re.Eol];
          (* "view$" *) Re.seqs [Re.lit "view"; Re.Eol];
          (* "^\d+mm" *) Re.seqs [Re.Bol; Re.Plus Re.Digit; Re.lit "mm"]] |});

   ("details",
    {| keywords :=
         ["detailed"; "intricate"; "sharp"; "crisp"; "clear"; "4k"; "8k"; "hd"; "uhd";
          "high resolution"; "masterpiece"; "quality"; "professional"; "award";
          "artstation"; "behance"; "trending"];
       patterns :=
         [(* "detailed$" *) Re.seqs [Re.lit "detailed"; Re.Eol];
          (* "quality$" *) Re.seqs [Re.lit "quality"; Re.Eol];
          (* "^\d+k$" *) Re.seqs [Re.Bol; Re.Plus Re.Digit; Re.Chr "k"; Re.Eol]] |});

   ("mood",
    {| keywords :=
         ["serene"; "peaceful"; "calm"; "tranquil"; "joyful"; "happy"; "dark";
          "ominous"; "foreboding"; "mysterious"; "eerie"; "epic"; "dramatic";
          "intense"; "dynamic"; "chaotic"; "melancholic"; "sad"; "nostalgic";
          "romantic"; "dreamy"];
       patterns :=
         [(* "atmosphere$" *) Re.seqs [Re.lit "atmosphere"; Re.Eol];
          (* "mood$" *) Re.seqs [Re.lit "mood"; Re.Eol];
          (* "feeling$" *) Re.seqs [Re.lit "feeling"; Re.Eol];
          (* "vibe$" *) Re.seqs [Re.lit "vibe"; Re.Eol]] |})].

(** ["rules"] *)
Definition DEFAULT_RULES : Rules :=
  {| mandatory := ["details"];
     never_override := ["subject"];
     standard := ["style"; "lighting"; "environment"; "camera"];
     optional := ["mood"; "action"] |}.

(** ["anti_pairs"] *)
Definition DEFAULT_ANTI_PAIRS : Dict (list string) :=
  [("underwater", ["sunset"; "sunrise"; "golden hour"; "harsh sunlight"; "dusty atmosphere"]);
   ("space station", ["golden hour"; "forest light"; "dappled"]);
   ("cave", ["golden hour"; "blue hour"; "sunset backlight"; "harsh midday sun"]);
   ("night", ["harsh midday sun"; "bright daylight"; "golden hour"]);
   ("graveyard", ["joyful"; "playful"; "whimsical"; "euphoric"]);
   ("sunny", ["ominous"; "foreboding"; "horrific"; "terrifying"]);
   ("pixel art", ["ray tracing"; "photogrammetry"; "subsurface scattering"; "hyperrealistic"]);
   ("watercolor", ["8k"; "photogrammetry"; "hyperrealistic"; "ray tracing"]);
   ("sketch", ["ray tracing"; "photogrammetry"; "8k resolution"]);
   ("moonlight", ["harsh midday sun"; "golden hour"; "bright daylight"]);
   ("neon", ["candlelight"; "firelight"; "torchlight"; "medieval"])].

Definition DEFAULT_PROFILE : Profile :=
  {| templates := Some DEFAULT_TEMPLATES;
     pools := Some DEFAULT_POOLS;
     classification := Some DEFAULT_CLASSIFICATION;
     rules := Some DEFAULT_RULES;
     anti_pairs := Some DEFAULT_ANTI_PAIRS |}.

Section Engine.

Variable set_iter : list string -> list string.

(** The loop of phase 4 over [enumerate(sorted(gaps))]:
    [pool = profile["pools"][gap]] raises KeyError for an unknown gap. *)
Fixpoint select_enhancements (seed input_hash : Z) (pools : Dict (list string))
         (forbidden : list string) (gaps : list (Z * string))
         (enhancements : Dict string) : option (Dict string) :=
  match gaps with
  | [] => Some enhancements
  | (i, gap) :: gaps' =>
      pool <- Py.lookup gap pools ;;
      selection <- select_with_antipair_check set_iter seed input_hash (i + 1)
                     pool forbidden ;;
      select_enhancements seed input_hash pools forbidden gaps'
        (Py.dict_set gap selection enhancements)
  end.

Definition enhance_prompt (input_prompt : string) (seed : Z) (intensity : string)
           (max_words : Z) : option string :=
  let profile := DEFAULT_PROFILE in
  if is_blank input_prompt then Some input_prompt
  else
    (* phase 1: tokenize *)
    let tokens := tokenize input_prompt in
    (* phase 2: classify *)
    classification <- classification profile ;;
    let classified := classify_all_tokens tokens classification in
    (* phase 3: find gaps *)
    pools <- pools profile ;;
    let gaps := find_gaps set_iter classified pools in
    (* phase 3.5: apply category rules *)
    rules <- rules profile ;;
    let gaps := apply_category_rules gaps rules intensity in
    (* phase 3.6: apply intensity *)
    let input_hash := XXH.xxh32 0 (XXH.encode input_prompt) in
    let gaps := select_gaps_to_fill seed input_hash gaps intensity in
    (* phase 4: select enhancements *)
    let existing_tokens := existing_tokens_of classified in
    anti_pairs <- anti_pairs profile ;;
    let forbidden := build_forbidden_set existing_tokens anti_pairs in
    enhancements <- select_enhancements seed input_hash pools forbidden
                      (Py.enumerate (Py.sorted gaps)) [] ;;
    (* phase 5: select template and build components *)
    templates <- templates profile ;;
    template <- select_template seed input_hash templates ;;
    let components := build_components classified enhancements in
    (* phase 6: format and merge *)
    let enhanced := safe_format_template template components in
    let enhanced := merge_with_unclassified enhanced (unclassified_of classified) in
    (* phase 7: deduplicate *)
    let enhanced := deduplicate_prompt set_iter enhanced in
    (* phase 8: enforce length *)
    let enhanced := enforce_length_limit enhanced max_words in
    Some enhanced.

End Engine.

End V1.

(* ================================================================== *)
(** * [DJZ_ZeroENH_V2.py] *)
(* ================================================================== *)

Module V2.
Import Core.

(** ** The built-in fallback profile: the entries of [DEFAULT_PROFILE] *)

(** ["templates"] *)
Definition DEFAULT_TEMPLATES : list string :=
  ["{subject}, {environment}, {style}, {lighting}, {camera}, {details}, {mood} atmosphere";
   "{subject}, {environment}, {style}, {lighting}, {details}, {mood}";
   "{style}, {subject}, {environment}, {lighting}, {camera}, {details}";
   "{camera}, {subject}, {environment}, {style}, {lighting}, {details}";
   "{subject}, {environment}, {style}, {lighting}, {details}";
   "{mood} scene, {subject}, {environment}, {style}, {lighting}, {details}";
   "{subject}, {action}, {environment}, {style}, {lighting}, {details}";
   "{style}, {subject}, {environment}, {lighting}, {mood}, {details}"].

(** ["pools"] *)
Definition DEFAULT_POOLS : Dict (list string) :=
  [("subject",
    ["a woman"; "a man"; "a young woman"; "a young man"; "an elderly woman";
     "an elderly man"; "a child"; "a teenager"; "a couple"; "a group of people";
     "a knight"; "a wizard"; "a witch"; "a sorceress"; "a necromancer"; "a paladin";
     "a rogue"; "an assassin"; "a ranger"; "a barbarian"; "a druid"; "a monk";
     "a bard"; "a warlock"; "an elven archer"; "a dwarven smith"; "an orc warrior";
     "a goblin"; "a fairy"; "a nymph"; "a cyborg"; "an android"; "a robot";
     "a mech pilot"; "an astronaut"; "a space marine"; "an alien"; "a hacker";
     "a scientist"; "a bounty hunter"; "a samurai"; "a ninja"; "a viking";
     "a gladiator"; "a pharaoh"; "a geisha"; "a shogun"; "a roman soldier";
     "a medieval peasant"; "a noble"; "a detective"; "a soldier"; "a pilot";
     "a doctor"; "an artist"; "a musician"; "a dancer"; "an athlete"; "a chef";
     "a photographer"; "a dragon"; "a phoenix"; "a griffin"; "a unicorn"; "a werewolf";
     "a vampire"; "a demon"; "an angel"; "a ghost"; "a spirit"; "a wolf"; "a lion";
     "a tiger"; "an eagle"; "a raven"; "a serpent"; "a whale"; "a shark";
     "a butterfly"; "a spider"; "a mechanical spider"; "a clockwork automaton";
     "a golem"; "a sentient statue"; "a living shadow"; "an elemental being";
     "a slime creature"; "a treant"]);

   ("action",
    ["standing in"; "sitting in"; "kneeling in"; "floating above"; "hovering over";
     "resting in"; "meditating in"; "posing in"; "waiting in"; "watching over";
     "walking through"; "running through"; "flying over"; "swimming in"; "climbing";
     "falling into"; "descending into"; "ascending toward"; "emerging from";
     "diving into"; "fighting in"; "battling through"; "defending"; "attacking";
     "dueling in"; "charging through"; "retreating from"; "ambushing in"; "hunting in";
     "exploring"; "discovering"; "searching through"; "investigating";
     "summoning power in"; "casting a spell in"; "channeling energy in";
     "communing with nature in"; "praying in"; "performing a ritual in";
     "transforming in"; "shapeshifting in"; "awakening in"; "mourning in";
     "celebrating in"; "contemplating in"; "dreaming in"]);

   ("environment",
    ["a dark forest"; "an enchanted forest"; "a misty forest"; "a bamboo forest";
     "a snowy mountain"; "a volcanic mountain"; "a floating mountain"; "a vast desert";
     "an oasis"; "a canyon"; "a waterfall"; "a river"; "a beach at sunset";
     "a stormy sea"; "a coral reef"; "an underwater cavern"; "a medieval castle";
     "a ruined fortress"; "a gothic cathedral"; "an ancient temple"; "a hidden shrine";
     "a sacred grove"; "a wizard's tower"; "an alchemist's laboratory";
     "a royal throne room"; "a dungeon"; "catacombs"; "a crypt";
     "a graveyard at midnight"; "a cyberpunk city"; "a neon-lit alley";
     "a futuristic metropolis"; "a space station"; "an alien planet";
     "a terraformed moon"; "a dystopian wasteland"; "a post-apocalyptic city";
     "a megastructure"; "a virtual reality world"; "inside a computer mainframe";
     "a crystal cave"; "a bioluminescent cavern"; "a floating island";
     "the astral plane"; "between dimensions"; "the void"; "a pocket dimension";
     "a mirror world"; "a dream realm"; "cherry blossom gardens"; "an autumn forest";
     "a field of flowers"; "under the northern lights"; "during a solar eclipse"]);

   ("style",
    ["photorealistic"; "hyperrealistic"; "cinematic"; "film still";
     "documentary photography"; "portrait photography"; "fashion photography";
     "oil painting"; "watercolor painting"; "acrylic painting"; "gouache";
     "charcoal drawing"; "pencil sketch"; "ink drawing"; "fresco"; "art nouveau";
     "art deco"; "baroque"; "renaissance"; "romanticism"; "impressionist";
     "expressionist"; "surrealist"; "cubist"; "pre-raphaelite"; "ukiyo-e";
     "chinese ink wash"; "concept art"; "digital painting"; "matte painting";
     "3D render"; "low poly 3D"; "voxel art"; "pixel art"; "vector art"; "anime style";
     "manga style"; "studio ghibli style"; "disney style"; "pixar style";
     "cartoon style"; "comic book style"; "graphic novel style"; "vaporwave aesthetic";
     "synthwave"; "cyberpunk aesthetic"; "solarpunk"; "dark academia"; "cottagecore";
     "steampunk"; "dieselpunk"; "biopunk"; "dark souls style"; "elden ring style";
     "final fantasy style"]);

   ("lighting",
    ["golden hour lighting"; "blue hour lighting"; "harsh midday sun";
     "soft overcast light"; "dappled forest light"; "sunset backlight";
     "sunrise light"; "moonlight"; "starlight"; "dramatic rim lighting";
     "chiaroscuro lighting"; "spotlight"; "harsh shadows"; "silhouette lighting";
     "contre-jour"; "neon lighting"; "fluorescent lighting"; "candlelight";
     "firelight"; "bioluminescent glow"; "magical glow"; "holographic light";
     "volumetric lighting"; "god rays"; "light shafts"; "foggy atmosphere";
     "misty atmosphere"; "dusty atmosphere"; "rainy atmosphere"; "warm lighting";
     "cool lighting"; "neutral lighting"; "high contrast"; "low key lighting";
     "high key lighting"]);

   ("camera",
    ["extreme close-up"; "close-up portrait"; "medium shot"; "full body shot";
     "wide shot"; "extreme wide shot"; "establishing shot"; "eye level";
     "low angle shot"; "high angle shot"; "bird's eye view"; "worm's eye view";
     "dutch angle"; "overhead shot"; "first person view"; "over the shoulder";
     "point of view shot"; "three-quarter view"; "profile view"; "frontal view";
     "rear view"; "shallow depth of field"; "deep focus"; "bokeh background";
     "motion blur"; "long exposure"; "tilt-shift"; "fisheye lens"; "wide angle lens";
     "telephoto compression"; "macro shot"]);

   ("details",
    ["highly detailed"; "intricate details"; "fine details"; "subtle details";
     "sharp focus"; "crystal clear"; "pristine quality"; "4k"; "8k"; "high resolution";
     "ultra HD"; "masterpiece"; "award winning"; "professional"; "museum quality";
     "trending on artstation"; "featured on behance"; "gallery quality"; "ray tracing";
     "global illumination"; "subsurface scattering"; "ambient occlusion";
     "realistic textures"; "photogrammetry"; "expressive brushwork";
     "visible brushstrokes"; "smooth gradients"; "rich colors"; "vibrant palette";
     "muted tones"; "monochromatic"]);

   ("mood",
    ["serene"; "peaceful"; "tranquil"; "joyful"; "euphoric"; "whimsical"; "playful";
     "romantic"; "hopeful"; "triumphant"; "ominous"; "foreboding"; "melancholic";
     "sorrowful"; "tragic"; "terrifying"; "horrific"; "unsettling"; "disturbing";
     "mysterious"; "enigmatic"; "surreal"; "dreamlike"; "ethereal"; "nostalgic";
     "bittersweet"; "contemplative"; "introspective"; "tense"; "intense"; "chaotic";
     "explosive"; "dynamic"; "calm"; "still"; "quiet"; "subtle"; "understated"; "epic";
     "grand"; "intimate"; "cozy"; "lonely"; "isolated"])].

(** ["classification"]; each pattern is given as written and parsed. *)
Definition DEFAULT_CLASSIFICATION : Dict ClassRule :=
  [("subject",
    {| keywords :=
         ["woman"; "man"; "girl"; "boy"; "person"; "people"; "child"; "teen"; "knight";
          "wizard"; "witch"; "warrior"; "soldier"; "samurai"; "ninja"; "dragon";
          "phoenix"; "wolf"; "lion"; "tiger"; "cat"; "dog"; "bird"; "robot"; "android";
          "cyborg"; "alien"; "demon"; "angel"; "ghost"; "fairy"; "elf"; "dwarf"; "orc";
          "goblin"; "vampire"; "werewolf"];
       patterns :=
         [(* "^a " *) Re.seqs [Re.Bol; Re.lit "a "];
          (* "^an " *) Re.seqs [Re.Bol; Re.lit "an "];
          (* "^the " *) Re.seqs [Re.Bol; Re.lit "the "];
          (* "^my " *) Re.seqs [Re.Bol; Re.lit "my "]] |});

   ("action",
    {| keywords :=
         ["standing"; "sitting"; "walking"; "running"; "flying"; "swimming";
          "fighting"; "battling"; "dancing"; "singing"; "playing"; "reading";
          "casting"; "summoning"; "meditating"; "praying"; "sleeping"; "dreaming";
          "exploring"; "hunting"; "searching"; "watching"; "waiting"];
       patterns :=
         [(* "ing\s+(in|on|at|through|over|above|below|near)" *)
          Re.seqs [Re.lit "ing"; Re.Plus Re.Space;
                   Re.alts [Re.lit "in"; Re.lit "on"; Re.lit "at"; Re.lit "through";
                            Re.lit "over"; Re.lit "above"; Re.lit "below"; Re.lit "near"]]] |});

   ("environment",
    {| keywords :=
         ["forest"; "mountain"; "desert"; "ocean"; "sea"; "beach"; "river"; "city";
          "town"; "village"; "castle"; "tower"; "temple"; "church"; "cave"; "cavern";
          "dungeon"; "ruins"; "wasteland"; "garden"; "space"; "planet"; "moon";
          "station"; "void"; "dimension"; "realm"];
       patterns :=
         [(* "^in (a |an |the )?" *)
          Re.seqs [Re.Bol; Re.lit "in ";
                   Re.Opt (Re.alts [Re.lit "a "; Re.lit "an "; Re.lit "the "])];
          (* "^at (a |an |the )?" *)
          Re.seqs [Re.Bol; Re.lit "at ";
                   Re.Opt (Re.alts [Re.lit "a "; Re.lit "an "; Re.lit "the "])];
          (* "^inside" *) Re.seqs [Re.Bol; Re.lit "inside"]] |});

   ("style",
    {| keywords :=
         ["photorealistic"; "hyperrealistic"; "realistic"; "cinematic"; "painting";
          "drawing"; "sketch"; "illustration"; "render"; "anime"; "manga"; "cartoon";
          "comic"; "pixel"; "voxel"; "baroque"; "renaissance"; "impressionist";
          "surrealist"; "cyberpunk"; "steampunk"; "solarpunk"; "dieselpunk";
          "art nouveau"; "art deco"; "gothic"; "victorian"];
       patterns :=
         [(* "style$" *) Re.seqs [Re.lit "style"; Re.Eol];
          (* "aesthetic$" *) Re.seqs [Re.lit "aesthetic"; Re.Eol];
          (* "^in the style of" *) Re.seqs [Re.Bol; Re.lit "in the style of"]] |});

   ("lighting",
    {| keywords :=
         ["lighting"; "light"; "lit"; "glow"; "glowing"; "illuminated"; "shadow";
          "shadows"; "sunlight"; "moonlight"; "starlight"; "golden hour"; "blue hour";
          "sunset"; "sunrise"; "dawn"; "dusk"; "neon"; "fluorescent"; "candlelight";
          "firelight"; "torchlight"];
       patterns :=
         [(* "lighting$" *) Re.seqs [Re.lit "lighting"; Re.Eol];
          (* "light$" *) Re.seqs [Re.lit "light"; Re.Eol];
          (* "lit$" *) Re.seqs [Re.lit "lit"; Re.Eol]] |});

   ("camera",
    {| keywords :=
         ["close-up"; "closeup"; "wide shot"; "medium shot"; "full body"; "portrait";
          "angle"; "view"; "perspective"; "lens"; "bokeh"; "depth of field"; "dof";
          "focus"; "blur"; "fisheye"; "telephoto"; "macro"; "tilt-shift"];
       patterns :=
         [(* "shot$" *) Re.seqs [Re.lit "shot"; Re.Eol];
          (* "angle$" *) Re.seqs [Re.lit "angle"; Re.Eol];
          (* "view$" *) Re.seqs [Re.lit "view"; Re.Eol];
          (* "^\d+mm" *) Re.seqs [Re.Bol; Re.Plus Re.Digit; Re.lit "mm"]] |});

   ("details",
    {| keywords :=
         ["detailed"; "intricate"; "sharp"; "crisp"; "clear"; "4k"; "8k"; "hd"; "uhd";
          "high resolution"; "masterpiece"; "quality"; "professional"; "award";
          "artstation"; "behance"; "trending"];
       patterns :=
         [(* "detailed$" *) Re.seqs [Re.lit "detailed"; Re.Eol];
          (* "quality$" *) Re.seqs [Re.lit "quality"; Re.Eol];
          (* "^\d+k$" *) Re.seqs [Re.Bol; Re.Plus Re.Digit; Re.Chr "k"; Re.Eol]] |});

   ("mood",
    {| keywords :=
         ["serene"; "peaceful"; "calm"; "tranquil"; "joyful"; "happy"; "dark";
          "ominous"; "foreboding"; "mysterious"; "eerie"; "epic"; "dramatic";
          "intense"; "dynamic"; "chaotic"; "melancholic"; "sad"; "nostalgic";
          "romantic"; "dreamy"];
       patterns :=
         [(* "atmosphere$" *) Re.seqs [Re.lit "atmosphere"; Re.Eol];
          (* "mood$" *) Re.seqs [Re.lit "mood"; Re.Eol];
          (* "feeling$" *) Re.seqs [Re.lit "feeling"; Re.Eol];
          (* "vibe$" *) Re.seqs [Re.lit "vibe"; Re.Eol]] |})].

(** ["rules"] *)
Definition DEFAULT_RULES : Rules :=
  {| mandatory := ["details"];
     never_override := ["subject"];
     standard := ["style"; "lighting"; "environment"; "camera"];
     optional := ["mood"; "action"] |}.

(** ["anti_pairs"] *)
Definition DEFAULT_ANTI_PAIRS : Dict (list string) :=
  [("underwater", ["sunset"; "sunrise"; "golden hour"; "harsh sunlight"; "dusty atmosphere"]);
   ("space station", ["golden hour"; "forest light"; "dappled"]);
   ("cave", ["golden hour"; "blue hour"; "sunset backlight"; "harsh midday sun"]);
   ("night", ["harsh midday sun"; "bright daylight"; "golden hour"]);
   ("graveyard", ["joyful"; "playful"; "whimsical"; "euphoric"]);
   ("sunny", ["ominous"; "foreboding"; "horrific"; "terrifying"]);
   ("pixel art", ["ray tracing"; "photogrammetry"; "subsurface scattering"; "hyperrealistic"]);
   ("watercolor", ["8k"; "photogrammetry"; "hyperrealistic"; "ray tracing"]);
   ("sketch", ["ray tracing"; "photogrammetry"; "8k resolution"]);
   ("moonlight", ["harsh midday sun"; "golden hour"; "bright daylight"]);
   ("neon", ["candlelight"; "firelight"; "torchlight"; "medieval"])].

Definition DEFAULT_PROFILE : Profile :=
  {| templates := Some DEFAULT_TEMPLATES;
     pools := Some DEFAULT_POOLS;
     classification := Some DEFAULT_CLASSIFICATION;
     rules := Some DEFAULT_RULES;
     anti_pairs := Some DEFAULT_ANTI_PAIRS |}.

(** [profile.get(key, default)] *)
Definition get {A : Type} (value : option A) (default : A) : A :=
  match value with
  | Some v => v
  | None => default
  end.

Section Engine.

Variable set_iter : list string -> list string.

(** The loop of phase 4 over [enumerate(sorted(gaps))], with its guard
    [if gap in pools and pools[gap]]. *)
Fixpoint select_enhancements (seed input_hash : Z) (pools : Dict (list string))
         (forbidden : list string) (gaps : list (Z * string))
         (enhancements : Dict string) : option (Dict string) :=
  match gaps with
  | [] => Some enhancements
  | (i, gap) :: gaps' =>
      match Py.lookup gap pools with
      | Some ((_ :: _) as pool) =>
          selection <- select_with_antipair_check set_iter seed input_hash (i + 1)
                         pool forbidden ;;
          select_enhancements seed input_hash pools forbidden gaps'
            (Py.dict_set gap selection enhancements)
      | _ => select_enhancements seed input_hash pools forbidden gaps' enhancements
      end
  end.

Definition enhance_prompt (input_prompt : string) (seed : Z) (profile : Profile)
           (intensity : string) (max_words : Z) : option string :=
  if is_blank input_prompt then Some input_prompt
  else
    (* profile components with fallbacks *)
    let classification := get (classification profile) DEFAULT_CLASSIFICATION in
    let pools := get (pools profile) DEFAULT_POOLS in
    let templates := get (templates profile) DEFAULT_TEMPLATES in
    let rules := get (rules profile) DEFAULT_RULES in
    let anti_pairs := get (anti_pairs profile) DEFAULT_ANTI_PAIRS in
    (* phase 1: tokenize *)
    let tokens := tokenize input_prompt in
    (* phase 2: classify *)
    let classified := classify_all_tokens tokens classification in
    (* phase 3: find gaps *)
    let gaps := find_gaps set_iter classified pools in
    (* phase 3.5: apply category rules *)
    let gaps := apply_category_rules gaps rules intensity in
    (* phase 3.6: apply intensity *)
    let input_hash := XXH.xxh32 0 (XXH.encode input_prompt) in
    let gaps := select_gaps_to_fill seed input_hash gaps intensity in
    (* phase 4: select enhancements *)
    let existing_tokens := existing_tokens_of classified in
    let forbidden := build_forbidden_set existing_tokens anti_pairs in
    enhancements <- select_enhancements seed input_hash pools forbidden
                      (Py.enumerate (Py.sorted gaps)) [] ;;
    (* phase 5: select template and build components *)
    template <- select_template seed input_hash templates ;;
    let components := build_components classified enhancements in
    (* phase 6: format and merge *)
    let enhanced := safe_format_template template components in
    let enhanced := merge_with_unclassified enhanced (unclassified_of classified) in
    (* phase 7: deduplicate *)
    let enhanced := deduplicate_prompt set_iter enhanced in
    (* phase 8: enforce length *)
    let enhanced := enforce_length_limit enhanced max_words in
    Some enhanced.

End Engine.

End V2.

(* ================================================================== *)
(** * The hash queries of one call *)
(* ================================================================== *)

(** The V2 engine once more, with every call of [enhancement_hash]
    recorded: which decision asked, and at which coordinate.  The results
    are those of [V2]; see [Trace.enhance_prompt_result]. *)
Module Trace.
Import Core.

Inductive decision : Type :=
| TemplatePick                                  (* select_template *)
| PrimaryPick (category_idx : Z)                (* the primary selection of a gap *)
| FallbackAttempt (category_idx attempts : Z)   (* one round of the retry loop *)
| GapScore (index : Z).                         (* the score of gap [index] *)

Definition query : Type := (decision * Z)%type.

(** A result, or an exception, together with the queries made so far. *)
Definition Traced (A : Type) : Type := (option A * list query)%type.

Definition ret {A : Type} (a : A) : Traced A := (Some a, []).

Definition lift {A : Type} (o : option A) : Traced A := (o, []).

Definition bind {A B : Type} (m : Traced A) (f : A -> Traced B) : Traced B :=
  match fst m with
  | Some a => (fst (f a), snd m ++ snd (f a))
  | None => (None, snd m)
  end.

Notation "x <~ e ;; k" := (bind e (fun x => k))
  (at level 61, e at next level, right associativity).

(** [enhancement_hash(seed, input_hash, coord)], asked by [d]. *)
Definition hash_at (d : decision) (seed input_hash coord : Z) : Traced Z :=
  (Some (enhancement_hash seed input_hash coord), [(d, coord)]).

(** The scoring loop of [select_gaps_to_fill]. *)
Fixpoint score_gaps (seed input_hash : Z) (gaps : list (Z * string))
  : Traced (list (string * Z)) :=
  match gaps with
  | [] => ret []
  | (i, gap) :: gaps' =>
      h <~ hash_at (GapScore i) seed input_hash (2000 + i) ;;
      gap_scores <~ score_gaps seed input_hash gaps' ;;
      ret ((gap, h) :: gap_scores)
  end.

Definition select_gaps_to_fill (seed input_hash : Z) (gaps : list string)
           (intensity : string) : Traced (list string) :=
  let rate := rate_of intensity in
  if Qle_bool 1.0 rate then ret gaps
  else
    let num_to_fill := num_to_fill gaps rate in
    if len gaps <=? num_to_fill then ret gaps
    else
      gap_scores <~ score_gaps seed input_hash (Py.enumerate gaps) ;;
      let gap_scores := Py.sort_by_key snd gap_scores in
      ret (map fst (firstn (Z.to_nat num_to_fill) gap_scores)).

Definition select_template (seed input_hash : Z) (templates : list string)
  : Traced string :=
  h <~ hash_at TemplatePick seed input_hash 0 ;;
  idx <~ lift (hash_to_index h (len templates)) ;;
  lift (item templates idx).

Section Engine.

Variable set_iter : list string -> list string.

Fixpoint resolve_conflict (remaining : nat)
         (seed input_hash category_idx conflict_coord attempts : Z)
         (pool forbidden : list string) (selection : string) : Traced string :=
  match remaining with
  | O => ret selection
  | S remaining' =>
      h2 <~ hash_at (FallbackAttempt category_idx attempts) seed input_hash
              (conflict_coord + attempts) ;;
      alt_idx <~ lift (hash_to_index h2 (len pool)) ;;
      alt_selection <~ lift (item pool alt_idx) ;;
      if negb (conflicts set_iter forbidden alt_selection) then ret alt_selection
      else resolve_conflict remaining' seed input_hash category_idx conflict_coord
             (attempts + 1) pool forbidden selection
  end.

Definition select_with_antipair_check (seed input_hash category_idx : Z)
           (pool forbidden : list string) : Traced string :=
  h <~ hash_at (PrimaryPick category_idx) seed input_hash category_idx ;;
  primary_idx <~ lift (hash_to_index h (len pool)) ;;
  selection <~ lift (item pool primary_idx) ;;
  if conflicts set_iter forbidden selection then
    let conflict_coord := category_idx + 1000 in
    let max_attempts := Z.min (len pool) 50 in
    resolve_conflict (Z.to_nat max_attempts) seed input_hash category_idx
      conflict_coord 0 pool forbidden selection
  else ret selection.

Fixpoint select_enhancements (seed input_hash : Z) (pools : Dict (list string))
         (forbidden : list string) (gaps : list (Z * string))
         (enhancements : Dict string) : Traced (Dict string) :=
  match gaps with
  | [] => ret enhancements
  | (i, gap) :: gaps' =>
      match Py.lookup gap pools with
      | Some ((_ :: _) as pool) =>
          selection <~ select_with_antipair_check seed input_hash (i + 1)
                         pool forbidden ;;
          select_enhancements seed input_hash pools forbidden gaps'
            (Py.dict_set gap selection enhancements)
      | _ => select_enhancements seed input_hash pools forbidden gaps' enhancements
      end
  end.

Definition enhance_prompt (input_prompt : string) (seed : Z) (profile : Profile)
           (intensity : string) (max_words : Z) : Traced string :=
  if is_blank input_prompt then ret input_prompt
  else
    let classification := V2.get (classification profile) V2.DEFAULT_CLASSIFICATION in
    let pools := V2.get (pools profile) V2.DEFAULT_POOLS in
    let templates := V2.get (templates profile) V2.DEFAULT_TEMPLATES in
    let rules := V2.get (rules profile) V2.DEFAULT_RULES in
    let anti_pairs := V2.get (anti_pairs profile) V2.DEFAULT_ANTI_PAIRS in
    let tokens := tokenize input_prompt in
    let classified := classify_all_tokens tokens classification in
    let gaps := find_gaps set_iter classified pools in
    let gaps := apply_category_rules gaps rules intensity in
    let input_hash := XXH.xxh32 0 (XXH.encode input_prompt) in
    gaps <~ select_gaps_to_fill seed input_hash gaps intensity ;;
    let existing_tokens := existing_tokens_of classified in
    let forbidden := build_forbidden_set existing_tokens anti_pairs in
    enhancements <~ select_enhancements seed input_hash pools forbidden
                      (Py.enumerate (Py.sorted gaps)) [] ;;
    template <~ select_template seed input_hash templates ;;
    let components := build_components classified enhancements in
    let enhanced := safe_format_template template components in
    let enhanced := merge_with_unclassified enhanced (unclassified_of classified) in
    let enhanced := deduplicate_prompt set_iter enhanced in
    let enhanced := enforce_length_limit enhanced max_words in
    ret enhanced.

End Engine.

End Trace.

(* ================================================================== *)
(** * Predicates of the statements *)
(* ================================================================== *)

Module Spec.
Import Core.

(** The string is empty or consists of whitespace only. *)
Fixpoint all_space (s : string) : bool :=
  match s with
  | EmptyString => true
  | String c s' => Py.isspace c && all_space s'
  end.

(** [t] occurs in [s]. *)
Definition occurs_in (t s : string) : Prop :=
  exists a b : string, s = (a ++ t ++ b)%string.

(** The number of words of a string, [len(s.split())]. *)
Definition word_count (s : string) : Z := len (Py.split s).

(** No two consecutive commas, no leading comma, no trailing comma. *)
Definition well_formatted (s : string) : Prop :=
  Py.contains ",," s = false /\
  Py.startswith "," s = false /\
  Py.endswith "," s = false.


(** An enumeration of sets: it returns the elements it is given, in some
    order. *)
Definition enumerates (set_iter : list string -> list string) : Prop :=
  forall l, Permutation (set_iter l) l.

(** The set is enumerated in insertion order. *)
Definition insertion_order (l : list string) : list string := l.

(** The templates a call uses. *)
Definition templates_of (profile : Profile) : list string :=
  V2.get (templates profile) V2.DEFAULT_TEMPLATES.

Definition pools_of (profile : Profile) : Dict (list string) :=
  V2.get (pools profile) V2.DEFAULT_POOLS.

End Spec.

(** ** The shape of comma-separated text *)

(** Scanning predicates used to follow the commas of a string through the
    last three stages. *)
Module Shape.

(** A character that is neither whitespace nor a comma. *)
Definition plain (c : ascii) : bool :=
  negb (Py.isspace c) && negb (Ascii.eqb c ",").

(** Whether the character before the current position is plain; [b] is
    the answer at the start of [s]. *)
Fixpoint state (b : bool) (s : string) : bool :=
  match s with
  | EmptyString => b
  | String c s' => state (plain c) s'
  end.

(** Every comma of [s] comes directly after a plain character. *)
Fixpoint disciplined (b : bool) (s : string) : bool :=
  match s with
  | EmptyString => true
  | String c s' => (if Ascii.eqb c "," then b else true) && disciplined (plain c) s'
  end.

(** The last character of [s] exists and satisfies [p]. *)
Fixpoint last_is (p : ascii -> bool) (s : string) : bool :=
  match s with
  | EmptyString => false
  | String c EmptyString => p c
  | String _ s' => last_is p s'
  end.

Fixpoint no_space (s : string) : bool :=
  match s with
  | EmptyString => true
  | String c s' => negb (Py.isspace c) && no_space s'
  end.

Fixpoint no_comma (s : string) : bool :=
  match s with
  | EmptyString => true
  | String c s' => negb (Ascii.eqb c ",") && no_comma s'
  end.

Definition starts_space (s : string) : bool :=
  match s with
  | EmptyString => true
  | String c _ => Py.isspace c
  end.

(** A word: not empty and free of whitespace. *)
Definition word (w : string) : Prop := w <> EmptyString /\ no_space w = true.

(** A segment: not empty, free of commas, no blank at either end. *)
Definition segment (t : string) : Prop :=
  t <> EmptyString /\ no_comma t = true /\ Py.strip t = t.

End Shape.

(** ** Intermediate values of a call *)

Module Stages.
Import Core Spec.

(** The pool entry addressed by the hash at one coordinate. *)
Definition pick (seed input_hash coord : Z) (pool : list string) : option string :=
  idx <- hash_to_index (enhancement_hash seed input_hash coord) (len pool) ;;
  item pool idx.

(** The fingerprint of a prompt. *)
Definition fingerprint (input_prompt : string) : Z :=
  XXH.xxh32 0 (XXH.encode input_prompt).


Section V2Call.

Variable set_iter : list string -> list string.
Variables (input_prompt : string) (seed : Z) (profile : Profile) (intensity : string).

(** [classified] *)
Definition classified_of : Dict (list string) :=
  classify_all_tokens (tokenize input_prompt)
    (V2.get (classification profile) V2.DEFAULT_CLASSIFICATION).

(** [gaps] after the rules, before the intensity. *)
Definition candidates_of : list string :=
  apply_category_rules (find_gaps set_iter classified_of (pools_of profile))
    (V2.get (rules profile) V2.DEFAULT_RULES) intensity.

(** [gaps], after the rules and the intensity. *)
Definition gaps_of : list string :=
  select_gaps_to_fill seed (fingerprint input_prompt) candidates_of intensity.

(** [forbidden] *)
Definition forbidden_of : list string :=
  build_forbidden_set (existing_tokens_of classified_of)
    (V2.get (anti_pairs profile) V2.DEFAULT_ANTI_PAIRS).

(** [enhancements] *)
Definition enhancements_of : option (Dict string) :=
  V2.select_enhancements set_iter seed (fingerprint input_prompt) (pools_of profile)
    forbidden_of (Py.enumerate (Py.sorted gaps_of)) [].

(** [enhanced] after phase 6, before deduplication. *)
Definition merged_of : option string :=
  enhancements <- enhancements_of ;;
  template <- select_template seed (fingerprint input_prompt) (templates_of profile) ;;
  Some (merge_with_unclassified
          (safe_format_template template (build_components classified_of enhancements))
          (unclassified_of classified_of)).

End V2Call.

End Stages.

(** ** The coordinate layers *)

Module Layers.
Import Core Trace.

(** Where a decision may ask, in a call that scores [candidate_count] gaps
    and fills [gap_count] of them: the template at 0, the primary pick of
    category [c] at [c], the retry [a] of category [c] at [1000 + c + a],
    the score of gap [i] at [2000 + i]. *)
Definition well_placed (candidate_count gap_count : Z) (q : query) : Prop :=
  match fst q with
  | TemplatePick => snd q = 0
  | PrimaryPick c => snd q = c /\ 1 <= c <= gap_count
  | FallbackAttempt c a => snd q = 1000 + c + a /\ 1 <= c <= gap_count /\ 0 <= a < 50
  | GapScore i => snd q = 2000 + i /\ 0 <= i < candidate_count
  end.

(** Retries of two different categories. *)
Definition fallbacks_of_two_categories (d1 d2 : decision) : Prop :=
  exists c1 a1 c2 a2,
    d1 = FallbackAttempt c1 a1 /\ d2 = FallbackAttempt c2 a2 /\
    c1 <> c2 /\ c1 + a1 = c2 + a2.

End Layers.

(** ** Profiles of the examples *)

Module Examples.
Import Core.

(** One pool with a phrase that conflicts with "underwater" and one that
    does not; everything else falls back to the built-in profile. *)
Definition two_lights : Profile :=
  {| templates := Some ["{subject}, {lighting}"];
     pools := Some [("lighting", ["golden hour lighting"; "moonlight"])];
     classification := None;
     rules := None;
     anti_pairs := None |}.

(** Two pools in which every phrase conflicts with "underwater". *)
Definition all_conflicting : Profile :=
  {| templates := Some ["{style}, {lighting}"];
     pools := Some [("lighting", ["golden hour lighting"; "sunset backlight"]);
                    ("style", ["golden hour photography"])];
     classification := None;
     rules := None;
     anti_pairs := None |}.




End Examples.

(** Every character of the string satisfies [p]. *)
Fixpoint all_chars (p : ascii -> bool) (s : string) : bool :=
  match s with
  | EmptyString => true
  | String c s' => p c && all_chars p s'
  end.

(** ** Buckets of the classification *)

Module Buckets.
Import Core.

(** The tokens recorded under [k]. *)
Definition bucket (k : string) (d : Dict (list string)) : list string :=
  match Py.lookup k d with
  | Some b => b
  | None => []
  end.

(** The body of the loop of [classify_all_tokens]. *)
Definition classify_step (classification : Dict ClassRule)
           (classified : Dict (list string)) (token : string) : Dict (list string) :=
  fold_left (fun classified cat => append_token classified cat token)
    (classify_token_multi token classification) classified.

End Buckets.

(** ** Order by a key *)

Module Order.


End Order.

(* ================================================================== *)
(** * Profile management and the node classes *)
(* ================================================================== *)

(** The functions of [DJZ_ZeroENH_V2.py] that load, merge and validate
    profile documents, and the [enhance] methods of the two node classes.
    The profile directory is a value: the names of its JSON files and what
    each file holds. *)
Module Host.
Import Core.

(** ** Documents *)

(** A profile document: the dict that [json.load] returns.  [content]
    holds the keys the engine reads; the other keys this module names are
    the metadata and ["extends"]. *)
Record Document : Type := {
  name : option string;
  description : option string;
  version : option string;
  type : option string;
  extends : option string;
  content : Profile
}.

(** The exceptions the code raises and catches. *)
Inductive exn : Type :=
| FileNotFoundError
| ValueError
| JSONDecodeError.

Inductive outcome (A : Type) : Type :=
| Ok (a : A)
| Raise (e : exn).

Arguments Ok {A} a.
Arguments Raise {A} e.

(** A file of the profile directory: a JSON document, or text that
    [json.load] rejects. *)
Inductive file : Type :=
| Json (doc : Document)
| Malformed.

(** [{**a, **b}], and the loop [for k, v in b.items(): a[k] = v]. *)
Definition dict_update {A : Type} (a b : Dict A) : Dict A :=
  fold_left (fun d kv => Py.dict_set (fst kv) (snd kv) d) b a.

(** [d.get(key, default)] *)
Definition get {A : Type} (value : option A) (default : A) : A :=
  match value with
  | Some v => v
  | None => default
  end.

(** ** Merging and validating *)

Definition merge_profiles (base child : Document) : Document :=
  {| name := Some (get (name child) (get (name base) "Unknown"));
     description := Some (get (description child) (get (description base) ""));
     version := Some (get (version child) (get (version base) "1.0.0"));
     type := Some (get (type child) (get (type base) "enhancement"));
     extends := extends base;
     content :=
       {| (* templates: the child's if it has some, else the base's *)
          templates :=
            match templates (content child) with
            | Some ((_ :: _) as child_templates) => Some child_templates
            | _ => templates (content base)
            end;
          (* pools: a pool of the child replaces the pool of that name *)
          pools :=
            Some (dict_update (get (pools (content base)) [])
                              (get (pools (content child)) []));
          (* classification: merged, the child overriding *)
          classification :=
            Some (dict_update (get (classification (content base)) [])
                              (get (classification (content child)) []));
          (* rules: the child's as a whole if it has any *)
          rules :=
            match rules (content child) with
            | Some child_rules => Some child_rules
            | None => rules (content base)
            end;
          (* anti_pairs: merged, with the child's additions *)
          anti_pairs :=
            Some (dict_update (get (anti_pairs (content base)) [])
                              (get (anti_pairs (content child)) [])) |} |}.

Definition validate_profile (profile : Document) : outcome unit :=
  match templates (content profile) with
  | Some (_ :: _) =>
      match pools (content profile) with
      | Some (_ :: _) => Ok tt
      | _ => Raise ValueError
      end
  | _ => Raise ValueError
  end.

Definition calculate_combinations (profile : Document) : Z :=
  let total := len (get (templates (content profile)) []) in
  fold_left
    (fun total pool =>
       match pool with
       | [] => total
       | _ => total * len pool
       end)
    (map snd (get (pools (content profile)) []))
    total.

(** ** The profile directory *)

(** [l.remove(x)]: the first occurrence goes. *)
Fixpoint remove_first (x : string) (l : list string) : list string :=
  match l with
  | [] => []
  | y :: l' => if String.eqb x y then l' else y :: remove_first x l'
  end.

(** [discover_profiles()], on the listing of the directory: [None] if the
    directory does not exist, else the names of its [*.json] files in the
    order [glob] yields them.  The second component is the listing after
    the call, which creates a missing directory. *)
Definition discover_profiles (listing : option (list string))
  : list string * option (list string) :=
  match listing with
  | None => (["default.json"], Some [])
  | Some names =>
      let profiles := Py.sorted names in
      let profiles :=
        if Py.mem "default.json" profiles
        then "default.json" :: remove_first "default.json" profiles
        else profiles in
      (match profiles with
       | [] => ["default.json"]
       | _ => profiles
       end, listing)
  end.

Definition read_json (store : Dict file) (file_name : string) : outcome Document :=
  match Py.lookup file_name store with
  | None => Raise FileNotFoundError
  | Some Malformed => Raise JSONDecodeError
  | Some (Json doc) => Ok doc
  end.

Definition load_profile (store : Dict file) (profile_name : string) : outcome Document :=
  match read_json store profile_name with
  | Raise e => Raise e
  | Ok profile =>
      let merged :=
        match extends profile with
        | Some base_name =>
            match read_json store base_name with
            | Raise e => Raise e
            | Ok base => Ok (merge_profiles base profile)
            end
        | None => Ok profile
        end in
      match merged with
      | Raise e => Raise e
      | Ok profile =>
          match validate_profile profile with
          | Raise e => Raise e
          | Ok _ => Ok profile
          end
      end
  end.

(** ** The node classes *)

(** [DEFAULT_PROFILE] of the V2 file, as a document. *)
Definition DEFAULT_PROFILE : Document :=
  {| name := Some "Default (Built-in)";
     description := Some "Built-in fallback profile matching V1 vocabulary";
     version := Some "1.0.0";
     type := Some "enhancement";
     extends := None;
     content := V2.DEFAULT_PROFILE |}.

(** The end of both [enhance] methods: prefix and suffix go around the
    enhanced prompt, each with one blank. *)
Definition apply_prefix_suffix (enhanced prefix suffix : string) : string :=
  let enhanced :=
    if nonempty prefix then (prefix ++ " " ++ enhanced)%string else enhanced in
  if nonempty suffix then (enhanced ++ " " ++ suffix)%string else enhanced.

Section Nodes.

Variable set_iter : list string -> list string.

(** [DJZZeroENHV1.enhance] *)
Definition V1_enhance (prompt : string) (seed : Z) (intensity : string)
           (max_words : Z) (prefix suffix : string) : option string :=
  enhanced <- V1.enhance_prompt set_iter prompt seed intensity max_words ;;
  Some (apply_prefix_suffix enhanced prefix suffix).


End Nodes.

(** ** A profile directory *)

(** A profile that extends the built-in one: one pool replaced, one pool
    and one rule of anti-pairing added, no templates of its own. *)
Definition night_profile : Document :=
  {| name := Some "Night";
     description := None;
     version := None;
     type := None;
     extends := Some "default.json";
     content :=
       {| templates := None;
          pools := Some [("lighting", ["moonlight"; "starlight"]);
                         ("weather", ["light rain"])];
          classification := None;
          rules := None;
          anti_pairs := Some [("night", ["golden hour"; "midday sun"])] |} |}.

(** A directory with the built-in profile as "default.json", a profile that
    extends it, and a file that is not JSON. *)
Definition example_store : Dict file :=
  [("default.json", Json DEFAULT_PROFILE);
   ("night.json", Json night_profile);
   ("broken.json", Malformed)].


End Host.

(* ================================================================== *)
(** * Facts about the string primitives *)
(* ================================================================== *)

Module StrFacts.
Import Py Spec.

Local Open Scope string_scope.

Lemma app_nil_r (s : string) : s ++ "" = s.
Proof. induction s as [|c s IH]; simpl; [reflexivity | now rewrite IH]. Qed.

Lemma app_assoc (a b c : string) : (a ++ b) ++ c = a ++ b ++ c.
Proof. induction a as [|x a IH]; simpl; [reflexivity | now rewrite IH]. Qed.

Lemma length_app (a b : string) :
  String.length (a ++ b) = (String.length a + String.length b)%nat.
Proof. induction a as [|x a IH]; simpl; [reflexivity | now rewrite IH]. Qed.

(** Every string is empty or ends with a last character. *)
Lemma snoc_cases (s : string) :
  s = "" \/ exists s' c, s = s' ++ String c "".
Proof.
  induction s as [|x s IH]; [now left | right].
  destruct IH as [-> | (s' & c & ->)].
  - now exists "", x.
  - now exists (String x s'), c.
Qed.

Lemma snoc_ind (P : string -> Prop) :
  P "" -> (forall s c, P s -> P (s ++ String c "")) -> forall s, P s.
Proof.
  intros H0 Hs s.
  remember (String.length s) as n eqn:Hn.
  revert s Hn. induction n as [|n IH]; intros s Hn.
  - destruct s; [exact H0 | discriminate].
  - destruct (snoc_cases s) as [-> | (s' & c & ->)]; [exact H0 |].
    apply Hs, IH. rewrite length_app in Hn. simpl in Hn. lia.
Qed.

Lemma prefix_cons (a b : ascii) (s1 s2 : string) :
  String.prefix (String a s1) (String b s2) = Ascii.eqb a b && String.prefix s1 s2.
Proof.
  cbn [String.prefix]. destruct (ascii_dec a b) as [-> | Hne].
  - now rewrite Ascii.eqb_refl.
  - apply Ascii.eqb_neq in Hne. now rewrite Hne.
Qed.

Lemma prefix_nil (s : string) : String.prefix "" s = true.
Proof. destruct s; reflexivity. Qed.

(** ** Whitespace and stripping *)

Lemma isspace_comma : isspace "," = false.
Proof. reflexivity. Qed.

Lemma rstrip_all_space (s : string) : all_space s = true -> rstrip s = "".
Proof.
  induction s as [|c s IH]; simpl; [reflexivity |].
  intros H. apply andb_true_iff in H as [Hc Hs].
  now rewrite (IH Hs), Hc.
Qed.

Lemma rstrip_empty_all_space (s : string) : rstrip s = "" -> all_space s = true.
Proof.
  induction s as [|c s IH]; simpl; [reflexivity |].
  destruct (rstrip s) eqn:E; [| discriminate].
  destruct (isspace c); [intros _; now rewrite IH | discriminate].
Qed.

Lemma lstrip_all_space (s : string) : all_space s = true -> lstrip s = "".
Proof.
  induction s as [|c s IH]; simpl; [reflexivity |].
  intros H. apply andb_true_iff in H as [Hc Hs]. now rewrite Hc, IH.
Qed.

Lemma lstrip_empty_all_space (s : string) : lstrip s = "" -> all_space s = true.
Proof.
  induction s as [|c s IH]; simpl; [reflexivity |].
  destruct (isspace c); [intros H; now rewrite IH | discriminate].
Qed.


Lemma rstrip_snoc (s : string) (c : ascii) :
  rstrip (s ++ String c "") = if isspace c then rstrip s else s ++ String c "".
Proof.
  induction s as [|x s IH]; simpl.
  - now destruct (isspace c).
  - rewrite IH. destruct (isspace c).
    + reflexivity.
    + destruct (s ++ String c "") eqn:E; [| reflexivity].
      destruct s; discriminate.
Qed.

Lemma rstrip_char_snoc (ch : ascii) (s : string) (c : ascii) :
  rstrip_char ch (s ++ String c "") =
  if Ascii.eqb c ch then rstrip_char ch s else s ++ String c "".
Proof.
  induction s as [|x s IH]; simpl.
  - now destruct (Ascii.eqb c ch).
  - rewrite IH. destruct (Ascii.eqb c ch).
    + reflexivity.
    + destruct (s ++ String c "") eqn:E; [| reflexivity].
      destruct s; discriminate.
Qed.

(** A stripped string is a prefix of the string it comes from. *)
Lemma rstrip_prefix (s : string) : exists t, s = rstrip s ++ t.
Proof.
  induction s as [|c s (t & IH)]; simpl; [now exists "" |].
  destruct (rstrip s) eqn:E.
  - destruct (isspace c).
    + now exists (String c s).
    + exists s. reflexivity.
  - exists t. now rewrite IH at 1.
Qed.


Lemma rstrip_idem (s : string) : rstrip (rstrip s) = rstrip s.
Proof.
  induction s as [|c s IH]; simpl; [reflexivity |].
  destruct (rstrip s) eqn:E.
  - destruct (isspace c) eqn:Hc; simpl; [reflexivity | now rewrite Hc].
  - simpl. simpl in IH. rewrite IH. reflexivity.
Qed.

Lemma rstrip_lstrip (s : string) : rstrip s = s -> rstrip (lstrip s) = lstrip s.
Proof.
  induction s as [|c s IH]; simpl; [reflexivity |].
  intros H. destruct (isspace c) eqn:Hc.
  - apply IH. destruct (rstrip s) eqn:E.
    + discriminate.
    + now injection H.
  - simpl. rewrite Hc. exact H.
Qed.

Lemma lstrip_idem (s : string) : lstrip (lstrip s) = lstrip s.
Proof.
  induction s as [|c s IH]; simpl; [reflexivity |].
  destruct (isspace c) eqn:Hc; [exact IH | simpl; now rewrite Hc].
Qed.

Lemma strip_idem (s : string) : strip (strip s) = strip s.
Proof.
  unfold strip. rewrite rstrip_lstrip by apply rstrip_idem. apply lstrip_idem.
Qed.

(** Stripping a string that starts with a blank strips the rest. *)
Lemma strip_space_cons (c : ascii) (s : string) :
  isspace c = true -> strip (String c s) = strip s.
Proof.
  intros Hc. unfold strip. simpl.
  destruct (rstrip s) eqn:E; simpl; rewrite Hc; reflexivity.
Qed.

End StrFacts.

(* ================================================================== *)
(** * Words, segments and commas *)
(* ================================================================== *)

Module ShapeFacts.
Import Py Spec Shape StrFacts.

Local Open Scope string_scope.

(** ** Splitting into words *)

Lemma split_step (c : ascii) (s : string) :
  split (String c s) =
  if isspace c then split s
  else match s with
       | "" => [String c ""]
       | String d _ =>
           if isspace d then String c "" :: split s
           else match split s with
                | w :: ws => String c w :: ws
                | [] => [String c ""]
                end
       end.
Proof. reflexivity. Qed.

Lemma split_nonspace_cons (c : ascii) (s : string) :
  isspace c = false -> split (String c s) <> [].
Proof.
  intros Hc. simpl. rewrite Hc. destruct s as [|d s]; [discriminate |].
  destruct (isspace d); [discriminate |]. destruct (split (String d s)); discriminate.
Qed.

Lemma split_words (s : string) : Forall word (split s).
Proof.
  induction s as [|c s IH]; [constructor |].
  cbn [split]. destruct (isspace c) eqn:Hc; [exact IH |].
  assert (Hw : word (String c "")).
  { split; [discriminate | simpl; now rewrite Hc]. }
  destruct s as [|d s]; [now constructor |].
  destruct (isspace d) eqn:Hd; [now constructor |].
  destruct (split (String d s)) as [|w ws]; [now constructor |].
  inversion IH as [|? ? [Hne Hns] Hws]; subst. constructor; [| exact Hws].
  split; [discriminate | simpl; now rewrite Hc, Hns].
Qed.



Lemma join_cons2 (sep w w' : string) (ws : list string) :
  join sep (w :: w' :: ws) = w ++ sep ++ join sep (w' :: ws).
Proof. reflexivity. Qed.




(** ** The scanning predicates *)

Lemma state_app (b : bool) (s t : string) : state b (s ++ t) = state (state b s) t.
Proof. revert b. induction s as [|c s IH]; intros b; simpl; [reflexivity | apply IH]. Qed.

Lemma disciplined_app (b : bool) (s t : string) :
  disciplined b (s ++ t) = disciplined b s && disciplined (state b s) t.
Proof.
  revert b. induction s as [|c s IH]; intros b; simpl; [reflexivity |].
  now rewrite IH, andb_assoc.
Qed.

Lemma disciplined_mono (b : bool) (s : string) :
  disciplined false s = true -> disciplined b s = true.
Proof.
  destruct s as [|c s]; simpl; [reflexivity |].
  destruct (Ascii.eqb c ","); simpl; [discriminate | auto].
Qed.

Lemma state_nonempty (b b' : bool) (s : string) : s <> "" -> state b s = state b' s.
Proof. destruct s; [contradiction | reflexivity]. Qed.

Lemma last_is_snoc (p : ascii -> bool) (s : string) (c : ascii) :
  last_is p (s ++ String c "") = p c.
Proof.
  induction s as [|x s IH]; [reflexivity |].
  change (String x s ++ String c "") with (String x (s ++ String c "")).
  cbn [last_is]. destruct (s ++ String c "") eqn:E; [destruct s; discriminate | exact IH].
Qed.

Lemma state_snoc (b : bool) (s : string) (c : ascii) :
  state b (s ++ String c "") = plain c.
Proof. now rewrite state_app. Qed.

Lemma state_last_is (s : string) : state false s = last_is plain s.
Proof.
  induction s as [|s c _] using snoc_ind; [reflexivity |].
  now rewrite state_snoc, last_is_snoc.
Qed.

Lemma no_comma_disciplined (b : bool) (s : string) :
  no_comma s = true -> disciplined b s = true.
Proof.
  revert b. induction s as [|c s IH]; intros b; simpl; [reflexivity |].
  intros H. apply andb_true_iff in H as [Hc Hs]. apply negb_true_iff in Hc.
  rewrite Hc. simpl. now apply IH.
Qed.

Lemma no_comma_app (s t : string) : no_comma (s ++ t) = no_comma s && no_comma t.
Proof. induction s as [|c s IH]; simpl; [reflexivity | now rewrite IH, andb_assoc]. Qed.

Lemma no_space_app (s t : string) : no_space (s ++ t) = no_space s && no_space t.
Proof. induction s as [|c s IH]; simpl; [reflexivity | now rewrite IH, andb_assoc]. Qed.

(** ** Commas and the three formatting conditions *)

Lemma endswith_char_snoc (x : ascii) (s : string) (c : ascii) :
  endswith (String x "") (s ++ String c "") = Ascii.eqb x c.
Proof.
  induction s as [|a s IH].
  - simpl. destruct (Ascii.eqb x c); reflexivity.
  - change (String a s ++ String c "") with (String a (s ++ String c "")).
    cbn [endswith]. rewrite IH.
    replace (String x "" =? String a (s ++ String c "")) with false; [reflexivity |].
    symmetry. apply String.eqb_neq. intros H. injection H as _ H.
    destruct s; discriminate.
Qed.

Lemma disciplined_no_double (b : bool) (s : string) :
  disciplined b s = true -> contains ",," s = false.
Proof.
  revert b. induction s as [|c s IH]; intros b H; [reflexivity |].
  cbn [contains]. simpl in H. apply andb_true_iff in H as [H1 H2].
  rewrite (IH _ H2), orb_false_r.
  unfold startswith. rewrite prefix_cons.
  destruct (Ascii.eqb "," c) eqn:Ec; [| reflexivity].
  destruct s as [|d s]; [reflexivity |].
  rewrite prefix_cons, prefix_nil, andb_true_r, andb_true_l.
  destruct (Ascii.eqb "," d) eqn:Ed; [| reflexivity].
  apply Ascii.eqb_eq in Ec, Ed. subst. simpl in H2. discriminate.
Qed.

Lemma disciplined_no_leading (s : string) :
  disciplined false s = true -> startswith "," s = false.
Proof.
  destruct s as [|c s]; [reflexivity |]. unfold startswith.
  rewrite prefix_cons, prefix_nil, andb_true_r. cbn [disciplined].
  rewrite (Ascii.eqb_sym c). now destruct (Ascii.eqb "," c).
Qed.

(** A disciplined string whose last character is no comma is well
    formatted. *)
Lemma well_formatted_intro (s : string) :
  disciplined false s = true -> last_is (Ascii.eqb ",") s = false -> well_formatted s.
Proof.
  intros Hd Hl. repeat split.
  - now apply disciplined_no_double with (b := false).
  - now apply disciplined_no_leading.
  - destruct (snoc_cases s) as [-> | (s' & c & ->)]; [reflexivity |].
    rewrite endswith_char_snoc. now rewrite last_is_snoc in Hl.
Qed.

Lemma plain_not_comma (c : ascii) : plain c = true -> Ascii.eqb "," c = false.
Proof.
  unfold plain. intros H. apply andb_true_iff in H as [_ H].
  apply negb_true_iff in H. now rewrite Ascii.eqb_sym.
Qed.

Lemma plain_not_space (c : ascii) : plain c = true -> isspace c = false.
Proof.
  unfold plain. intros H. apply andb_true_iff in H as [H _]. now apply negb_true_iff.
Qed.

(** The clean-up at the end of [enforce_length_limit] leaves a well
    formatted string. *)
Lemma rstrip_comma_well_formatted (s : string) :
  disciplined false s = true ->
  last_is isspace s = false ->
  well_formatted (rstrip (rstrip_char "," s)).
Proof.
  intros Hd Hl.
  destruct (snoc_cases s) as [-> | (s' & c & ->)].
  - simpl. now apply well_formatted_intro.
  - rewrite last_is_snoc in Hl. rewrite rstrip_char_snoc.
    rewrite disciplined_app in Hd. apply andb_true_iff in Hd as [Hd' Hc].
    cbn [disciplined] in Hc. rewrite andb_true_r in Hc.
    destruct (Ascii.eqb c ",") eqn:Ec.
    + rewrite state_last_is in Hc.
      destruct (snoc_cases s') as [-> | (s'' & d & ->)]; [discriminate |].
      rewrite last_is_snoc in Hc.
      rewrite rstrip_char_snoc.
      pose proof (plain_not_comma _ Hc) as Hdc. rewrite Ascii.eqb_sym in Hdc. rewrite Hdc.
      rewrite rstrip_snoc, (plain_not_space _ Hc).
      apply well_formatted_intro; [exact Hd' |].
      rewrite last_is_snoc. now apply plain_not_comma.
    + rewrite rstrip_snoc, Hl.
      apply well_formatted_intro.
      * rewrite disciplined_app, Hd'. cbn [disciplined andb]. now rewrite Ec.
      * rewrite last_is_snoc. now rewrite Ascii.eqb_sym.
Qed.

End ShapeFacts.

(* ================================================================== *)
(** * The shape of the last three stages *)
(* ================================================================== *)

Module StageFacts.
Import Py Spec Shape StrFacts ShapeFacts Core.

Local Open Scope string_scope.

(** ** Segments *)

Lemma split_on_no_comma (s : string) : Forall (fun p => no_comma p = true) (split_on "," s).
Proof.
  induction s as [|c s IH]; [repeat constructor |].
  cbn [split_on]. destruct (Ascii.eqb c ",") eqn:Ec; [now constructor |].
  destruct (split_on "," s) as [|w ws]; [repeat constructor; cbn [no_comma]; now rewrite Ec |].
  inversion IH; subst. constructor; [| assumption].
  cbn [no_comma]. rewrite Ec. assumption.
Qed.

Lemma lstrip_no_comma (s : string) : no_comma s = true -> no_comma (lstrip s) = true.
Proof.
  induction s as [|c s IH]; [reflexivity |]. cbn [no_comma lstrip]. intros H.
  destruct (isspace c); [| exact H].
  apply andb_true_iff in H as [_ H]. now apply IH.
Qed.

Lemma rstrip_no_comma (s : string) : no_comma s = true -> no_comma (rstrip s) = true.
Proof.
  intros H. destruct (rstrip_prefix s) as (t & Ht). rewrite Ht, no_comma_app in H.
  now apply andb_true_iff in H as [H _].
Qed.

Lemma strip_no_comma (s : string) : no_comma s = true -> no_comma (strip s) = true.
Proof. intros H. unfold strip. now apply lstrip_no_comma, rstrip_no_comma. Qed.

Lemma nonempty_true (s : string) : nonempty s = true <-> s <> "".
Proof.
  unfold nonempty. rewrite negb_true_iff. apply String.eqb_neq.
Qed.

(** A stripped, non-empty piece of a comma-free string is a segment. *)
Lemma segment_strip (p : string) :
  no_comma p = true -> nonempty (strip p) = true -> segment (strip p).
Proof.
  intros Hp Hne. repeat split.
  - now apply nonempty_true.
  - now apply strip_no_comma.
  - apply strip_idem.
Qed.

Lemma segments_are_segments (prompt : string) : Forall segment (segments prompt).
Proof.
  unfold segments. apply Forall_forall. intros t Ht.
  apply filter_In in Ht as [Ht Hne]. apply in_map_iff in Ht as (p & <- & Hp).
  apply segment_strip; [| exact Hne].
  pose proof (split_on_no_comma prompt) as H. rewrite Forall_forall in H. now apply H.
Qed.

Lemma last_is_rstrip (s : string) :
  rstrip s <> "" -> last_is isspace (rstrip s) = false.
Proof.
  induction s as [|s c IH] using snoc_ind; [intros H; contradiction |].
  rewrite rstrip_snoc. destruct (isspace c) eqn:Hc; [exact IH |].
  intros _. now rewrite last_is_snoc.
Qed.

Lemma last_is_cons (p : ascii -> bool) (c : ascii) (s : string) :
  s <> "" -> last_is p (String c s) = last_is p s.
Proof. destruct s; [contradiction | reflexivity]. Qed.

Lemma last_is_lstrip (p : ascii -> bool) (s : string) :
  lstrip s <> "" -> last_is p (lstrip s) = last_is p s.
Proof.
  induction s as [|c s IH]; [reflexivity |]. cbn [lstrip].
  destruct (isspace c); [| reflexivity].
  intros H. rewrite (IH H). symmetry. apply last_is_cons.
  intros ->. now apply H.
Qed.

Lemma last_is_app (p : ascii -> bool) (s t : string) :
  t <> "" -> last_is p (s ++ t) = last_is p t.
Proof.
  intros Ht. induction s as [|c s IH]; [reflexivity |].
  change (String c s ++ t) with (String c (s ++ t)).
  rewrite last_is_cons; [exact IH |]. destruct s; [exact Ht | discriminate].
Qed.

Lemma no_comma_last (s : string) : no_comma s = true -> last_is (Ascii.eqb ",") s = false.
Proof.
  destruct (snoc_cases s) as [-> | (s' & c & ->)]; [reflexivity |].
  rewrite no_comma_app, last_is_snoc. intros H. apply andb_true_iff in H as [_ H].
  cbn [no_comma] in H. rewrite andb_true_r in H. apply negb_true_iff in H.
  now rewrite Ascii.eqb_sym.
Qed.

Lemma no_space_last (s : string) : no_space s = true -> last_is isspace s = false.
Proof.
  destruct (snoc_cases s) as [-> | (s' & c & ->)]; [reflexivity |].
  rewrite no_space_app, last_is_snoc. intros H. apply andb_true_iff in H as [_ H].
  cbn [no_space] in H. rewrite andb_true_r in H. now apply negb_true_iff in H.
Qed.

Lemma last_plain (s : string) :
  last_is isspace s = false -> last_is (Ascii.eqb ",") s = false -> s <> "" ->
  last_is plain s = true.
Proof.
  destruct (snoc_cases s) as [-> | (s' & c & ->)]; [intros _ _ H; contradiction |].
  rewrite !last_is_snoc. intros H1 H2 _. unfold plain.
  rewrite H1, (Ascii.eqb_sym c), H2. reflexivity.
Qed.

Lemma plain_last (s : string) :
  last_is plain s = true ->
  last_is isspace s = false /\ last_is (Ascii.eqb ",") s = false.
Proof.
  destruct (snoc_cases s) as [-> | (s' & c & ->)]; [discriminate |].
  rewrite !last_is_snoc. intros H. split.
  - now apply plain_not_space.
  - now apply plain_not_comma.
Qed.

Lemma segment_last_plain (t : string) : segment t -> last_is plain t = true.
Proof.
  intros (Hne & Hnc & Hs). apply last_plain; [| now apply no_comma_last | exact Hne].
  rewrite <- Hs. unfold strip. unfold strip in Hs.
  assert (Hl : lstrip (rstrip t) <> "") by now rewrite Hs.
  rewrite last_is_lstrip by exact Hl. apply last_is_rstrip.
  intros E. rewrite E in Hl. now apply Hl.
Qed.

Lemma join_nonempty (sep w : string) (ws : list string) :
  w <> "" -> join sep (w :: ws) <> "".
Proof.
  intros Hw. destruct ws as [|w' ws]; [exact Hw |].
  rewrite join_cons2. destruct w; [contradiction | discriminate].
Qed.

(** Segments joined by [", "]: every comma follows a plain character, and
    the last character is plain. *)
Lemma join_segments (toks : list string) (b : bool) :
  Forall segment toks ->
  disciplined b (join ", " toks) = true /\
  (toks <> [] -> state b (join ", " toks) = true).
Proof.
  intros H. revert b. induction H as [|t toks Ht Htoks IH]; intros b.
  - split; [reflexivity | intros E; contradiction].
  - pose proof (segment_last_plain t Ht) as Hlast.
    destruct Ht as (Hne & Hnc & _).
    assert (Hst : forall b0, state b0 t = true).
    { intros b0. rewrite state_nonempty with (b' := false) by exact Hne.
      now rewrite state_last_is. }
    destruct toks as [|t' toks].
    + split; [now apply no_comma_disciplined | intros _; apply Hst].
    + rewrite join_cons2.
      change (t ++ ", " ++ join ", " (t' :: toks))
        with (t ++ String "," (String " " (join ", " (t' :: toks)))).
      destruct (IH false) as [IH1 IH2]. split.
      * rewrite disciplined_app, (no_comma_disciplined b t Hnc), Hst.
        cbn [disciplined andb]. exact IH1.
      * intros _. rewrite state_app. cbn [state]. apply IH2. discriminate.
Qed.

(** ** The output of the deduplication *)

Section Dedup.

Variable set_iter : list string -> list string.

Lemma dedup_fold_subset (l : list string) (seen fin : list string) (t : string) :
  In t (snd (fold_left (dedup_step set_iter) l (seen, fin))) -> In t fin \/ In t l.
Proof.
  revert seen fin. induction l as [|x l IH]; intros seen fin; cbn [fold_left].
  - auto.
  - unfold dedup_step at 2. destruct (is_duplicate set_iter seen (stem_of x)).
    + intros H. destruct (IH _ _ H); [now left | right; now right].
    + intros H. destruct (IH _ _ H) as [H' | H']; [| right; now right].
      apply in_app_or in H' as [H' | [<- | []]]; [now left | right; now left].
Qed.

Lemma final_tokens_subset (prompt t : string) :
  In t (final_tokens set_iter prompt) -> In t (segments prompt).
Proof.
  unfold final_tokens. intros H.
  destruct (dedup_fold_subset _ _ _ _ H) as [[] | H']; exact H'.
Qed.

Lemma final_tokens_segments (prompt : string) :
  Forall segment (final_tokens set_iter prompt).
Proof.
  apply Forall_forall. intros t Ht. apply final_tokens_subset in Ht.
  pose proof (segments_are_segments prompt) as H. rewrite Forall_forall in H. now apply H.
Qed.

Lemma dedup_disciplined (prompt : string) :
  disciplined false (deduplicate_prompt set_iter prompt) = true.
Proof.
  unfold deduplicate_prompt.
  now destruct (join_segments _ false (final_tokens_segments prompt)).
Qed.

Lemma dedup_well_formatted (prompt : string) :
  well_formatted (deduplicate_prompt set_iter prompt).
Proof.
  apply well_formatted_intro; [apply dedup_disciplined |].
  unfold deduplicate_prompt.
  destruct (final_tokens set_iter prompt) as [|t toks] eqn:E; [reflexivity |].
  pose proof (final_tokens_segments prompt) as H. rewrite E in H.
  destruct (join_segments _ false H) as [_ Hs].
  specialize (Hs ltac:(discriminate)). rewrite state_last_is in Hs.
  now apply plain_last in Hs.
Qed.

End Dedup.

(** ** Words of a disciplined string *)

Lemma split_disciplined (s : string) (b : bool) :
  disciplined b s = true ->
  match split s with
  | [] => True
  | w :: ws =>
      disciplined (if starts_space s then false else b) w = true /\
      Forall (fun w => disciplined false w = true) ws
  end.
Proof.
  revert b. induction s as [|c s IH]; intros b H; [exact I |].
  cbn [disciplined] in H. apply andb_true_iff in H as [Hc Hs].
  specialize (IH _ Hs). rewrite split_step. cbn [starts_space].
  destruct (isspace c) eqn:Ec.
  - assert (Hp : plain c = false) by (unfold plain; now rewrite Ec).
    rewrite Hp in IH. destruct (split s) as [|w ws]; [exact I |].
    destruct (starts_space s); exact IH.
  - assert (H1 : disciplined b (String c "") = true).
    { cbn [disciplined]. now rewrite Hc. }
    destruct s as [|d s]; [split; [exact H1 | constructor] |].
    cbn [starts_space] in IH.
    destruct (isspace d) eqn:Ed.
    + split; [exact H1 |]. destruct (split (String d s)) as [|w ws]; [constructor |].
      destruct IH as [IHw IHws]. now constructor.
    + destruct (split (String d s)) as [|w ws]; [split; [exact H1 | constructor] |].
      destruct IH as [IHw IHws]. split; [| exact IHws].
      cbn [disciplined]. now rewrite Hc, IHw.
Qed.

Lemma split_disciplined_all (s : string) :
  disciplined false s = true ->
  Forall (fun w => word w /\ disciplined false w = true) (split s).
Proof.
  intros H. pose proof (split_disciplined s false H) as Hd.
  pose proof (split_words s) as Hw.
  destruct (split s) as [|w ws]; [constructor |].
  destruct Hd as [Hd1 Hd2]. inversion Hw; subst.
  constructor.
  - split; [assumption |]. now destruct (starts_space s).
  - rewrite Forall_forall in *. intros x Hx. split; auto.
Qed.

(** Disciplined words joined by single blanks. *)
Lemma join_words (ws : list string) :
  Forall (fun w => word w /\ disciplined false w = true) ws ->
  disciplined false (join " " ws) = true /\ last_is isspace (join " " ws) = false.
Proof.
  induction 1 as [|w ws [[Hne Hns] Hd] Hws [IH1 IH2]]; [split; reflexivity |].
  destruct ws as [|w' ws].
  - split; [exact Hd | now apply no_space_last].
  - rewrite join_cons2.
    change (w ++ " " ++ join " " (w' :: ws)) with (w ++ String " " (join " " (w' :: ws))).
    split.
    + rewrite disciplined_app, Hd. cbn [disciplined andb]. exact IH1.
    + rewrite last_is_app by discriminate.
      rewrite last_is_cons; [exact IH2 |].
      inversion Hws as [|? ? [[Hne' _] _] _]; subst. now apply join_nonempty.
Qed.

Lemma Forall_firstn {A : Type} (P : A -> Prop) (n : nat) (l : list A) :
  Forall P l -> Forall P (firstn n l).
Proof.
  intros H. rewrite <- (firstn_skipn n l) in H. now apply Forall_app in H as [H _].
Qed.

Lemma Forall_slice_to {A : Type} (P : A -> Prop) (k : Z) (l : list A) :
  Forall P l -> Forall P (slice_to k l).
Proof. intros H. unfold slice_to. destruct (0 <=? k)%Z; now apply Forall_firstn. Qed.

(** The length limit keeps a disciplined, comma-terminated-free string
    well formatted. *)
Lemma enforce_well_formatted (s : string) (max_words : Z) :
  disciplined false s = true -> well_formatted s ->
  well_formatted (enforce_length_limit s max_words).
Proof.
  intros Hd Hw. unfold enforce_length_limit.
  destruct (len (split s) <=? max_words)%Z; [exact Hw |].
  pose proof (Forall_slice_to _ max_words _ (split_disciplined_all s Hd)) as H.
  destruct (join_words _ H) as [H1 H2].
  now apply rstrip_comma_well_formatted.
Qed.

(** ** The word count after the length limit *)



End StageFacts.

(* ================================================================== *)
(** * Facts about the stages *)
(* ================================================================== *)

Module EngineFacts.
Import Py Spec Shape StrFacts ShapeFacts StageFacts Core Stages.

(** ** Indexing by a hash *)

Lemma len_nonzero {A : Type} (l : list A) : l <> [] -> 0 < len l.
Proof. destruct l; [contradiction | intros _; unfold len; simpl; lia]. Qed.

Lemma item_In {A : Type} (l : list A) (i : Z) (x : A) : item l i = Some x -> In x l.
Proof. unfold item. apply nth_error_In. Qed.

Lemma hash_to_index_Some (h : Z) {A : Type} (l : list A) :
  l <> [] -> hash_to_index h (len l) = Some (h mod len l).
Proof.
  intros Hl. unfold hash_to_index. pose proof (len_nonzero l Hl).
  destruct (len l =? 0) eqn:E; [lia | reflexivity].
Qed.

Lemma item_mod {A : Type} (h : Z) (l : list A) :
  l <> [] -> exists x, item l (h mod len l) = Some x.
Proof.
  intros Hl. pose proof (len_nonzero l Hl) as Hpos.
  pose proof (Z.mod_pos_bound h (len l) Hpos) as Hb.
  unfold item. destruct (nth_error l (Z.to_nat (h mod len l))) eqn:E; [eauto |].
  apply nth_error_None in E. unfold len in *. lia.
Qed.

(** On a pool that is not empty, a pick returns one of its entries. *)
Lemma pick_total (seed input_hash coord : Z) (pool : list string) :
  pool <> [] -> exists x, pick seed input_hash coord pool = Some x /\ In x pool.
Proof.
  intros Hp. unfold pick. rewrite hash_to_index_Some by exact Hp.
  destruct (item_mod (enhancement_hash seed input_hash coord) pool Hp) as (x & Hx).
  exists x. split; [exact Hx | now apply item_In in Hx].
Qed.

Lemma select_template_pick (seed input_hash : Z) (templates : list string) :
  select_template seed input_hash templates = pick seed input_hash 0 templates.
Proof. reflexivity. Qed.

(** ** The anti-pair selector *)

Section Selector.

Variable set_iter : list string -> list string.

Lemma resolve_conflict_step (n : nat) (seed input_hash conflict_coord attempts : Z)
      (pool forbidden : list string) (selection : string) :
  resolve_conflict set_iter (S n) seed input_hash conflict_coord attempts pool forbidden selection =
  match pick seed input_hash (conflict_coord + attempts) pool with
  | Some alt_selection =>
      if negb (conflicts set_iter forbidden alt_selection) then Some alt_selection
      else resolve_conflict set_iter n seed input_hash conflict_coord (attempts + 1)
             pool forbidden selection
  | None => None
  end.
Proof.
  cbn [resolve_conflict]. unfold pick.
  destruct (hash_to_index _ _); reflexivity.
Qed.

(** The retry loop returns an entry of the pool or the primary selection;
    what it returns conflicts only if every alternate it looked at does,
    and then it is the primary selection. *)
Lemma resolve_conflict_spec (n : nat) (seed input_hash conflict_coord attempts : Z)
      (pool forbidden : list string) (selection : string) :
  pool <> [] ->
  exists sel,
    resolve_conflict set_iter n seed input_hash conflict_coord attempts pool forbidden selection
      = Some sel /\
    (sel = selection \/ In sel pool) /\
    (conflicts set_iter forbidden sel = true ->
     sel = selection /\
     forall a, attempts <= a < attempts + Z.of_nat n ->
       exists alt, pick seed input_hash (conflict_coord + a) pool = Some alt /\
                   conflicts set_iter forbidden alt = true).
Proof.
  intros Hp. revert attempts. induction n as [|n IH]; intros attempts.
  - exists selection. split; [reflexivity |]. split; [now left |].
    intros _. split; [reflexivity | intros a Ha; lia].
  - rewrite resolve_conflict_step.
    destruct (pick_total seed input_hash (conflict_coord + attempts) pool Hp) as (alt & Halt & Hin).
    rewrite Halt. destruct (conflicts set_iter forbidden alt) eqn:Ec; cbn [negb].
    + destruct (IH (attempts + 1)) as (sel & Hsel & Hor & Hc).
      exists sel. split; [exact Hsel |]. split; [exact Hor |].
      intros Hs. destruct (Hc Hs) as [Heq Hall]. split; [exact Heq |].
      intros a Ha. destruct (Z.eq_dec a attempts) as [-> | Hne].
      * exists alt. now split.
      * apply Hall. lia.
    + exists alt. split; [reflexivity |]. split; [now right |].
      intros Hs. rewrite Hs in Ec. discriminate.
Qed.

Lemma select_with_antipair_check_unfold (seed input_hash category_idx : Z)
      (pool forbidden : list string) :
  select_with_antipair_check set_iter seed input_hash category_idx pool forbidden =
  match pick seed input_hash category_idx pool with
  | Some selection =>
      if conflicts set_iter forbidden selection
      then resolve_conflict set_iter (Z.to_nat (Z.min (len pool) 50)) seed input_hash
             (category_idx + 1000) 0 pool forbidden selection
      else Some selection
  | None => None
  end.
Proof.
  unfold select_with_antipair_check, pick. destruct (hash_to_index _ _); reflexivity.
Qed.

Lemma select_with_antipair_check_spec (seed input_hash category_idx : Z)
      (pool forbidden : list string) :
  pool <> [] ->
  exists sel primary,
    select_with_antipair_check set_iter seed input_hash category_idx pool forbidden = Some sel /\
    pick seed input_hash category_idx pool = Some primary /\
    In sel pool /\
    (conflicts set_iter forbidden sel = true ->
     sel = primary /\
     forall attempt, 0 <= attempt < Z.min (len pool) 50 ->
       exists alt, pick seed input_hash (category_idx + 1000 + attempt) pool = Some alt /\
                   conflicts set_iter forbidden alt = true).
Proof.
  intros Hp. rewrite select_with_antipair_check_unfold.
  destruct (pick_total seed input_hash category_idx pool Hp) as (primary & Hprim & Hin).
  rewrite Hprim. destruct (conflicts set_iter forbidden primary) eqn:Ec.
  - destruct (resolve_conflict_spec (Z.to_nat (Z.min (len pool) 50)) seed input_hash
                (category_idx + 1000) 0 pool forbidden primary Hp)
      as (sel & Hsel & Hor & Hc).
    exists sel, primary. split; [exact Hsel |]. split; [reflexivity |].
    split; [destruct Hor as [-> | H]; assumption |].
    intros Hs. destruct (Hc Hs) as [Heq Hall]. split; [exact Heq |].
    intros attempt Ha. apply Hall. pose proof (len_nonzero pool Hp). lia.
  - exists primary, primary. split; [reflexivity |]. split; [reflexivity |].
    split; [exact Hin |]. intros Hs. rewrite Hs in Ec. discriminate.
Qed.

(** ** The V2 call *)

Lemma V2_select_enhancements_total (seed input_hash : Z) (pools : Dict (list string))
      (forbidden : list string) (gaps : list (Z * string)) (enhancements : Dict string) :
  exists result,
    V2.select_enhancements set_iter seed input_hash pools forbidden gaps enhancements
      = Some result.
Proof.
  revert enhancements. induction gaps as [|[i gap] gaps IH]; intros enhancements.
  - now exists enhancements.
  - cbn [V2.select_enhancements].
    destruct (lookup gap pools) as [[|p pool]|]; [apply IH | | apply IH].
    destruct (select_with_antipair_check_spec seed input_hash (i + 1) (p :: pool) forbidden
                ltac:(discriminate)) as (sel & _ & -> & _).
    apply IH.
Qed.

Lemma V2_enhance_prompt_unfold (input_prompt : string) (seed : Z) (profile : Profile)
      (intensity : string) (max_words : Z) :
  V2.enhance_prompt set_iter input_prompt seed profile intensity max_words =
  if is_blank input_prompt then Some input_prompt
  else
    match merged_of set_iter input_prompt seed profile intensity with
    | Some merged =>
        Some (enforce_length_limit (deduplicate_prompt set_iter merged) max_words)
    | None => None
    end.
Proof.
  unfold V2.enhance_prompt, merged_of, enhancements_of, forbidden_of, gaps_of,
    candidates_of, classified_of, fingerprint, templates_of, pools_of.
  destruct (is_blank input_prompt); [reflexivity |].
  destruct (V2.select_enhancements _ _ _ _ _ _ _); [| reflexivity].
  destruct (select_template _ _ _); reflexivity.
Qed.

(** With a template to choose from, the call returns. *)
Lemma V2_merged_total (input_prompt : string) (seed : Z) (profile : Profile)
      (intensity : string) :
  templates_of profile <> [] ->
  exists merged, merged_of set_iter input_prompt seed profile intensity = Some merged.
Proof.
  intros Ht. unfold merged_of, enhancements_of.
  destruct (V2_select_enhancements_total seed (fingerprint input_prompt) (pools_of profile)
              (forbidden_of input_prompt profile)
              (enumerate (sorted (gaps_of set_iter input_prompt seed profile intensity))) [])
    as (enh & ->).
  rewrite select_template_pick.
  destruct (pick_total seed (fingerprint input_prompt) 0 (templates_of profile) Ht)
    as (template & -> & _).
  eauto.
Qed.

Lemma V2_total (input_prompt : string) (seed : Z) (profile : Profile)
      (intensity : string) (max_words : Z) :
  templates_of profile <> [] ->
  exists out, V2.enhance_prompt set_iter input_prompt seed profile intensity max_words = Some out.
Proof.
  intros Ht. rewrite V2_enhance_prompt_unfold.
  destruct (is_blank input_prompt); [eauto |].
  destruct (V2_merged_total input_prompt seed profile intensity Ht) as (m & ->). eauto.
Qed.

End Selector.

(** ** Blank prompts *)


Lemma is_blank_inv (s : string) : is_blank s = true -> all_space s = true.
Proof.
  unfold is_blank, nonempty. rewrite !negb_involutive. intros H.
  apply orb_true_iff in H as [H | H]; apply String.eqb_eq in H.
  - now subst.
  - unfold strip in H. apply rstrip_empty_all_space.
    destruct (rstrip s) eqn:E; [reflexivity |].
    apply lstrip_empty_all_space in H. rewrite <- E in H.
    destruct (rstrip_prefix s) as (t & Ht).
    assert (Hr : rstrip (rstrip s) = "") by now apply rstrip_all_space.
    rewrite rstrip_idem in Hr. rewrite Hr in E. discriminate.
Qed.

Lemma all_space_no_comma (s : string) : all_space s = true -> no_comma s = true.
Proof.
  induction s as [|c s IH]; [reflexivity |]. cbn [all_space no_comma].
  intros H. apply andb_true_iff in H as [Hc Hs]. rewrite (IH Hs), andb_true_r.
  apply negb_true_iff. destruct (Ascii.eqb c ",") eqn:E; [| reflexivity].
  apply Ascii.eqb_eq in E. subst. discriminate.
Qed.

Lemma no_comma_well_formatted (s : string) : no_comma s = true -> well_formatted s.
Proof.
  intros H. apply well_formatted_intro.
  - now apply no_comma_disciplined.
  - now apply no_comma_last.
Qed.

End EngineFacts.

(* ================================================================== *)
(** * Sorting *)
(* ================================================================== *)

Module SortFacts.
Import Py.

(** ** Sorting by an integer key *)

Section ByKey.

Context {A : Type} (key : A -> Z).

Lemma insert_by_key_perm (x : A) (l : list A) :
  Permutation (insert_by_key key x l) (x :: l).
Proof.
  induction l as [|y l IH]; cbn [insert_by_key]; [reflexivity |].
  destruct (key x <=? key y); [reflexivity |].
  rewrite IH. apply perm_swap.
Qed.

Lemma sort_by_key_perm (l : list A) : Permutation (sort_by_key key l) l.
Proof.
  induction l as [|x l IH]; [reflexivity |].
  cbn [sort_by_key fold_right]. fold (sort_by_key key l).
  rewrite insert_by_key_perm. now constructor.
Qed.




End ByKey.



(** ** Sorting strings *)

Lemma ascii_compare_refl (a : ascii) : Ascii.compare a a = Eq.
Proof. unfold Ascii.compare. apply N.compare_refl. Qed.

Lemma leb_trans (a b c : string) :
  String.leb a b = true -> String.leb b c = true -> String.leb a c = true.
Proof.
  unfold String.leb. revert b c.
  induction a as [|x a IH]; intros [|y b] [|z c]; cbn [String.compare]; try easy.
  unfold Ascii.compare.
  destruct (N.compare_spec (N_of_ascii x) (N_of_ascii y)) as [Hxy | Hxy | Hxy];
    destruct (N.compare_spec (N_of_ascii y) (N_of_ascii z)) as [Hyz | Hyz | Hyz];
    destruct (N.compare_spec (N_of_ascii x) (N_of_ascii z)) as [Hxz | Hxz | Hxz];
    try lia; try easy.
  apply IH.
Qed.

Lemma insert_sorted_perm (x : string) (l : list string) :
  Permutation (insert_sorted x l) (x :: l).
Proof.
  induction l as [|y l IH]; cbn [insert_sorted]; [reflexivity |].
  destruct (String.leb x y); [reflexivity |].
  rewrite IH. apply perm_swap.
Qed.

Lemma sorted_perm (l : list string) : Permutation (sorted l) l.
Proof.
  induction l as [|x l IH]; [reflexivity |].
  cbn [sorted fold_right]. fold (sorted l).
  rewrite insert_sorted_perm. now constructor.
Qed.

Lemma sorted_In (x : string) (l : list string) : In x (sorted l) <-> In x l.
Proof.
  split; apply Permutation_in; [apply sorted_perm | symmetry; apply sorted_perm].
Qed.

Lemma leb_false (x y : string) : String.leb x y = false -> String.leb y x = true.
Proof. intros H. destruct (String.leb_total x y) as [H' | H']; congruence. Qed.

(** Insertions commute, so the sorted list depends on the elements only. *)
Lemma insert_sorted_comm (x y : string) (l : list string) :
  insert_sorted x (insert_sorted y l) = insert_sorted y (insert_sorted x l).
Proof.
  induction l as [|h l IH]; cbn [insert_sorted].
  - destruct (String.leb x y) eqn:Exy, (String.leb y x) eqn:Eyx; try reflexivity.
    + now rewrite (String.leb_antisym x y Exy Eyx).
    + apply leb_false in Exy. congruence.
  - destruct (String.leb y h) eqn:Eyh, (String.leb x h) eqn:Exh; cbn [insert_sorted].
    + destruct (String.leb x y) eqn:Exy, (String.leb y x) eqn:Eyx;
        rewrite ?Eyh, ?Exh; try reflexivity.
      * now rewrite (String.leb_antisym x y Exy Eyx).
      * apply leb_false in Exy. congruence.
    + rewrite Eyh. destruct (String.leb x y) eqn:Exy.
      * rewrite (leb_trans x y h Exy Eyh) in Exh. discriminate.
      * now rewrite Exh.
    + rewrite Exh. destruct (String.leb y x) eqn:Eyx.
      * rewrite (leb_trans y x h Eyx Exh) in Eyh. discriminate.
      * now rewrite Eyh.
    + rewrite Eyh, Exh. now rewrite IH.
Qed.

Lemma sorted_of_perm (l l' : list string) : Permutation l l' -> sorted l = sorted l'.
Proof.
  induction 1 as [| x l l' _ IH | x y l | l l' l'' _ IH1 _ IH2].
  - reflexivity.
  - cbn [sorted fold_right]. fold (sorted l) (sorted l'). now rewrite IH.
  - cbn [sorted fold_right]. fold (sorted l). apply insert_sorted_comm.
  - congruence.
Qed.

(** ** Sets and enumerations *)

Lemma to_set_In (x : string) (l : list string) : In x (to_set l) <-> In x l.
Proof.
  induction l as [|y l IH]; [reflexivity |]. cbn [to_set]. split.
  - intros [<- | H]; [now left |]. apply filter_In in H as [H _]. right. now apply IH.
  - intros [<- | H]; [now left |].
    destruct (String.eqb y x) eqn:E.
    + apply String.eqb_eq in E. now left.
    + right. apply filter_In. split; [now apply IH | now rewrite E].
Qed.

Lemma length_to_set (l : list string) : (List.length (to_set l) <= List.length l)%nat.
Proof.
  induction l as [|y l IH]; [reflexivity |]. cbn [to_set List.length].
  pose proof (filter_length_le (fun z => negb (String.eqb y z)) (to_set l)). lia.
Qed.

Lemma existsb_perm {A : Type} (p : A -> bool) (l l' : list A) :
  Permutation l l' -> existsb p l = existsb p l'.
Proof.
  induction 1; cbn [existsb]; try congruence.
  destruct (p x), (p y); reflexivity.
Qed.

Lemma enumerate_In {A : Type} (i : Z) (x : A) (l : list A) :
  In (i, x) (enumerate l) -> In x l.
Proof. unfold enumerate. apply in_combine_r. Qed.

Lemma mem_In (x : string) (l : list string) : mem x l = true <-> In x l.
Proof.
  unfold mem. rewrite existsb_exists. split.
  - intros (y & Hy & E). apply String.eqb_eq in E. now subst.
  - intros H. exists x. split; [exact H | apply String.eqb_refl].
Qed.

End SortFacts.

(* ================================================================== *)
(** * Gaps, and the independence of the enumeration order *)
(* ================================================================== *)

Module GapFacts.
Import Py Spec Core Stages SortFacts.

Lemma firstn_In {A : Type} (n : nat) (l : list A) (x : A) : In x (firstn n l) -> In x l.
Proof.
  intros H. rewrite <- (firstn_skipn n l). apply in_or_app. now left.
Qed.

Lemma select_gaps_to_fill_In (seed input_hash : Z) (gaps : list string)
      (intensity x : string) :
  In x (select_gaps_to_fill seed input_hash gaps intensity) -> In x gaps.
Proof.
  unfold select_gaps_to_fill.
  destruct (Qle_bool 1.0 (rate_of intensity)); [trivial |].
  destruct (len gaps <=? num_to_fill gaps (rate_of intensity)); [trivial |].
  intros H. apply in_map_iff in H as ([g h] & <- & H). apply firstn_In in H.
  apply (Permutation_in _ (sort_by_key_perm snd _)) in H.
  apply in_map_iff in H as ([i g'] & E & H). injection E as <- _.
  now apply enumerate_In in H.
Qed.

Lemma apply_category_rules_In (gaps : list string) (rules : Rules) (intensity x : string) :
  In x (apply_category_rules gaps rules intensity) -> In x gaps.
Proof. unfold apply_category_rules. intros H. now apply filter_In in H. Qed.

Lemma find_gaps_In (set_iter : list string -> list string)
      (classified pools : Dict (list string)) (x : string) :
  enumerates set_iter -> In x (find_gaps set_iter classified pools) -> In x (map fst pools).
Proof.
  intros Hiter H. unfold find_gaps in H. apply (proj1 (sorted_In _ _)) in H.
  apply (Permutation_in _ (Hiter _)) in H. apply filter_In in H as [H _].
  now apply (proj1 (to_set_In _ _)) in H.
Qed.

Lemma length_enumerate {A : Type} (l : list A) :
  List.length (enumerate l) = List.length l.
Proof.
  unfold enumerate. rewrite length_combine, length_map, length_seq. lia.
Qed.

Lemma select_gaps_to_fill_length (seed input_hash : Z) (gaps : list string)
      (intensity : string) :
  (List.length (select_gaps_to_fill seed input_hash gaps intensity) <= List.length gaps)%nat.
Proof.
  unfold select_gaps_to_fill.
  destruct (Qle_bool 1.0 (rate_of intensity)); [lia |].
  destruct (len gaps <=? num_to_fill gaps (rate_of intensity)); [lia |].
  rewrite length_map, length_firstn.
  rewrite (Permutation_length (sort_by_key_perm snd _)), length_map, length_enumerate. lia.
Qed.

Lemma find_gaps_length (set_iter : list string -> list string)
      (classified pools : Dict (list string)) :
  enumerates set_iter ->
  (List.length (find_gaps set_iter classified pools) <= List.length pools)%nat.
Proof.
  intros Hiter. unfold find_gaps.
  rewrite (Permutation_length (sorted_perm _)), (Permutation_length (Hiter _)).
  pose proof (filter_length_le
                (fun k => negb (mem k (to_set (map fst (filter is_present classified)))))
                (to_set (map fst pools))).
  pose proof (length_to_set (map fst pools)). rewrite length_map in *. lia.
Qed.

(** The gaps a call fills are pool names. *)
Lemma gaps_of_In (set_iter : list string -> list string) (input_prompt : string) (seed : Z)
      (profile : Profile) (intensity x : string) :
  enumerates set_iter ->
  In x (gaps_of set_iter input_prompt seed profile intensity) ->
  In x (map fst (pools_of profile)).
Proof.
  intros Hiter H. unfold gaps_of, candidates_of in H.
  apply select_gaps_to_fill_In, apply_category_rules_In in H.
  now apply find_gaps_In in H.
Qed.

Lemma candidates_of_length (set_iter : list string -> list string) (input_prompt : string)
      (profile : Profile) (intensity : string) :
  enumerates set_iter ->
  (List.length (candidates_of set_iter input_prompt profile intensity)
   <= List.length (pools_of profile))%nat.
Proof.
  intros Hiter. unfold candidates_of.
  etransitivity; [| apply (find_gaps_length set_iter
                             (classified_of input_prompt profile) _ Hiter)].
  unfold apply_category_rules. apply filter_length_le.
Qed.

Lemma gaps_of_length (set_iter : list string -> list string) (input_prompt : string)
      (seed : Z) (profile : Profile) (intensity : string) :
  enumerates set_iter ->
  (List.length (gaps_of set_iter input_prompt seed profile intensity)
   <= List.length (pools_of profile))%nat.
Proof.
  intros Hiter. unfold gaps_of.
  etransitivity; [apply select_gaps_to_fill_length |].
  now apply candidates_of_length.
Qed.

(** ** Two enumeration orders *)

Section TwoOrders.

Variables iter1 iter2 : list string -> list string.
Hypothesis H1 : enumerates iter1.
Hypothesis H2 : enumerates iter2.

Lemma iter_perm (l : list string) : Permutation (iter1 l) (iter2 l).
Proof. rewrite (H1 l), (H2 l). reflexivity. Qed.

Lemma find_gaps_ext (classified pools : Dict (list string)) :
  find_gaps iter1 classified pools = find_gaps iter2 classified pools.
Proof. unfold find_gaps. apply sorted_of_perm, iter_perm. Qed.

Lemma conflicts_ext (forbidden : list string) (selection : string) :
  conflicts iter1 forbidden selection = conflicts iter2 forbidden selection.
Proof. unfold conflicts. apply existsb_perm, iter_perm. Qed.

Lemma resolve_conflict_ext (n : nat) (seed input_hash conflict_coord attempts : Z)
      (pool forbidden : list string) (selection : string) :
  resolve_conflict iter1 n seed input_hash conflict_coord attempts pool forbidden selection =
  resolve_conflict iter2 n seed input_hash conflict_coord attempts pool forbidden selection.
Proof.
  revert attempts. induction n as [|n IH]; intros attempts; [reflexivity |].
  rewrite !EngineFacts.resolve_conflict_step.
  destruct (pick _ _ _ _); [| reflexivity].
  now rewrite conflicts_ext, IH.
Qed.

Lemma select_with_antipair_check_ext (seed input_hash category_idx : Z)
      (pool forbidden : list string) :
  select_with_antipair_check iter1 seed input_hash category_idx pool forbidden =
  select_with_antipair_check iter2 seed input_hash category_idx pool forbidden.
Proof.
  rewrite !EngineFacts.select_with_antipair_check_unfold.
  destruct (pick _ _ _ _); [| reflexivity].
  now rewrite conflicts_ext, resolve_conflict_ext.
Qed.

Lemma V2_select_enhancements_ext (seed input_hash : Z) (pools : Dict (list string))
      (forbidden : list string) (gaps : list (Z * string)) (enhancements : Dict string) :
  V2.select_enhancements iter1 seed input_hash pools forbidden gaps enhancements =
  V2.select_enhancements iter2 seed input_hash pools forbidden gaps enhancements.
Proof.
  revert enhancements. induction gaps as [|[i gap] gaps IH]; intros enhancements;
    [reflexivity |].
  cbn [V2.select_enhancements].
  destruct (lookup gap pools) as [[|p pool]|]; try apply IH.
  rewrite select_with_antipair_check_ext.
  destruct (select_with_antipair_check iter2 _ _ _ _ _); [apply IH | reflexivity].
Qed.

Lemma V1_select_enhancements_ext (seed input_hash : Z) (pools : Dict (list string))
      (forbidden : list string) (gaps : list (Z * string)) (enhancements : Dict string) :
  V1.select_enhancements iter1 seed input_hash pools forbidden gaps enhancements =
  V1.select_enhancements iter2 seed input_hash pools forbidden gaps enhancements.
Proof.
  revert enhancements. induction gaps as [|[i gap] gaps IH]; intros enhancements;
    [reflexivity |].
  cbn [V1.select_enhancements].
  destruct (lookup gap pools) as [pool|]; [| reflexivity].
  rewrite select_with_antipair_check_ext.
  destruct (select_with_antipair_check iter2 _ _ _ _ _); [apply IH | reflexivity].
Qed.

Lemma is_duplicate_ext (seen_stems : list string) (stem : string) :
  is_duplicate iter1 seen_stems stem = is_duplicate iter2 seen_stems stem.
Proof.
  unfold is_duplicate.
  destruct (negb (mem stem seen_stems) && (0 <? len (to_set (split stem))));
    [| reflexivity].
  apply existsb_perm, iter_perm.
Qed.

Lemma dedup_step_ext (state : list string * list string) (token : string) :
  dedup_step iter1 state token = dedup_step iter2 state token.
Proof. unfold dedup_step. destruct state. now rewrite is_duplicate_ext. Qed.

Lemma dedup_fold_ext (l : list string) (state : list string * list string) :
  fold_left (dedup_step iter1) l state = fold_left (dedup_step iter2) l state.
Proof.
  revert state. induction l as [|x l IH]; intros state; [reflexivity |].
  cbn [fold_left]. now rewrite dedup_step_ext, IH.
Qed.

Lemma deduplicate_prompt_ext (prompt : string) :
  deduplicate_prompt iter1 prompt = deduplicate_prompt iter2 prompt.
Proof. unfold deduplicate_prompt, final_tokens. now rewrite dedup_fold_ext. Qed.

Lemma V2_enhance_prompt_ext (input_prompt : string) (seed : Z) (profile : Profile)
      (intensity : string) (max_words : Z) :
  V2.enhance_prompt iter1 input_prompt seed profile intensity max_words =
  V2.enhance_prompt iter2 input_prompt seed profile intensity max_words.
Proof.
  unfold V2.enhance_prompt. destruct (is_blank input_prompt); [reflexivity |].
  rewrite find_gaps_ext, V2_select_enhancements_ext.
  destruct (V2.select_enhancements iter2 _ _ _ _ _ _); [| reflexivity].
  destruct (select_template _ _ _); [| reflexivity].
  now rewrite deduplicate_prompt_ext.
Qed.

Lemma V1_enhance_prompt_ext (input_prompt : string) (seed : Z)
      (intensity : string) (max_words : Z) :
  V1.enhance_prompt iter1 input_prompt seed intensity max_words =
  V1.enhance_prompt iter2 input_prompt seed intensity max_words.
Proof.
  unfold V1.enhance_prompt. destruct (is_blank input_prompt); [reflexivity |].
  cbn [classification pools rules anti_pairs templates V1.DEFAULT_PROFILE].
  rewrite find_gaps_ext, V1_select_enhancements_ext.
  destruct (V1.select_enhancements iter2 _ _ _ _ _ _); [| reflexivity].
  destruct (select_template _ _ _); [| reflexivity].
  now rewrite deduplicate_prompt_ext.
Qed.

End TwoOrders.

Lemma insertion_order_enumerates : enumerates insertion_order.
Proof. intros l. reflexivity. Qed.

Lemma rev_enumerates : enumerates (@rev string).
Proof. intros l. symmetry. apply Permutation_rev. Qed.

(** ** The two variants *)

Lemma V1_V2_data : V1.DEFAULT_PROFILE = V2.DEFAULT_PROFILE.
Proof. reflexivity. Qed.

Lemma V2_default_pools_nonempty (gap : string) :
  In gap (map fst V2.DEFAULT_POOLS) ->
  exists p pool, lookup gap V2.DEFAULT_POOLS = Some (p :: pool).
Proof.
  assert (H : forallb
                (fun k => match lookup k V2.DEFAULT_POOLS with
                          | Some (_ :: _) => true
                          | _ => false
                          end)
                (map fst V2.DEFAULT_POOLS) = true) by (vm_compute; reflexivity).
  rewrite forallb_forall in H. intros Hin. specialize (H gap Hin).
  destruct (lookup gap V2.DEFAULT_POOLS) as [[|p pool]|]; try discriminate. eauto.
Qed.

(** On gaps that all have a pool with an entry, the two selection loops
    agree. *)
Lemma select_enhancements_agree (set_iter : list string -> list string)
      (seed input_hash : Z) (pools : Dict (list string)) (forbidden : list string)
      (gaps : list (Z * string)) (enhancements : Dict string) :
  (forall i gap, In (i, gap) gaps -> exists p pool, lookup gap pools = Some (p :: pool)) ->
  V1.select_enhancements set_iter seed input_hash pools forbidden gaps enhancements =
  V2.select_enhancements set_iter seed input_hash pools forbidden gaps enhancements.
Proof.
  revert enhancements. induction gaps as [|[i gap] gaps IH]; intros enhancements Hg;
    [reflexivity |].
  cbn [V1.select_enhancements V2.select_enhancements].
  destruct (Hg i gap (or_introl eq_refl)) as (p & pool & ->).
  destruct (select_with_antipair_check set_iter _ _ _ _ _); [| reflexivity].
  apply IH. intros i' gap' H. apply (Hg i' gap'). now right.
Qed.

End GapFacts.

(* ================================================================== *)
(** * Facts about the recorded queries *)
(* ================================================================== *)

Module TraceFacts.
Import Py Spec Core Stages Layers SortFacts.

Lemma bind_fst {A B : Type} (m : Trace.Traced A) (f : A -> Trace.Traced B) :
  fst (Trace.bind m f) = match fst m with Some a => fst (f a) | None => None end.
Proof. unfold Trace.bind. destruct (fst m); reflexivity. Qed.

Lemma bind_log {A B : Type} (m : Trace.Traced A) (f : A -> Trace.Traced B)
      (q : Trace.query) :
  In q (snd (Trace.bind m f)) ->
  In q (snd m) \/ exists a, fst m = Some a /\ In q (snd (f a)).
Proof.
  unfold Trace.bind. destruct (fst m) as [a|]; cbn [snd]; [| now left].
  intros H. apply in_app_or in H as [H | H]; [now left | right; eauto].
Qed.

(** ** The recorded functions return what the plain ones return *)

Lemma score_gaps_result (seed input_hash : Z) (gaps : list (Z * string)) :
  fst (Trace.score_gaps seed input_hash gaps) =
  Some (map (fun ig => (snd ig, enhancement_hash seed input_hash (2000 + fst ig))) gaps).
Proof.
  induction gaps as [|[i gap] gaps IH]; [reflexivity |].
  cbn [Trace.score_gaps]. rewrite bind_fst. cbn [Trace.hash_at fst].
  rewrite bind_fst, IH. reflexivity.
Qed.

Lemma select_gaps_to_fill_result (seed input_hash : Z) (gaps : list string)
      (intensity : string) :
  fst (Trace.select_gaps_to_fill seed input_hash gaps intensity) =
  Some (select_gaps_to_fill seed input_hash gaps intensity).
Proof.
  unfold Trace.select_gaps_to_fill, select_gaps_to_fill.
  destruct (Qle_bool 1.0 (rate_of intensity)); [reflexivity |].
  destruct (len gaps <=? num_to_fill gaps (rate_of intensity)); [reflexivity |].
  rewrite bind_fst, score_gaps_result. reflexivity.
Qed.

Lemma select_template_result (seed input_hash : Z) (templates : list string) :
  fst (Trace.select_template seed input_hash templates) =
  select_template seed input_hash templates.
Proof.
  unfold Trace.select_template, select_template.
  rewrite bind_fst. cbn [Trace.hash_at fst]. rewrite bind_fst. cbn [Trace.lift fst].
  destruct (hash_to_index _ _); reflexivity.
Qed.

Section Engine.

Variable set_iter : list string -> list string.

Lemma resolve_conflict_result (n : nat) (seed input_hash category_idx conflict_coord attempts : Z)
      (pool forbidden : list string) (selection : string) :
  fst (Trace.resolve_conflict set_iter n seed input_hash category_idx conflict_coord
         attempts pool forbidden selection) =
  resolve_conflict set_iter n seed input_hash conflict_coord attempts pool forbidden selection.
Proof.
  revert attempts. induction n as [|n IH]; intros attempts; [reflexivity |].
  cbn [Trace.resolve_conflict resolve_conflict].
  rewrite bind_fst. cbn [Trace.hash_at fst]. rewrite bind_fst. cbn [Trace.lift fst].
  destruct (hash_to_index _ _) as [alt_idx|]; [| reflexivity].
  rewrite bind_fst. cbn [Trace.lift fst].
  destruct (item pool alt_idx) as [alt|]; [| reflexivity].
  destruct (negb (conflicts set_iter forbidden alt)); [reflexivity | apply IH].
Qed.

Lemma select_with_antipair_check_result (seed input_hash category_idx : Z)
      (pool forbidden : list string) :
  fst (Trace.select_with_antipair_check set_iter seed input_hash category_idx pool forbidden) =
  select_with_antipair_check set_iter seed input_hash category_idx pool forbidden.
Proof.
  unfold Trace.select_with_antipair_check, select_with_antipair_check.
  rewrite bind_fst. cbn [Trace.hash_at fst]. rewrite bind_fst. cbn [Trace.lift fst].
  destruct (hash_to_index _ _) as [idx|]; [| reflexivity].
  rewrite bind_fst. cbn [Trace.lift fst].
  destruct (item pool idx) as [selection|]; [| reflexivity].
  destruct (conflicts set_iter forbidden selection); [| reflexivity].
  apply resolve_conflict_result.
Qed.

Lemma select_enhancements_result (seed input_hash : Z) (pools : Dict (list string))
      (forbidden : list string) (gaps : list (Z * string)) (enhancements : Dict string) :
  fst (Trace.select_enhancements set_iter seed input_hash pools forbidden gaps enhancements) =
  V2.select_enhancements set_iter seed input_hash pools forbidden gaps enhancements.
Proof.
  revert enhancements. induction gaps as [|[i gap] gaps IH]; intros enhancements;
    [reflexivity |].
  cbn [Trace.select_enhancements V2.select_enhancements].
  destruct (lookup gap pools) as [[|p pool]|]; try apply IH.
  rewrite bind_fst, select_with_antipair_check_result.
  destruct (select_with_antipair_check set_iter _ _ _ _ _); [apply IH | reflexivity].
Qed.

(** The recorded call returns what [V2.enhance_prompt] returns. *)
Lemma enhance_prompt_result (input_prompt : string) (seed : Z) (profile : Profile)
      (intensity : string) (max_words : Z) :
  fst (Trace.enhance_prompt set_iter input_prompt seed profile intensity max_words) =
  V2.enhance_prompt set_iter input_prompt seed profile intensity max_words.
Proof.
  unfold Trace.enhance_prompt, V2.enhance_prompt.
  destruct (is_blank input_prompt); [reflexivity |].
  rewrite bind_fst, select_gaps_to_fill_result.
  rewrite bind_fst, select_enhancements_result.
  destruct (V2.select_enhancements set_iter _ _ _ _ _ _); [| reflexivity].
  rewrite bind_fst, select_template_result.
  destruct (select_template _ _ _); reflexivity.
Qed.

(** ** Where the queries are made *)

Lemma score_gaps_log (seed input_hash : Z) (gaps : list (Z * string)) (q : Trace.query) :
  In q (snd (Trace.score_gaps seed input_hash gaps)) ->
  exists i gap, In (i, gap) gaps /\ q = (Trace.GapScore i, 2000 + i).
Proof.
  induction gaps as [|[i gap] gaps IH]; [intros [] |].
  cbn [Trace.score_gaps]. intros H.
  apply bind_log in H as [H | (h & _ & H)].
  - destruct H as [<- | []]. exists i, gap. split; [now left | reflexivity].
  - apply bind_log in H as [H | (r & _ & [])].
    destruct (IH H) as (i' & gap' & Hin & ->). exists i', gap'. split; [now right | reflexivity].
Qed.

Lemma enumerate_index {A : Type} (i : Z) (x : A) (l : list A) :
  In (i, x) (enumerate l) -> 0 <= i < len l.
Proof.
  unfold enumerate, len. intros H. apply in_combine_l in H.
  apply in_map_iff in H as (n & <- & H). apply in_seq in H. lia.
Qed.

Lemma select_gaps_to_fill_log (seed input_hash : Z) (gaps : list string)
      (intensity : string) (gap_count : Z) (q : Trace.query) :
  In q (snd (Trace.select_gaps_to_fill seed input_hash gaps intensity)) ->
  well_placed (len gaps) gap_count q.
Proof.
  unfold Trace.select_gaps_to_fill.
  destruct (Qle_bool 1.0 (rate_of intensity)); [intros [] |].
  destruct (len gaps <=? num_to_fill gaps (rate_of intensity)); [intros [] |].
  intros H. apply bind_log in H as [H | (r & _ & [])].
  apply score_gaps_log in H as (i & gap & Hin & ->).
  apply enumerate_index in Hin. unfold well_placed. cbn [fst snd]. lia.
Qed.

Lemma select_template_log (seed input_hash : Z) (templates : list string)
      (candidate_count gap_count : Z) (q : Trace.query) :
  In q (snd (Trace.select_template seed input_hash templates)) -> well_placed candidate_count gap_count q.
Proof.
  unfold Trace.select_template. intros H.
  apply bind_log in H as [[<- | []] | (h & _ & H)]; [reflexivity |].
  apply bind_log in H as [[] | (idx & _ & [])].
Qed.

Lemma resolve_conflict_log (n : nat) (seed input_hash category_idx conflict_coord attempts : Z)
      (pool forbidden : list string) (selection : string) (q : Trace.query) :
  In q (snd (Trace.resolve_conflict set_iter n seed input_hash category_idx conflict_coord
               attempts pool forbidden selection)) ->
  exists a, attempts <= a < attempts + Z.of_nat n /\
            q = (Trace.FallbackAttempt category_idx a, conflict_coord + a).
Proof.
  revert attempts. induction n as [|n IH]; intros attempts; [intros [] |].
  cbn [Trace.resolve_conflict]. intros H.
  apply bind_log in H as [[<- | []] | (h2 & _ & H)].
  - exists attempts. split; [lia | reflexivity].
  - apply bind_log in H as [[] | (alt_idx & _ & H)].
    apply bind_log in H as [[] | (alt & _ & H)].
    destruct (negb (conflicts set_iter forbidden alt)); [destruct H |].
    destruct (IH _ H) as (a & Ha & ->). exists a. split; [lia | reflexivity].
Qed.

Lemma select_with_antipair_check_log (seed input_hash category_idx : Z)
      (pool forbidden : list string) (candidate_count gap_count : Z) (q : Trace.query) :
  1 <= category_idx <= gap_count ->
  In q (snd (Trace.select_with_antipair_check set_iter seed input_hash category_idx
               pool forbidden)) ->
  well_placed candidate_count gap_count q.
Proof.
  intros Hc. unfold Trace.select_with_antipair_check. intros H.
  apply bind_log in H as [[<- | []] | (h & _ & H)].
  - unfold well_placed. cbn [fst snd]. lia.
  - apply bind_log in H as [[] | (idx & _ & H)].
    apply bind_log in H as [[] | (selection & _ & H)].
    destruct (conflicts set_iter forbidden selection); [| destruct H].
    apply resolve_conflict_log in H as (a & Ha & ->).
    unfold well_placed. cbn [fst snd]. lia.
Qed.

Lemma select_enhancements_log (seed input_hash : Z) (pools : Dict (list string))
      (forbidden : list string) (gaps : list (Z * string)) (enhancements : Dict string)
      (candidate_count gap_count : Z) (q : Trace.query) :
  (forall i gap, In (i, gap) gaps -> 0 <= i < gap_count) ->
  In q (snd (Trace.select_enhancements set_iter seed input_hash pools forbidden gaps
               enhancements)) ->
  well_placed candidate_count gap_count q.
Proof.
  revert enhancements. induction gaps as [|[i gap] gaps IH]; intros enhancements Hg;
    [intros [] |].
  assert (Hg' : forall i' gap', In (i', gap') gaps -> 0 <= i' < gap_count).
  { intros i' gap' H. apply (Hg i' gap'). now right. }
  cbn [Trace.select_enhancements].
  destruct (lookup gap pools) as [[|p pool]|]; try (now apply IH).
  intros H. apply bind_log in H as [H | (selection & _ & H)].
  - apply (select_with_antipair_check_log _ _ _ _ _ candidate_count gap_count) in H;
      [exact H |].
    specialize (Hg i gap (or_introl eq_refl)). lia.
  - now apply IH in H.
Qed.

(** Every query of a call is well placed for the number of gaps the call
    scores and the number it fills. *)
Lemma enhance_prompt_log (input_prompt : string) (seed : Z) (profile : Profile)
      (intensity : string) (max_words : Z) (q : Trace.query) :
  In q (snd (Trace.enhance_prompt set_iter input_prompt seed profile intensity max_words)) ->
  well_placed (len (candidates_of set_iter input_prompt profile intensity))
              (len (gaps_of set_iter input_prompt seed profile intensity)) q.
Proof.
  unfold Trace.enhance_prompt. destruct (is_blank input_prompt); [intros [] |].
  fold (fingerprint input_prompt). fold (pools_of profile).
  fold (classified_of input_prompt profile).
  fold (candidates_of set_iter input_prompt profile intensity).
  intros H. apply bind_log in H as [H | (gaps & Hgaps & H)].
  - exact (select_gaps_to_fill_log _ _ _ _ _ _ H).
  - rewrite select_gaps_to_fill_result in Hgaps. injection Hgaps as <-.
    fold (gaps_of set_iter input_prompt seed profile intensity) in H.
    apply bind_log in H as [H | (enh & _ & H)].
    + apply (select_enhancements_log _ _ _ _ _ _
               (len (candidates_of set_iter input_prompt profile intensity))
               (len (gaps_of set_iter input_prompt seed profile intensity))) in H;
        [exact H |].
      intros i gap Hin. apply enumerate_index in Hin.
      unfold len in *. now rewrite (Permutation_length (sorted_perm _)) in Hin.
    + apply bind_log in H as [H | (template & _ & [])].
      exact (select_template_log _ _ _ _ _ _ H).
Qed.

End Engine.

(** Well-placed queries of different decisions differ in their coordinate,
    unless both are retries of different categories. *)
Lemma well_placed_separate (candidate_count gap_count : Z) (q1 q2 : Trace.query) :
  gap_count <= 950 ->
  well_placed candidate_count gap_count q1 -> well_placed candidate_count gap_count q2 ->
  fst q1 <> fst q2 -> snd q1 = snd q2 ->
  fallbacks_of_two_categories (fst q1) (fst q2).
Proof.
  intros HG H1 H2 Hne Heq. destruct q1 as [d1 c1], q2 as [d2 c2].
  unfold well_placed in *. cbn [fst snd] in *. subst c2.
  destruct d1 as [|x1|x1 a1|i1], d2 as [|x2|x2 a2|i2];
    try (exfalso; lia); try (exfalso; apply Hne; f_equal; lia).
  - exfalso. now apply Hne.
  - exists x1, a1, x2, a2. repeat split; try lia.
    intros ->. apply Hne. f_equal. lia.
Qed.

Lemma well_placed_u32 (candidate_count gap_count : Z) (q : Trace.query) :
  candidate_count <= 950 -> gap_count <= 950 ->
  well_placed candidate_count gap_count q -> Z.land (snd q) 0xFFFFFFFF = snd q.
Proof.
  intros HC HG H. change 0xFFFFFFFF with (Z.ones 32). rewrite Z.land_ones by lia.
  apply Z.mod_small. change (2 ^ 32) with 4294967296.
  destruct q as [d c]. unfold well_placed in H. cbn [fst snd] in *.
  destruct d; lia.
Qed.

End TraceFacts.

(* ================================================================== *)
(** * Tokens, buckets and the merged prompt *)
(* ================================================================== *)

Module TokenFacts.
Import Py Spec Shape StrFacts ShapeFacts StageFacts Core Stages Buckets.

Local Open Scope string_scope.

(** ** Pieces keep the characters of the string *)

Lemma all_chars_no_comma (s : string) :
  all_chars (fun c => negb (Ascii.eqb c ",")) s = no_comma s.
Proof. induction s as [|c s IH]; [reflexivity |]. cbn [all_chars no_comma]. now rewrite IH. Qed.



Lemma re_split_from_chars (p : ascii -> bool) (r : Re.regex) (s : string) :
  all_chars p s = true ->
  forall skip bol, Forall (fun w => all_chars p w = true) (Re.split_from r skip bol s).
Proof.
  induction s as [|c s IH]; intros H skip bol; [repeat constructor |].
  cbn [all_chars] in H. apply andb_true_iff in H as [Hc Hs]. specialize (IH Hs).
  cbn [Re.split_from]. destruct skip as [|k]; [| apply IH].
  assert (Hkeep : Forall (fun w => all_chars p w = true)
                    match Re.split_from r 0 false s with
                    | w :: ws => String c w :: ws
                    | [] => [String c ""]
                    end).
  { pose proof (IH 0%nat false) as H0. destruct (Re.split_from r 0 false s) as [|w ws].
    - repeat constructor. cbn [all_chars]. now rewrite Hc.
    - inversion H0; subst. constructor; [| assumption]. cbn [all_chars]. now rewrite Hc. }
  destruct (Re.match_here r bol (String c s)) as [rest|]; [| exact Hkeep].
  destruct (String.length (String c s) - String.length rest)%nat; [exact Hkeep |].
  constructor; [reflexivity | apply IH].
Qed.

(** Every token is a segment: not empty, free of commas, stripped. *)
Lemma tokenize_segments (prompt : string) : Forall segment (tokenize prompt).
Proof.
  apply Forall_forall. intros t Ht. unfold tokenize in Ht.
  apply in_flat_map in Ht as (piece & Hpiece & Ht).
  apply filter_In in Ht as [Ht Hne]. apply in_map_iff in Ht as (sub & <- & Hsub).
  apply segment_strip; [| exact Hne].
  pose proof (split_on_no_comma prompt) as H1. rewrite Forall_forall in H1.
  specialize (H1 piece Hpiece). rewrite <- all_chars_no_comma in H1.
  pose proof (re_split_from_chars _ token_separator piece H1 0%nat true) as H2.
  rewrite Forall_forall in H2. rewrite <- all_chars_no_comma. now apply H2.
Qed.


(** ** Buckets *)

Lemma lookup_dict_set {A : Type} (k k' : string) (v : A) (d : Dict A) :
  lookup k (dict_set k' v d) = if String.eqb k k' then Some v else lookup k d.
Proof.
  induction d as [|[k0 v0] d IH]; cbn [dict_set lookup].
  - reflexivity.
  - destruct (String.eqb k' k0) eqn:E0; cbn [lookup].
    + apply String.eqb_eq in E0. subst k0. destruct (String.eqb k k'); reflexivity.
    + destruct (String.eqb k k0) eqn:E1; [| exact IH].
      apply String.eqb_eq in E1. subst k0.
      rewrite String.eqb_sym, E0. reflexivity.
Qed.

Lemma append_token_key (d : Dict (list string)) (cat token k : string) :
  lookup k d <> None -> lookup k (append_token d cat token) <> None.
Proof.
  unfold append_token. destruct (lookup cat d) as [b|]; [| trivial].
  rewrite lookup_dict_set. destruct (String.eqb k cat); [discriminate | trivial].
Qed.

Lemma append_token_mono (d : Dict (list string)) (cat token k t : string) :
  In t (bucket k d) -> In t (bucket k (append_token d cat token)).
Proof.
  unfold append_token, bucket. destruct (lookup cat d) as [b|] eqn:E; [| trivial].
  rewrite lookup_dict_set. destruct (String.eqb k cat) eqn:Ek; [| trivial].
  apply String.eqb_eq in Ek. subst k. rewrite E. intros H. apply in_or_app. now left.
Qed.

Lemma append_token_same (d : Dict (list string)) (cat token : string) :
  lookup cat d <> None -> In token (bucket cat (append_token d cat token)).
Proof.
  unfold append_token, bucket. destruct (lookup cat d) as [b|] eqn:E; [| contradiction].
  intros _. rewrite lookup_dict_set, String.eqb_refl. apply in_or_app. right. now left.
Qed.

Lemma append_token_inv (d : Dict (list string)) (cat token k t : string) :
  In t (bucket k (append_token d cat token)) -> In t (bucket k d) \/ t = token.
Proof.
  unfold append_token, bucket. destruct (lookup cat d) as [b|] eqn:E; [| now left].
  rewrite lookup_dict_set. destruct (String.eqb k cat) eqn:Ek; [| now left].
  apply String.eqb_eq in Ek. subst k. rewrite E. intros H.
  apply in_app_or in H as [H | [H | []]]; [now left | now right].
Qed.

Section Buckets.

Variable classification : Dict ClassRule.

Lemma cats_fold_key (cats : list string) (d : Dict (list string)) (token k : string) :
  lookup k d <> None ->
  lookup k (fold_left (fun d cat => append_token d cat token) cats d) <> None.
Proof.
  revert d. induction cats as [|c cats IH]; intros d H; [exact H |].
  cbn [fold_left]. apply IH. now apply append_token_key.
Qed.

Lemma cats_fold_mono (cats : list string) (d : Dict (list string)) (token k t : string) :
  In t (bucket k d) ->
  In t (bucket k (fold_left (fun d cat => append_token d cat token) cats d)).
Proof.
  revert d. induction cats as [|c cats IH]; intros d H; [exact H |].
  cbn [fold_left]. apply IH. now apply append_token_mono.
Qed.

Lemma cats_fold_inv (cats : list string) (d : Dict (list string)) (token k t : string) :
  In t (bucket k (fold_left (fun d cat => append_token d cat token) cats d)) ->
  In t (bucket k d) \/ t = token.
Proof.
  revert d. induction cats as [|c cats IH]; intros d H; [now left |].
  cbn [fold_left] in H. apply IH in H as [H | H]; [| now right].
  now apply append_token_inv in H.
Qed.

Lemma tokens_fold_key (tokens : list string) (d : Dict (list string)) (k : string) :
  lookup k d <> None -> lookup k (fold_left (classify_step classification) tokens d) <> None.
Proof.
  revert d. induction tokens as [|x tokens IH]; intros d H; [exact H |].
  cbn [fold_left]. apply IH. now apply cats_fold_key.
Qed.

Lemma tokens_fold_mono (tokens : list string) (d : Dict (list string)) (k t : string) :
  In t (bucket k d) -> In t (bucket k (fold_left (classify_step classification) tokens d)).
Proof.
  revert d. induction tokens as [|x tokens IH]; intros d H; [exact H |].
  cbn [fold_left]. apply IH. now apply cats_fold_mono.
Qed.

Lemma tokens_fold_inv (tokens : list string) (d : Dict (list string)) (k t : string) :
  In t (bucket k (fold_left (classify_step classification) tokens d)) -> In t (bucket k d) \/ In t tokens.
Proof.
  revert d. induction tokens as [|x tokens IH]; intros d H; [now left |].
  cbn [fold_left] in H. apply IH in H as [H | H]; [| right; now right].
  apply cats_fold_inv in H as [H | ->]; [now left | right; now left].
Qed.



Lemma classify_all_tokens_fold (tokens : list string) :
  classify_all_tokens tokens classification =
  fold_left (classify_step classification) tokens
    (map (fun cat => (cat, [])) ORDERED_CATEGORIES ++ [("unclassified", [])])%list.
Proof. reflexivity. Qed.

Lemma unclassified_of_bucket (d : Dict (list string)) :
  unclassified_of d = bucket "unclassified" d.
Proof. reflexivity. Qed.


Lemma unclassified_sound (tokens : list string) (t : string) :
  In t (unclassified_of (classify_all_tokens tokens classification)) -> In t tokens.
Proof.
  rewrite unclassified_of_bucket, classify_all_tokens_fold. intros H.
  apply tokens_fold_inv in H as [[] | H]. exact H.
Qed.

End Buckets.

(** ** Occurrences *)





(** ** The segments of the merged prompt *)

Lemma split_on_nonempty (ch : ascii) (s : string) : split_on ch s <> [].
Proof.
  destruct s as [|c s]; [discriminate |]. cbn [split_on].
  destruct (Ascii.eqb c ch); [discriminate |]. destruct (split_on ch s); discriminate.
Qed.

Lemma split_on_app (ch : ascii) (a b : string) :
  split_on ch (a ++ String ch b) = (split_on ch a ++ split_on ch b)%list.
Proof.
  induction a as [|c a IH].
  - cbn [append split_on]. now rewrite Ascii.eqb_refl.
  - change (String c a ++ String ch b) with (String c (a ++ String ch b)).
    cbn [split_on]. rewrite IH. destruct (Ascii.eqb c ch); [reflexivity |].
    pose proof (split_on_nonempty ch a) as Hne.
    destruct (split_on ch a) as [|w ws]; [contradiction | reflexivity].
Qed.

Lemma split_on_comma_free (s : string) : no_comma s = true -> split_on "," s = [s].
Proof.
  induction s as [|c s IH]; [reflexivity |]. cbn [no_comma split_on]. intros H.
  apply andb_true_iff in H as [Hc Hs]. apply negb_true_iff in Hc.
  now rewrite Hc, (IH Hs).
Qed.

Lemma segments_app (a b : string) :
  segments (a ++ String "," b) = (segments a ++ segments b)%list.
Proof. unfold segments. now rewrite split_on_app, map_app, filter_app. Qed.

Lemma segments_segment (t : string) : segment t -> segments (String " " t) = [t].
Proof.
  intros (Hne & Hnc & Hs). unfold segments.
  rewrite split_on_comma_free by (cbn [no_comma]; now rewrite Hnc).
  cbn [map]. rewrite strip_space_cons by reflexivity. rewrite Hs.
  cbn [filter]. apply nonempty_true in Hne. now rewrite Hne.
Qed.

Lemma segments_joined (l : list string) :
  Forall segment l -> l <> [] -> segments (String " " (join ", " l)) = l.
Proof.
  induction 1 as [|t l Ht Hl IH]; [intros H; contradiction |]. intros _.
  destruct l as [|t' l]; [now apply segments_segment |].
  rewrite join_cons2.
  change (String " " (t ++ ", " ++ join ", " (t' :: l)))
    with (String " " t ++ String "," (String " " (join ", " (t' :: l)))).
  rewrite segments_app, (segments_segment t Ht), IH by discriminate. reflexivity.
Qed.

Lemma segments_merged (enhanced : string) (unclassified : list string) :
  Forall segment unclassified ->
  segments (merge_with_unclassified enhanced unclassified) =
  (segments enhanced ++ unclassified)%list.
Proof.
  intros H. destruct unclassified as [|u l]; [cbn; now rewrite List.app_nil_r |].
  unfold merge_with_unclassified.
  change (enhanced ++ ", " ++ join ", " (u :: l))
    with (enhanced ++ String "," (String " " (join ", " (u :: l)))).
  rewrite segments_app, segments_joined; [reflexivity | exact H | discriminate].
Qed.


End TokenFacts.

(* ================================================================== *)
(** * The final loop of the formatter ends *)
(* ================================================================== *)

Module FormatFacts.
Import Py StrFacts Core.

Local Open Scope string_scope.

Lemma prefix_length (p s : string) :
  String.prefix p s = true -> (String.length p <= String.length s)%nat.
Proof.
  revert s. induction p as [|a p IH]; intros s H; [simpl; lia |].
  destruct s as [|b s]; [discriminate |].
  rewrite prefix_cons in H. apply andb_true_iff in H as [_ H].
  specialize (IH s H). simpl. lia.
Qed.

(** Replacing by a string that is not longer does not lengthen; the
    characters still to be skipped are gone from the result. *)
Lemma replace_from_length (old new : string) (s : string) :
  (String.length new <= String.length old)%nat -> old <> "" ->
  forall skip,
    (String.length (replace_from old new skip s) + Nat.min skip (String.length s)
     <= String.length s)%nat.
Proof.
  intros Hlen Hold. induction s as [|c s IH]; intros skip; [simpl; lia |].
  cbn [replace_from]. destruct skip as [|k].
  - destruct (startswith old (String c s)) eqn:E.
    + apply prefix_length in E. rewrite length_app.
      specialize (IH (String.length old - 1)%nat).
      assert (0 < String.length old)%nat by (destruct old; [contradiction | simpl; lia]).
      cbn [String.length] in *. lia.
    + specialize (IH 0%nat). cbn [String.length] in *. lia.
  - specialize (IH k). cbn [String.length] in *. lia.
Qed.

Lemma replace_from_shorter (old new : string) (s : string) :
  (String.length new < String.length old)%nat ->
  contains old s = true ->
  (String.length (replace_from old new 0 s) < String.length s)%nat.
Proof.
  intros Hlen. assert (Hold : old <> "") by (intros ->; simpl in Hlen; lia).
  induction s as [|c s IH]; intros H.
  - cbn [contains] in H. unfold startswith in H.
    destruct old; [contradiction | discriminate].
  - cbn [replace_from]. destruct (startswith old (String c s)) eqn:E.
    + pose proof (prefix_length _ _ E) as Hp. rewrite length_app.
      pose proof (replace_from_length old new s ltac:(lia) Hold (String.length old - 1)) as Hr.
      cbn [String.length] in *. lia.
    + cbn [contains] in H. rewrite E in H. cbn [orb] in H.
      specialize (IH H). cbn [String.length]. lia.
Qed.

Lemma replace_from_absent (old new : string) (s : string) :
  contains old s = false -> replace_from old new 0 s = s.
Proof.
  induction s as [|c s IH]; [reflexivity |]. cbn [contains replace_from]. intros H.
  apply orb_false_iff in H as [H1 H2]. now rewrite H1, IH.
Qed.

(** One round of the loop shortens the string. *)
Lemma collapse_round_shorter (s : string) :
  contains ",," s || contains ", ," s = true ->
  (String.length (replace ", ," "," (replace ",," "," s)) < String.length s)%nat.
Proof.
  intros H. unfold replace.
  pose proof (replace_from_length ", ," "," (replace_from ",," "," 0 s)
                ltac:(simpl; lia) ltac:(discriminate) 0%nat) as H2.
  destruct (contains ",," s) eqn:E.
  - pose proof (replace_from_shorter ",," "," s ltac:(simpl; lia) E). lia.
  - cbn [orb] in H. rewrite (replace_from_absent ",," "," s E).
    apply replace_from_shorter; [simpl; lia | exact H].
Qed.

(** With [String.length result] rounds at hand the loop stops because its
    condition is false. *)
Lemma collapse_commas_done (fuel : nat) (s : string) :
  (String.length s <= fuel)%nat ->
  contains ",," (collapse_commas fuel s) || contains ", ," (collapse_commas fuel s) = false.
Proof.
  revert s. induction fuel as [|fuel IH]; intros s Hs.
  - destruct s; [reflexivity | simpl in Hs; lia].
  - cbn [collapse_commas].
    destruct (contains ",," s || contains ", ," s) eqn:E; [| exact E].
    apply IH. pose proof (collapse_round_shorter s E). lia.
Qed.

Lemma safe_format_template_no_double (template : string) (components : Dict string) :
  contains ",," (safe_format_template template components) = false /\
  contains ", ," (safe_format_template template components) = false.
Proof.
  unfold safe_format_template. apply orb_false_iff, collapse_commas_done. lia.
Qed.

End FormatFacts.

(* ================================================================== *)
(** * Properties of the engine *)
(* ================================================================== *)

Import Core Spec Stages.


(** ** Empty input *)



(** ** The word limit *)



(** ** Formatting *)

(** C7.  The string returned by [enhance_prompt] has no two consecutive
    commas, does not begin with a comma and does not end with one. *)
Theorem formatting_invariant
        (set_iter : list string -> list string) (input_prompt : string) (seed : Z)
        (profile : Profile) (intensity : string) (max_words : Z) :
  templates_of profile <> [] ->
  exists out,
    V2.enhance_prompt set_iter input_prompt seed profile intensity max_words = Some out /\
    well_formatted out.
Proof.
  intros Ht.
  destruct (EngineFacts.V2_total set_iter input_prompt seed profile intensity max_words Ht)
    as (out & Hout).
  exists out. split; [exact Hout |].
  rewrite EngineFacts.V2_enhance_prompt_unfold in Hout.
  destruct (is_blank input_prompt) eqn:Eb.
  - injection Hout as <-. apply EngineFacts.no_comma_well_formatted.
    now apply EngineFacts.all_space_no_comma, EngineFacts.is_blank_inv.
  - destruct (merged_of set_iter input_prompt seed profile intensity); [| discriminate].
    injection Hout as <-. apply StageFacts.enforce_well_formatted.
    + apply StageFacts.dedup_disciplined.
    + apply StageFacts.dedup_well_formatted.
Qed.

Lemma formatting_invariant_witness :
  exists out,
    V2.enhance_prompt insertion_order ", a cat,, neon ," 7 V2.DEFAULT_PROFILE "light" 150
      = Some out /\
    well_formatted out.
Proof.
  apply (formatting_invariant insertion_order ", a cat,, neon ," 7 V2.DEFAULT_PROFILE
           "light" 150).
  discriminate.
Defined.

(** ** Determinism *)

(** C1.  The result of [enhance_prompt] is a function of its arguments
    alone: the one thing the language leaves open, the order in which a set
    is enumerated, has no influence on it.  For any two enumeration orders
    the two variants return the same string (or fail alike). *)
Theorem determinism
        (iter1 iter2 : list string -> list string) (input_prompt : string) (seed : Z)
        (profile : Profile) (intensity : string) (max_words : Z) :
  enumerates iter1 -> enumerates iter2 ->
  V2.enhance_prompt iter1 input_prompt seed profile intensity max_words =
  V2.enhance_prompt iter2 input_prompt seed profile intensity max_words /\
  V1.enhance_prompt iter1 input_prompt seed intensity max_words =
  V1.enhance_prompt iter2 input_prompt seed intensity max_words.
Proof.
  intros H1 H2. split.
  - now apply GapFacts.V2_enhance_prompt_ext.
  - now apply GapFacts.V1_enhance_prompt_ext.
Qed.

Lemma determinism_witness :
  V2.enhance_prompt insertion_order "underwater cave, neon" 42 V2.DEFAULT_PROFILE "full" 150 =
  V2.enhance_prompt (@rev string) "underwater cave, neon" 42 V2.DEFAULT_PROFILE "full" 150 /\
  V1.enhance_prompt insertion_order "underwater cave, neon" 42 "full" 150 =
  V1.enhance_prompt (@rev string) "underwater cave, neon" 42 "full" 150.
Proof.
  apply (determinism insertion_order (@rev string) "underwater cave, neon" 42
           V2.DEFAULT_PROFILE "full" 150).
  - exact GapFacts.insertion_order_enumerates.
  - exact GapFacts.rev_enumerates.
Defined.

(** ** The two variants *)

(** C9.  On the built-in profile of V2 the V2 engine returns what the V1
    engine returns, for every prompt, seed, intensity and word limit, and
    both return a string. *)
Theorem variant_equivalence
        (set_iter : list string -> list string) (input_prompt : string) (seed : Z)
        (intensity : string) (max_words : Z) :
  enumerates set_iter ->
  V1.enhance_prompt set_iter input_prompt seed intensity max_words =
  V2.enhance_prompt set_iter input_prompt seed V2.DEFAULT_PROFILE intensity max_words /\
  exists out,
    V2.enhance_prompt set_iter input_prompt seed V2.DEFAULT_PROFILE intensity max_words
      = Some out.
Proof.
  intros Hiter. split.
  - unfold V1.enhance_prompt, V2.enhance_prompt.
    destruct (is_blank input_prompt); [reflexivity |].
    rewrite GapFacts.V1_V2_data.
    cbn [classification pools rules anti_pairs templates V2.DEFAULT_PROFILE V2.get].
    rewrite GapFacts.select_enhancements_agree; [reflexivity |].
    intros i gap H. apply SortFacts.enumerate_In in H.
    apply (proj1 (SortFacts.sorted_In _ _)) in H.
    apply GapFacts.V2_default_pools_nonempty.
    apply GapFacts.select_gaps_to_fill_In, GapFacts.apply_category_rules_In in H.
    now apply GapFacts.find_gaps_In in H.
  - apply EngineFacts.V2_total. discriminate.
Qed.

Lemma variant_equivalence_witness :
  V1.enhance_prompt insertion_order "a knight" 42 "moderate" 150 =
  V2.enhance_prompt insertion_order "a knight" 42 V2.DEFAULT_PROFILE "moderate" 150 /\
  exists out,
    V2.enhance_prompt insertion_order "a knight" 42 V2.DEFAULT_PROFILE "moderate" 150
      = Some out.
Proof.
  apply (variant_equivalence insertion_order "a knight" 42 "moderate" 150).
  exact GapFacts.insertion_order_enumerates.
Defined.

(** ** Intensity thinning *)

Module ThinFacts.
Import Py SortFacts.






End ThinFacts.



(** ** Anti-pair avoidance *)

Import Layers Examples.

(** C3, as the claim states it, fails: the pool of [two_lights] holds
    "moonlight", which is free of every forbidden term, and yet for the
    prompt "underwater scene" and seed 0 the conflicting "golden hour
    lighting" is selected: the primary pick and both retries fall on it. *)
Lemma antipair_avoidance_counterexample :
  let pool := ["golden hour lighting"; "moonlight"] in
  let forbidden := forbidden_of "underwater scene" two_lights in
  Py.lookup "lighting" (pools_of two_lights) = Some pool /\
  In "moonlight" pool /\
  conflicts insertion_order forbidden "moonlight" = false /\
  select_with_antipair_check insertion_order 0 (fingerprint "underwater scene") 1
    pool forbidden = Some "golden hour lighting" /\
  conflicts insertion_order forbidden "golden hour lighting" = true /\
  V2.enhance_prompt insertion_order "underwater scene" 0 two_lights "full" 150
    = Some "golden hour lighting, underwater scene".
Proof.
  cbv zeta. split; [reflexivity |]. split; [right; left; reflexivity |].
  split; [| split; [| split]]; vm_compute; reflexivity.
Qed.

(** C3, amended.  On a pool that is not empty a selection from the pool is
    always returned.  The selection contains a forbidden term only if the
    primary pick (coordinate [i]) and each of the [min(len(pool), 50)]
    alternates looked at (coordinates [1000 + i + attempt]) contain one;
    it is then the primary pick.  So the selection is free of forbidden
    terms whenever the primary pick or one of these alternates is. *)
Theorem antipair_avoidance
        (set_iter : list string -> list string) (seed input_hash category_idx : Z)
        (pool forbidden : list string) :
  pool <> [] ->
  exists selection primary,
    select_with_antipair_check set_iter seed input_hash category_idx pool forbidden
      = Some selection /\
    pick seed input_hash category_idx pool = Some primary /\
    In selection pool /\
    (conflicts set_iter forbidden selection = true ->
     selection = primary /\
     forall attempt, 0 <= attempt < Z.min (len pool) 50 ->
       exists alt,
         pick seed input_hash (category_idx + 1000 + attempt) pool = Some alt /\
         conflicts set_iter forbidden alt = true).
Proof. apply EngineFacts.select_with_antipair_check_spec. Qed.

Lemma antipair_avoidance_witness :
  ["golden hour lighting"; "moonlight"] <> [] /\
  exists selection primary,
    select_with_antipair_check insertion_order 1 7 1 ["golden hour lighting"; "moonlight"]
      ["golden hour"] = Some selection /\
    pick 1 7 1 ["golden hour lighting"; "moonlight"] = Some primary /\
    In selection ["golden hour lighting"; "moonlight"] /\
    (conflicts insertion_order ["golden hour"] selection = true ->
     selection = primary /\
     forall attempt, 0 <= attempt < Z.min (len ["golden hour lighting"; "moonlight"]) 50 ->
       exists alt,
         pick 1 7 (1 + 1000 + attempt) ["golden hour lighting"; "moonlight"] = Some alt /\
         conflicts insertion_order ["golden hour"] alt = true).
Proof.
  assert (H : ["golden hour lighting"; "moonlight"] <> []) by discriminate.
  split; [exact H |].
  exact (antipair_avoidance insertion_order 1 7 1 ["golden hour lighting"; "moonlight"]
           ["golden hour"] H).
Defined.

(** ** Coordinates *)

(** C6, as the claim states it, fails: in [all_conflicting] both gaps need
    retries, and the second retry of category 1 and the first retry of
    category 2 both ask at coordinate 1002. *)
Lemma coordinate_partition_counterexample :
  let run := Trace.enhance_prompt insertion_order "underwater scene" 0 all_conflicting
               "full" 150 in
  In (Trace.FallbackAttempt 1 1, 1002) (snd run) /\
  In (Trace.FallbackAttempt 2 0, 1002) (snd run) /\
  Trace.FallbackAttempt 1 1 <> Trace.FallbackAttempt 2 0.
Proof.
  cbv zeta. split; [| split]; [vm_compute; tauto | vm_compute; tauto | discriminate].
Qed.

(** C6, amended.  In a call on a profile with at most 950 pools, every
    coordinate asked is its own 32-bit value, and two different decisions
    ask at different coordinates unless both are retries of two different
    gap categories [c1 <> c2] with [c1 + a1 = c2 + a2].  So the four layers
    (template, primary picks, retries, gap scores) never meet, and inside the
    template, primary and score layers no coordinate is used twice.  The
    recorded call returns what [enhance_prompt] returns. *)
Theorem coordinate_layers
        (set_iter : list string -> list string) (input_prompt : string) (seed : Z)
        (profile : Profile) (intensity : string) (max_words : Z) :
  enumerates set_iter ->
  (List.length (pools_of profile) <= 950)%nat ->
  let run := Trace.enhance_prompt set_iter input_prompt seed profile intensity max_words in
  fst run = V2.enhance_prompt set_iter input_prompt seed profile intensity max_words /\
  (forall d c, In (d, c) (snd run) -> Z.land c 0xFFFFFFFF = c) /\
  (forall d1 c1 d2 c2,
     In (d1, c1) (snd run) -> In (d2, c2) (snd run) ->
     d1 <> d2 -> c1 = c2 -> fallbacks_of_two_categories d1 d2).
Proof.
  intros Hiter Hpools run.
  pose proof (GapFacts.gaps_of_length set_iter input_prompt seed profile intensity Hiter) as HG.
  pose proof (GapFacts.candidates_of_length set_iter input_prompt profile intensity Hiter) as HC.
  split; [apply TraceFacts.enhance_prompt_result |]. split.
  - intros d c H. apply TraceFacts.enhance_prompt_log in H.
    apply (TraceFacts.well_placed_u32 _ _ (d, c)) in H; [exact H | |]; unfold len; lia.
  - intros d1 c1 d2 c2 H1 H2 Hne Heq.
    apply TraceFacts.enhance_prompt_log in H1, H2.
    apply (TraceFacts.well_placed_separate _ _ (d1, c1) (d2, c2)) in H1; try assumption.
    unfold len. lia.
Qed.

Lemma coordinate_layers_witness :
  enumerates insertion_order /\
  (List.length (pools_of V2.DEFAULT_PROFILE) <= 950)%nat /\
  let run := Trace.enhance_prompt insertion_order "a cat" 42 V2.DEFAULT_PROFILE
               "moderate" 150 in
  fst run = V2.enhance_prompt insertion_order "a cat" 42 V2.DEFAULT_PROFILE "moderate" 150 /\
  (forall d c, In (d, c) (snd run) -> Z.land c 0xFFFFFFFF = c) /\
  (forall d1 c1 d2 c2,
     In (d1, c1) (snd run) -> In (d2, c2) (snd run) ->
     d1 <> d2 -> c1 = c2 -> fallbacks_of_two_categories d1 d2).
Proof.
  assert (H : (List.length (pools_of V2.DEFAULT_PROFILE) <= 950)%nat) by (vm_compute; lia).
  split; [exact GapFacts.insertion_order_enumerates |]. split; [exact H |].
  exact (coordinate_layers insertion_order "a cat" 42 V2.DEFAULT_PROFILE "moderate" 150
           GapFacts.insertion_order_enumerates H).
Defined.

(** ** Token preservation *)




(** ** Empty pools *)

Module PoolFacts.
Import Py.




End PoolFacts.




(* ================================================================== *)
(** * Reference values and the scenarios of the test block *)
(* ================================================================== *)

(** Digests published with xxHash and with its Python binding. *)
Example xxh32_empty : XXH.xxh32 0 [] = 0x02CC5D05.
Proof. vm_compute. reflexivity. Qed.

Example xxh32_empty_seeded : XXH.xxh32 XXH.PRIME32_1 [] = 0x36B78AE7.
Proof. vm_compute. reflexivity. Qed.

Example xxh32_sentence :
  XXH.xxh32 0 (XXH.encode "Nobody inspects the spammish repetition") = 0xE2293B2F.
Proof. vm_compute. reflexivity. Qed.

(** The stages on small inputs. *)
Example tokenize_example :
  tokenize "a cat, b - c  |d, , e | f " = ["a cat"; "b"; "c  |d"; "e"; "f"].
Proof. vm_compute. reflexivity. Qed.

Example safe_format_template_example :
  safe_format_template "{mood} scene, {subject}, {environment}, {style}"
    [("subject", "a cat"); ("mood", ""); ("environment", ""); ("style", "anime")]
  = "a cat, anime".
Proof. vm_compute. reflexivity. Qed.

Example deduplicate_prompt_example :
  deduplicate_prompt insertion_order "a cat, A Cats, dog, big dog house, xyz"
  = "a cat, dog, xyz".
Proof. vm_compute. reflexivity. Qed.

Example enforce_length_limit_example :
  enforce_length_limit "a b, c d" 2 = "a b" /\
  enforce_length_limit "a, , b c d" 2 = "a,".
Proof. split; vm_compute; reflexivity. Qed.

(** The anti-pair test of the V1 file: no conflicting lighting for
    "underwater scene". *)
Example underwater_scenario :
  exists out,
    V1.enhance_prompt insertion_order "underwater scene" 42 "full" 150 = Some out /\
    Py.contains "golden hour" (Py.lower out) = false /\
    Py.contains "sunset" (Py.lower out) = false.
Proof. eexists. split; [| split]; vm_compute; reflexivity. Qed.

(** The trigger test of the V1 file: the prompt is one token of the
    subject category and is kept as it is. *)
Example trigger_scenario :
  exists out,
    V1.enhance_prompt insertion_order "a woman ohwx_person XYZ" 42 "moderate" 150 = Some out /\
    Py.contains "ohwx_person" out = true /\
    Py.contains "XYZ" out = true.
Proof. eexists. split; [| split]; vm_compute; reflexivity. Qed.

(* ================================================================== *)
(** * Further properties: the hash *)
(* ================================================================== *)

Module HashFacts.
Import XXH.

Lemma u32_range (x : Z) : 0 <= u32 x < 2 ^ 32.
Proof. unfold u32. apply Z.mod_pos_bound. reflexivity. Qed.

Lemma lxor_range (n a b : Z) :
  0 < n -> 0 <= a < 2 ^ n -> 0 <= b < 2 ^ n -> 0 <= Z.lxor a b < 2 ^ n.
Proof.
  intros Hn Ha Hb.
  assert (H0 : 0 <= Z.lxor a b) by (apply Z.lxor_nonneg; lia).
  split; [exact H0 |].
  destruct (Z.eq_dec (Z.lxor a b) 0) as [E | E].
  - rewrite E. apply Z.pow_pos_nonneg; lia.
  - apply Z.log2_lt_pow2; [lia |].
    pose proof (Z.log2_lxor a b ltac:(lia) ltac:(lia)) as Hl.
    assert (Hla : Z.log2 a < n).
    { destruct (Z.eq_dec a 0) as [-> | Hne]; [simpl; lia |].
      apply Z.log2_lt_pow2; lia. }
    assert (Hlb : Z.log2 b < n).
    { destruct (Z.eq_dec b 0) as [-> | Hne]; [simpl; lia |].
      apply Z.log2_lt_pow2; lia. }
    lia.
Qed.

Lemma shiftr_range (a k : Z) : 0 <= k -> 0 <= a < 2 ^ 32 -> 0 <= Z.shiftr a k < 2 ^ 32.
Proof.
  intros Hk Ha. rewrite Z.shiftr_div_pow2 by exact Hk.
  assert (0 < 2 ^ k) by (apply Z.pow_pos_nonneg; lia).
  split; [apply Z.div_pos; lia |].
  apply Z.le_lt_trans with a; [| lia].
  apply Z.div_le_upper_bound; [lia |]. nia.
Qed.

Lemma avalanche_range (h : Z) : 0 <= avalanche h < 2 ^ 32.
Proof.
  unfold avalanche. cbv zeta.
  apply lxor_range; [lia | apply u32_range |].
  apply shiftr_range; [lia | apply u32_range].
Qed.

Lemma finalize_range_bounded (n : nat) :
  forall (tail : list Z) (h : Z),
    (List.length tail <= n)%nat -> 0 <= finalize h tail < 2 ^ 32.
Proof.
  induction n as [|n IH]; intros tail h Hlen.
  - destruct tail; [apply avalanche_range | simpl in Hlen; lia].
  - destruct tail as [|b0 [|b1 [|b2 [|b3 rest]]]]; cbn [finalize].
    + apply avalanche_range.
    + apply avalanche_range.
    + apply avalanche_range.
    + apply avalanche_range.
    + apply IH. cbn [List.length] in Hlen. lia.
Qed.

Lemma finalize_range (h : Z) (tail : list Z) : 0 <= finalize h tail < 2 ^ 32.
Proof. apply (finalize_range_bounded (List.length tail)). lia. Qed.

Lemma xxh32_range (seed : Z) (data : list Z) : 0 <= xxh32 seed data < 2 ^ 32.
Proof.
  unfold xxh32. cbv zeta. destruct (16 <=? Z.of_nat (List.length data)).
  - destruct (stripes _ _ _ _ _ _) as [[[[v1 v2] v3] v4] tail]. apply finalize_range.
  - apply finalize_range.
Qed.

Lemma land_u32 (x : Z) : Z.land x 0xFFFFFFFF = x mod 2 ^ 32.
Proof. change 0xFFFFFFFF with (Z.ones 32). apply Z.land_ones. lia. Qed.

Lemma enhancement_hash_seed (seed1 seed2 input_hash coord : Z) :
  seed1 mod 2 ^ 32 = seed2 mod 2 ^ 32 ->
  Core.enhancement_hash seed1 input_hash coord = Core.enhancement_hash seed2 input_hash coord.
Proof. intros H. unfold Core.enhancement_hash. now rewrite !land_u32, H. Qed.

End HashFacts.

Module SeedFacts.
Import Py Core Stages.

Section TwoSeeds.

Variables seed1 seed2 : Z.
Hypothesis Hseed : seed1 mod 2 ^ 32 = seed2 mod 2 ^ 32.

Variable set_iter : list string -> list string.

Lemma pick_seed (input_hash coord : Z) (pool : list string) :
  pick seed1 input_hash coord pool = pick seed2 input_hash coord pool.
Proof. unfold pick. now rewrite (HashFacts.enhancement_hash_seed seed1 seed2). Qed.

Lemma select_gaps_to_fill_seed (input_hash : Z) (gaps : list string) (intensity : string) :
  select_gaps_to_fill seed1 input_hash gaps intensity =
  select_gaps_to_fill seed2 input_hash gaps intensity.
Proof.
  unfold select_gaps_to_fill.
  destruct (Qle_bool 1.0 (rate_of intensity)); [reflexivity |].
  destruct (len gaps <=? num_to_fill gaps (rate_of intensity)); [reflexivity |].
  do 3 f_equal. apply map_ext. intros ig.
  now rewrite (HashFacts.enhancement_hash_seed seed1 seed2).
Qed.

Lemma resolve_conflict_seed (n : nat) (input_hash conflict_coord attempts : Z)
      (pool forbidden : list string) (selection : string) :
  resolve_conflict set_iter n seed1 input_hash conflict_coord attempts pool forbidden selection =
  resolve_conflict set_iter n seed2 input_hash conflict_coord attempts pool forbidden selection.
Proof.
  revert attempts. induction n as [|n IH]; intros attempts; [reflexivity |].
  rewrite !EngineFacts.resolve_conflict_step, pick_seed.
  destruct (pick seed2 _ _ _); [| reflexivity]. now rewrite IH.
Qed.

Lemma select_with_antipair_check_seed (input_hash category_idx : Z)
      (pool forbidden : list string) :
  select_with_antipair_check set_iter seed1 input_hash category_idx pool forbidden =
  select_with_antipair_check set_iter seed2 input_hash category_idx pool forbidden.
Proof.
  rewrite !EngineFacts.select_with_antipair_check_unfold, pick_seed.
  destruct (pick seed2 _ _ _); [| reflexivity]. now rewrite resolve_conflict_seed.
Qed.

Lemma V2_select_enhancements_seed (input_hash : Z) (pools : Dict (list string))
      (forbidden : list string) (gaps : list (Z * string)) (enhancements : Dict string) :
  V2.select_enhancements set_iter seed1 input_hash pools forbidden gaps enhancements =
  V2.select_enhancements set_iter seed2 input_hash pools forbidden gaps enhancements.
Proof.
  revert enhancements. induction gaps as [|[i gap] gaps IH]; intros enhancements;
    [reflexivity |].
  cbn [V2.select_enhancements].
  destruct (lookup gap pools) as [[|p pool]|]; [apply IH | | apply IH].
  rewrite select_with_antipair_check_seed.
  destruct (select_with_antipair_check set_iter seed2 _ _ _ _); [apply IH | reflexivity].
Qed.

Lemma V1_select_enhancements_seed (input_hash : Z) (pools : Dict (list string))
      (forbidden : list string) (gaps : list (Z * string)) (enhancements : Dict string) :
  V1.select_enhancements set_iter seed1 input_hash pools forbidden gaps enhancements =
  V1.select_enhancements set_iter seed2 input_hash pools forbidden gaps enhancements.
Proof.
  revert enhancements. induction gaps as [|[i gap] gaps IH]; intros enhancements;
    [reflexivity |].
  cbn [V1.select_enhancements].
  destruct (lookup gap pools) as [pool|]; [| reflexivity].
  rewrite select_with_antipair_check_seed.
  destruct (select_with_antipair_check set_iter seed2 _ _ _ _); [apply IH | reflexivity].
Qed.

Lemma V2_enhance_prompt_seed (input_prompt : string) (profile : Profile)
      (intensity : string) (max_words : Z) :
  V2.enhance_prompt set_iter input_prompt seed1 profile intensity max_words =
  V2.enhance_prompt set_iter input_prompt seed2 profile intensity max_words.
Proof.
  unfold V2.enhance_prompt. destruct (is_blank input_prompt); [reflexivity |].
  rewrite select_gaps_to_fill_seed, V2_select_enhancements_seed.
  destruct (V2.select_enhancements set_iter seed2 _ _ _ _ _); [| reflexivity].
  rewrite !EngineFacts.select_template_pick, pick_seed. reflexivity.
Qed.

Lemma V1_enhance_prompt_seed (input_prompt : string) (intensity : string) (max_words : Z) :
  V1.enhance_prompt set_iter input_prompt seed1 intensity max_words =
  V1.enhance_prompt set_iter input_prompt seed2 intensity max_words.
Proof.
  unfold V1.enhance_prompt. destruct (is_blank input_prompt); [reflexivity |].
  cbn [classification pools rules anti_pairs templates V1.DEFAULT_PROFILE].
  rewrite select_gaps_to_fill_seed, V1_select_enhancements_seed.
  destruct (V1.select_enhancements set_iter seed2 _ _ _ _ _); [| reflexivity].
  rewrite !EngineFacts.select_template_pick, pick_seed. reflexivity.
Qed.

End TwoSeeds.

End SeedFacts.

(** X1.  The hash is a 32-bit value, whatever integers it is given, and the
    index computed from it for a list that is not empty is a position of
    that list. *)
Theorem hash_is_32_bit (seed input_hash coord : Z) (p : string) (pool : list string) :
  0 <= enhancement_hash seed input_hash coord < 2 ^ 32 /\
  exists idx,
    hash_to_index (enhancement_hash seed input_hash coord) (len (p :: pool)) = Some idx /\
    0 <= idx < len (p :: pool).
Proof.
  split; [apply HashFacts.xxh32_range |].
  assert (Hp : p :: pool <> []) by discriminate.
  exists (enhancement_hash seed input_hash coord mod len (p :: pool)).
  split; [now apply EngineFacts.hash_to_index_Some |].
  apply Z.mod_pos_bound. now apply EngineFacts.len_nonzero.
Qed.

(** X2.  Only the low 32 bits of the seed count: two seeds that differ by a
    multiple of [2^32], negative ones included, give the same result in both
    variants. *)
Theorem seed_wraps_at_32_bits
        (set_iter : list string -> list string) (input_prompt : string) (seed n : Z)
        (profile : Profile) (intensity : string) (max_words : Z) :
  V2.enhance_prompt set_iter input_prompt (seed + n * 2 ^ 32) profile intensity max_words =
  V2.enhance_prompt set_iter input_prompt seed profile intensity max_words /\
  V1.enhance_prompt set_iter input_prompt (seed + n * 2 ^ 32) intensity max_words =
  V1.enhance_prompt set_iter input_prompt seed intensity max_words.
Proof.
  assert (H : (seed + n * 2 ^ 32) mod 2 ^ 32 = seed mod 2 ^ 32)
    by (apply Z.mod_add; discriminate).
  split.
  - now apply SeedFacts.V2_enhance_prompt_seed.
  - now apply SeedFacts.V1_enhance_prompt_seed.
Qed.

(* ================================================================== *)
(** * Further properties: tokens and buckets *)
(* ================================================================== *)

Module SeparatorFacts.
Import Py Spec Shape StrFacts ShapeFacts StageFacts Core TokenFacts.

Local Open Scope string_scope.












End SeparatorFacts.

Module BucketFacts.
Import Py Spec Core Buckets TokenFacts.

Local Open Scope string_scope.

Lemma dict_set_keys {A : Type} (k : string) (v : A) (d : Dict A) :
  lookup k d <> None -> map fst (dict_set k v d) = map fst d.
Proof.
  induction d as [|[k0 v0] d IH]; cbn [lookup dict_set map fst]; [contradiction |].
  destruct (String.eqb k k0) eqn:E; intros H.
  - apply String.eqb_eq in E. now subst k0.
  - cbn [map fst]. now rewrite IH.
Qed.

Lemma append_token_keys (d : Dict (list string)) (cat token : string) :
  map fst (append_token d cat token) = map fst d.
Proof.
  unfold append_token. destruct (lookup cat d) as [b|] eqn:E; [| reflexivity].
  apply dict_set_keys. now rewrite E.
Qed.

Lemma lookup_keys {A : Type} (k : string) (d : Dict A) :
  lookup k d <> None <-> In k (map fst d).
Proof.
  induction d as [|[k0 v0] d IH]; cbn [lookup map fst In].
  - split; [intros H; now contradiction H | intros []].
  - destruct (String.eqb k k0) eqn:E.
    + apply String.eqb_eq in E. subst k0. split; [now left | discriminate].
    + rewrite IH. split; [now right | intros [H | H]; [| exact H]].
      subst k0. now rewrite String.eqb_refl in E.
Qed.

Lemma append_token_where (d : Dict (list string)) (cat token k t : string) :
  In t (bucket k (append_token d cat token)) ->
  In t (bucket k d) \/ (t = token /\ k = cat).
Proof.
  unfold append_token, bucket. destruct (lookup cat d) as [b|] eqn:E; [| now left].
  rewrite lookup_dict_set. destruct (String.eqb k cat) eqn:Ek; [| now left].
  apply String.eqb_eq in Ek. subst k. rewrite E. intros H.
  apply in_app_or in H as [H | [H | []]]; [now left | right; now split].
Qed.

Section Classified.

Variable classification : Dict ClassRule.

Lemma cats_fold_keys (cats : list string) (d : Dict (list string)) (token : string) :
  map fst (fold_left (fun d cat => append_token d cat token) cats d) = map fst d.
Proof.
  revert d. induction cats as [|c cats IH]; intros d; [reflexivity |].
  cbn [fold_left]. now rewrite IH, append_token_keys.
Qed.

Lemma tokens_fold_keys (tokens : list string) (d : Dict (list string)) :
  map fst (fold_left (classify_step classification) tokens d) = map fst d.
Proof.
  revert d. induction tokens as [|x tokens IH]; intros d; [reflexivity |].
  cbn [fold_left]. rewrite IH. apply cats_fold_keys.
Qed.

Lemma cats_fold_where (cats : list string) (d : Dict (list string)) (token k t : string) :
  In t (bucket k (fold_left (fun d cat => append_token d cat token) cats d)) ->
  In t (bucket k d) \/ (t = token /\ In k cats).
Proof.
  revert d. induction cats as [|c cats IH]; intros d H; [now left |].
  cbn [fold_left] in H. apply IH in H as [H | [-> H]]; [| right; split; [reflexivity | now right]].
  apply append_token_where in H as [H | [-> ->]]; [now left | right; split; [reflexivity | now left]].
Qed.

Lemma cats_fold_there (cats : list string) (d : Dict (list string)) (token k : string) :
  lookup k d <> None -> In k cats ->
  In token (bucket k (fold_left (fun d cat => append_token d cat token) cats d)).
Proof.
  revert d. induction cats as [|c cats IH]; intros d Hk Hin; [destruct Hin |].
  cbn [fold_left]. destruct Hin as [-> | Hin].
  - apply cats_fold_mono. now apply append_token_same.
  - apply IH; [| exact Hin]. now apply append_token_key.
Qed.

Lemma tokens_fold_where (tokens : list string) (d : Dict (list string)) (k t : string) :
  In t (bucket k (fold_left (classify_step classification) tokens d)) ->
  In t (bucket k d) \/ (In t tokens /\ In k (classify_token_multi t classification)).
Proof.
  revert d. induction tokens as [|x tokens IH]; intros d H; [now left |].
  cbn [fold_left] in H. apply IH in H as [H | [H1 H2]].
  - apply cats_fold_where in H as [H | [-> H]]; [now left |].
    right. split; [now left | exact H].
  - right. split; [now right | exact H2].
Qed.

Lemma tokens_fold_there (tokens : list string) (d : Dict (list string)) (k t : string) :
  lookup k d <> None -> In t tokens -> In k (classify_token_multi t classification) ->
  In t (bucket k (fold_left (classify_step classification) tokens d)).
Proof.
  revert d. induction tokens as [|x tokens IH]; intros d Hk Hin Hc; [destruct Hin |].
  cbn [fold_left]. destruct Hin as [-> | Hin].
  - apply tokens_fold_mono. unfold classify_step. now apply cats_fold_there.
  - apply IH; [| exact Hin | exact Hc]. now apply cats_fold_key.
Qed.

End Classified.

Lemma bucket_key (k t : string) (d : Dict (list string)) :
  In t (bucket k d) -> In k (map fst d).
Proof.
  unfold bucket. intros H. apply lookup_keys. destruct (lookup k d); [discriminate | destruct H].
Qed.

End BucketFacts.



(** X4.  The buckets of the classification.  The keys are the eight categories
    and "unclassified", in this order, whatever the tokens and the rules
    are.  A token is in the bucket of a key exactly if it is a token of the
    prompt and the key is one of the categories [classify_token_multi]
    gives it; so a token whose only categories are outside the nine keys is
    in no bucket at all. *)
Theorem classified_buckets (tokens : list string) (classification : Dict ClassRule) :
  map fst (classify_all_tokens tokens classification) =
    (ORDERED_CATEGORIES ++ ["unclassified"])%list /\
  (forall k t,
     In t (Buckets.bucket k (classify_all_tokens tokens classification)) <->
     In t tokens /\
     In k (classify_token_multi t classification) /\
     In k (ORDERED_CATEGORIES ++ ["unclassified"])%list) /\
  (forall t,
     (forall k, In k (classify_token_multi t classification) ->
                ~ In k (ORDERED_CATEGORIES ++ ["unclassified"])%list) ->
     forall k, ~ In t (Buckets.bucket k (classify_all_tokens tokens classification))).
Proof.
  rewrite TokenFacts.classify_all_tokens_fold.
  set (init := (map (fun cat => (cat, [])) ORDERED_CATEGORIES ++ [("unclassified", [])])%list).
  assert (Hkeys : map fst (fold_left (Buckets.classify_step classification) tokens init) =
                  (ORDERED_CATEGORIES ++ ["unclassified"])%list)
    by (now rewrite BucketFacts.tokens_fold_keys).
  assert (Hinit : forall k, Buckets.bucket k init = []).
  { intros k. unfold Buckets.bucket.
    assert (Hall : Forall (fun kv : string * list string => snd kv = []) init)
      by (repeat constructor).
    clear Hkeys. induction init as [|[k0 v0] d IH]; [reflexivity |].
    inversion Hall as [|? ? Hv Hd]; subst. cbn [snd] in Hv. subst v0.
    cbn [Py.lookup]. destruct (String.eqb k k0); [reflexivity | now apply IH]. }
  assert (Hiff : forall k t,
     In t (Buckets.bucket k (fold_left (Buckets.classify_step classification) tokens init)) <->
     In t tokens /\
     In k (classify_token_multi t classification) /\
     In k (ORDERED_CATEGORIES ++ ["unclassified"])%list).
  { intros k t. split.
    - intros H. pose proof (BucketFacts.bucket_key _ _ _ H) as Hk. rewrite Hkeys in Hk.
      apply BucketFacts.tokens_fold_where in H as [H | [H1 H2]].
      + rewrite Hinit in H. destruct H.
      + now repeat split.
    - intros (H1 & H2 & H3). apply BucketFacts.tokens_fold_there; try assumption.
      apply BucketFacts.lookup_keys. exact H3. }
  split; [exact Hkeys |]. split; [exact Hiff |].
  intros t Hout k H. apply Hiff in H as (_ & H2 & H3). exact (Hout k H2 H3).
Qed.

(* ================================================================== *)
(** * Further properties: gaps and selections *)
(* ================================================================== *)

Module SetFacts.
Import Py Spec Core SortFacts.

Lemma NoDup_to_set (l : list string) : NoDup (to_set l).
Proof.
  induction l as [|x l IH]; cbn [to_set]; constructor.
  - intros H. apply filter_In in H as [_ H]. now rewrite String.eqb_refl in H.
  - now apply NoDup_filter.
Qed.

Lemma insert_sorted_sorted (x : string) (l : list string) :
  StronglySorted (fun a b => String.leb a b = true) l ->
  StronglySorted (fun a b => String.leb a b = true) (insert_sorted x l).
Proof.
  induction l as [|y l IH]; intros H; cbn [insert_sorted].
  - repeat constructor.
  - inversion H as [|? ? Hl Hy]; subst. destruct (String.leb x y) eqn:E.
    + constructor; [exact H |]. constructor; [exact E |].
      rewrite Forall_forall in *. intros z Hz. apply (leb_trans x y z E). now apply Hy.
    + constructor; [now apply IH |].
      apply (Permutation_Forall (Permutation_sym (insert_sorted_perm x l))).
      constructor; [now apply leb_false | exact Hy].
Qed.

Lemma sorted_sorted (l : list string) :
  StronglySorted (fun a b => String.leb a b = true) (sorted l).
Proof.
  induction l as [|x l IH]; [constructor |]. cbn [sorted fold_right].
  now apply insert_sorted_sorted.
Qed.

Lemma find_gaps_spec (set_iter : list string -> list string)
      (classified pools : Dict (list string)) (g : string) :
  enumerates set_iter ->
  (In g (find_gaps set_iter classified pools) <->
   In g (map fst pools) /\ ~ In g (map fst (filter is_present classified))).
Proof.
  intros Hiter. unfold find_gaps. rewrite sorted_In. split.
  - intros H. apply (Permutation_in _ (Hiter _)) in H. apply filter_In in H as [H1 H2].
    split; [exact (proj1 (to_set_In _ _) H1) |].
    intros H3. apply (proj2 (to_set_In _ _)) in H3. apply (proj2 (mem_In _ _)) in H3.
    now rewrite H3 in H2.
  - intros [H1 H2]. apply (Permutation_in _ (Permutation_sym (Hiter _))).
    apply filter_In. split; [exact (proj2 (to_set_In _ _) H1) |].
    destruct (mem g (to_set (map fst (filter is_present classified)))) eqn:E; [| reflexivity].
    apply (proj1 (mem_In _ _)) in E. apply (proj1 (to_set_In _ _)) in E. contradiction.
Qed.

Lemma find_gaps_NoDup (set_iter : list string -> list string)
      (classified pools : Dict (list string)) :
  enumerates set_iter -> NoDup (find_gaps set_iter classified pools).
Proof.
  intros Hiter. unfold find_gaps.
  apply (Permutation_NoDup (Permutation_sym (sorted_perm _))).
  apply (Permutation_NoDup (Permutation_sym (Hiter _))).
  apply NoDup_filter, NoDup_to_set.
Qed.

Lemma rule_allows (rules : Rules) (intensity g : string) :
  (if mem g (mandatory rules) then true
   else if mem g (standard rules) then true
   else if mem g (optional rules) then mem intensity ["moderate"; "full"]
   else false) = true ->
  In g (mandatory rules) \/ In g (standard rules) \/
  (In g (optional rules) /\ (intensity = "moderate" \/ intensity = "full"))%string.
Proof.
  destruct (mem g (mandatory rules)) eqn:E1; [intros _; left; exact (proj1 (mem_In _ _) E1) |].
  destruct (mem g (standard rules)) eqn:E2; [intros _; right; left; exact (proj1 (mem_In _ _) E2) |].
  destruct (mem g (optional rules)) eqn:E3; [| discriminate].
  intros H. right. right. split; [exact (proj1 (mem_In _ _) E3) |].
  apply (proj1 (mem_In _ _)) in H. destruct H as [H | [H | []]]; [left | right]; now symmetry.
Qed.

End SetFacts.

Module SelectFacts.
Import Py Spec Core Stages SortFacts TokenFacts.

Section Selections.

Variable set_iter : list string -> list string.

Lemma V2_select_enhancements_lookup (seed input_hash : Z) (pools : Dict (list string))
      (forbidden : list string) (gaps : list (Z * string)) :
  forall (enhancements result : Dict string) (g sel : string),
    V2.select_enhancements set_iter seed input_hash pools forbidden gaps enhancements
      = Some result ->
    lookup g result = Some sel ->
    lookup g enhancements = Some sel \/
    (In g (map snd gaps) /\
     exists p pool, lookup g pools = Some (p :: pool) /\ In sel (p :: pool)).
Proof.
  induction gaps as [|[i gap] gaps IH]; intros enhancements result g sel Hrun Hg.
  - cbn [V2.select_enhancements] in Hrun. injection Hrun as <-. now left.
  - cbn [V2.select_enhancements] in Hrun.
    assert (Hrest : forall e,
              V2.select_enhancements set_iter seed input_hash pools forbidden gaps e
                = Some result ->
              lookup g e = Some sel \/
              (In g (map snd ((i, gap) :: gaps)) /\
               exists p pool, lookup g pools = Some (p :: pool) /\ In sel (p :: pool))).
    { intros e He. destruct (IH e result g sel He Hg) as [H | [H1 H2]]; [now left |].
      right. split; [now right | exact H2]. }
    destruct (lookup gap pools) as [[|p pool]|] eqn:Epool;
      [exact (Hrest _ Hrun) | | exact (Hrest _ Hrun)].
    assert (Hne : p :: pool <> []) by discriminate.
    destruct (EngineFacts.select_with_antipair_check_spec set_iter seed input_hash (i + 1)
                (p :: pool) forbidden Hne) as (s & primary & Hs & _ & Hin & _).
    rewrite Hs in Hrun. destruct (Hrest _ Hrun) as [H | H]; [| now right].
    rewrite lookup_dict_set in H. destruct (String.eqb g gap) eqn:E; [| now left].
    apply String.eqb_eq in E. subst gap. injection H as <-.
    right. split; [now left |]. exists p, pool. now split.
Qed.

End Selections.

(** ** The number of hash evaluations *)

Lemma bind_snd {A B : Type} (m : Trace.Traced A) (f : A -> Trace.Traced B) :
  snd (Trace.bind m f) =
  match fst m with
  | Some a => (snd m ++ snd (f a))%list
  | None => snd m
  end.
Proof. unfold Trace.bind. destruct (fst m); reflexivity. Qed.

Section Budget.

Variable set_iter : list string -> list string.

Lemma resolve_conflict_budget (n : nat) (seed input_hash category_idx conflict_coord attempts : Z)
      (pool forbidden : list string) (selection : string) :
  (List.length (snd (Trace.resolve_conflict set_iter n seed input_hash category_idx
                       conflict_coord attempts pool forbidden selection)) <= n)%nat.
Proof.
  revert attempts. induction n as [|n IH]; intros attempts; [cbn; lia |].
  cbn [Trace.resolve_conflict]. rewrite bind_snd. cbn [Trace.hash_at fst snd].
  rewrite bind_snd. cbn [Trace.lift fst snd].
  destruct (hash_to_index _ _) as [alt_idx|]; [| cbn; lia].
  rewrite bind_snd. cbn [Trace.lift fst snd].
  destruct (item pool alt_idx) as [alt|]; [| cbn; lia].
  destruct (negb (conflicts set_iter forbidden alt)); [cbn; lia |].
  cbn [app List.length]. specialize (IH (attempts + 1)). lia.
Qed.

Lemma select_with_antipair_check_budget (seed input_hash category_idx : Z)
      (pool forbidden : list string) :
  let run := Trace.select_with_antipair_check set_iter seed input_hash category_idx
               pool forbidden in
  (1 <= List.length (snd run) <= 1 + Z.to_nat (Z.min (len pool) 50))%nat.
Proof.
  cbv zeta. unfold Trace.select_with_antipair_check.
  rewrite bind_snd. cbn [Trace.hash_at fst snd].
  rewrite bind_snd. cbn [Trace.lift fst snd].
  destruct (hash_to_index _ _) as [idx|]; [| cbn; lia].
  rewrite bind_snd. cbn [Trace.lift fst snd].
  destruct (item pool idx) as [selection|]; [| cbn; lia].
  destruct (conflicts set_iter forbidden selection); [| cbn; lia].
  cbn [app List.length].
  pose proof (resolve_conflict_budget (Z.to_nat (Z.min (len pool) 50)) seed input_hash
                category_idx (category_idx + 1000) 0 pool forbidden selection) as H.
  lia.
Qed.

Lemma select_with_antipair_check_free (seed input_hash category_idx : Z)
      (pool forbidden : list string) :
  set_iter forbidden = [] ->
  snd (Trace.select_with_antipair_check set_iter seed input_hash category_idx pool forbidden)
    = [(Trace.PrimaryPick category_idx, category_idx)] /\
  select_with_antipair_check set_iter seed input_hash category_idx pool forbidden
    = pick seed input_hash category_idx pool.
Proof.
  intros Hempty.
  assert (Hfree : forall s, conflicts set_iter forbidden s = false)
    by (intros s; unfold conflicts; now rewrite Hempty).
  split.
  - unfold Trace.select_with_antipair_check.
    rewrite bind_snd. cbn [Trace.hash_at fst snd].
    rewrite bind_snd. cbn [Trace.lift fst snd].
    destruct (hash_to_index _ _) as [idx|]; [| reflexivity].
    rewrite bind_snd. cbn [Trace.lift fst snd].
    destruct (item pool idx) as [selection|]; [| reflexivity].
    rewrite Hfree. reflexivity.
  - rewrite EngineFacts.select_with_antipair_check_unfold.
    destruct (pick seed input_hash category_idx pool); [| reflexivity]. now rewrite Hfree.
Qed.

End Budget.

End SelectFacts.

(** X5.  The gaps are the pool names that no token of the user fills: a
    name is a gap exactly if it is a key of the pools and not the key of a
    bucket with tokens ("unclassified" apart).  The list has no duplicate and
    is in ascending order, whatever the order in which the set is
    enumerated. *)
Theorem find_gaps_characterised
        (set_iter : list string -> list string) (classified pools : Dict (list string)) :
  enumerates set_iter ->
  (forall g,
     In g (find_gaps set_iter classified pools) <->
     In g (map fst pools) /\ ~ In g (map fst (filter is_present classified))) /\
  NoDup (find_gaps set_iter classified pools) /\
  StronglySorted (fun a b => String.leb a b = true) (find_gaps set_iter classified pools).
Proof.
  intros Hiter. split; [| split].
  - intros g. now apply SetFacts.find_gaps_spec.
  - now apply SetFacts.find_gaps_NoDup.
  - unfold find_gaps. apply SetFacts.sorted_sorted.
Qed.

Lemma find_gaps_characterised_witness :
  enumerates (@rev string) /\
  (forall g,
     In g (find_gaps (@rev string) [("style", ["oil painting"]); ("mood", [])]
             [("style", ["a"]); ("mood", ["b"]); ("camera", ["c"])]) <->
     In g (map fst [("style", ["a"]); ("mood", ["b"]); ("camera", ["c"])]) /\
     ~ In g (map fst (filter is_present [("style", ["oil painting"]); ("mood", [])]))) /\
  NoDup (find_gaps (@rev string) [("style", ["oil painting"]); ("mood", [])]
           [("style", ["a"]); ("mood", ["b"]); ("camera", ["c"])]) /\
  StronglySorted (fun a b => String.leb a b = true)
    (find_gaps (@rev string) [("style", ["oil painting"]); ("mood", [])]
       [("style", ["a"]); ("mood", ["b"]); ("camera", ["c"])]).
Proof.
  split; [exact GapFacts.rev_enumerates |].
  exact (find_gaps_characterised (@rev string) [("style", ["oil painting"]); ("mood", [])]
           [("style", ["a"]); ("mood", ["b"]); ("camera", ["c"])] GapFacts.rev_enumerates).
Defined.

(** X6.  Where an enhancement comes from.  A call computes its table of
    enhancements without raising, and every entry of the table is a phrase
    of the pool of its category; the category has no token of the user, and
    the rules list it as mandatory or standard, or as optional when the
    intensity is "moderate" or "full".  A pool that no rule lists is never
    drawn from. *)
Theorem enhancements_from_allowed_pools
        (set_iter : list string -> list string) (input_prompt : string) (seed : Z)
        (profile : Profile) (intensity : string) :
  enumerates set_iter ->
  exists enhancements,
    enhancements_of set_iter input_prompt seed profile intensity = Some enhancements /\
    forall category selection,
      Py.lookup category enhancements = Some selection ->
      (exists pool,
         Py.lookup category (pools_of profile) = Some pool /\ In selection pool) /\
      ~ In category (map fst (filter is_present (classified_of input_prompt profile))) /\
      (In category (mandatory (V2.get (rules profile) V2.DEFAULT_RULES)) \/
       In category (standard (V2.get (rules profile) V2.DEFAULT_RULES)) \/
       (In category (optional (V2.get (rules profile) V2.DEFAULT_RULES)) /\
        (intensity = "moderate" \/ intensity = "full"))%string).
Proof.
  intros Hiter. unfold enhancements_of.
  destruct (EngineFacts.V2_select_enhancements_total set_iter seed (fingerprint input_prompt)
              (pools_of profile) (forbidden_of input_prompt profile)
              (Py.enumerate (Py.sorted (gaps_of set_iter input_prompt seed profile intensity)))
              []) as [e He].
  exists e. split; [exact He |]. intros category selection Hsel.
  destruct (SelectFacts.V2_select_enhancements_lookup set_iter _ _ _ _ _ _ _ _ _ He Hsel)
    as [H | [Hgap (p & pool & Hpool & Hin)]]; [discriminate |].
  split; [exists (p :: pool); now split |].
  apply in_map_iff in Hgap as ([i g] & Hg & Hgap). cbn [snd] in Hg. subst g.
  apply SortFacts.enumerate_In in Hgap. apply (proj1 (SortFacts.sorted_In _ _)) in Hgap.
  unfold gaps_of in Hgap. apply GapFacts.select_gaps_to_fill_In in Hgap.
  unfold candidates_of, apply_category_rules in Hgap. apply filter_In in Hgap as [Hgap Hrule].
  split.
  - now apply (SetFacts.find_gaps_spec set_iter _ _ category Hiter) in Hgap.
  - now apply SetFacts.rule_allows.
Qed.

Lemma enhancements_from_allowed_pools_witness :
  enumerates insertion_order /\
  exists enhancements,
    enhancements_of insertion_order "a cat" 42 V2.DEFAULT_PROFILE "full" = Some enhancements /\
    forall category selection,
      Py.lookup category enhancements = Some selection ->
      (exists pool,
         Py.lookup category (pools_of V2.DEFAULT_PROFILE) = Some pool /\ In selection pool) /\
      ~ In category
          (map fst (filter is_present (classified_of "a cat" V2.DEFAULT_PROFILE))) /\
      (In category (mandatory (V2.get (rules V2.DEFAULT_PROFILE) V2.DEFAULT_RULES)) \/
       In category (standard (V2.get (rules V2.DEFAULT_PROFILE) V2.DEFAULT_RULES)) \/
       (In category (optional (V2.get (rules V2.DEFAULT_PROFILE) V2.DEFAULT_RULES)) /\
        ("full" = "moderate" \/ "full" = "full"))%string).
Proof.
  split; [exact GapFacts.insertion_order_enumerates |].
  exact (enhancements_from_allowed_pools insertion_order "a cat" 42 V2.DEFAULT_PROFILE "full"
           GapFacts.insertion_order_enumerates).
Defined.

(** X7.  The retry loop is bounded.  Choosing the phrase of one gap
    evaluates the hash at least once and at most [1 + min(len(pool), 50)]
    times, so never more than 51 times; the recorded run returns what the
    plain one returns. *)
Theorem retry_budget
        (set_iter : list string -> list string) (seed input_hash category_idx : Z)
        (pool forbidden : list string) :
  let run := Trace.select_with_antipair_check set_iter seed input_hash category_idx
               pool forbidden in
  fst run = select_with_antipair_check set_iter seed input_hash category_idx pool forbidden /\
  (1 <= List.length (snd run) <= 1 + Z.to_nat (Z.min (len pool) 50))%nat /\
  (List.length (snd run) <= 51)%nat.
Proof.
  cbv zeta. split; [apply TraceFacts.select_with_antipair_check_result |].
  pose proof (SelectFacts.select_with_antipair_check_budget set_iter seed input_hash
                category_idx pool forbidden) as H.
  cbv zeta in H. split; [exact H | lia].
Qed.

(** X8.  With nothing forbidden there is no retry: the selection is the
    entry the hash addresses at the coordinate of the category, and the hash
    is evaluated once, at that coordinate. *)
Theorem no_forbidden_term_no_retry
        (set_iter : list string -> list string) (seed input_hash category_idx : Z)
        (pool : list string) :
  enumerates set_iter ->
  select_with_antipair_check set_iter seed input_hash category_idx pool []
    = pick seed input_hash category_idx pool /\
  snd (Trace.select_with_antipair_check set_iter seed input_hash category_idx pool [])
    = [(Trace.PrimaryPick category_idx, category_idx)].
Proof.
  intros Hiter.
  assert (Hempty : set_iter [] = []) by (apply Permutation_nil, Permutation_sym, Hiter).
  destruct (SelectFacts.select_with_antipair_check_free set_iter seed input_hash category_idx
              pool [] Hempty) as [H1 H2].
  split; [exact H2 | exact H1].
Qed.

Lemma no_forbidden_term_no_retry_witness :
  enumerates insertion_order /\
  select_with_antipair_check insertion_order 1 7 1 ["golden hour lighting"; "moonlight"] []
    = pick 1 7 1 ["golden hour lighting"; "moonlight"] /\
  snd (Trace.select_with_antipair_check insertion_order 1 7 1
         ["golden hour lighting"; "moonlight"] [])
    = [(Trace.PrimaryPick 1, 1)].
Proof.
  split; [exact GapFacts.insertion_order_enumerates |].
  exact (no_forbidden_term_no_retry insertion_order 1 7 1 ["golden hour lighting"; "moonlight"]
           GapFacts.insertion_order_enumerates).
Defined.

(* ================================================================== *)
(** * Further properties: the text stages *)
(* ================================================================== *)

Module DedupFacts.
Import Py Spec Shape StrFacts ShapeFacts StageFacts Core TokenFacts.

Local Open Scope string_scope.

Lemma segments_join (l : list string) : Forall segment l -> segments (join ", " l) = l.
Proof.
  intros H. destruct l as [|t l]; [reflexivity |].
  inversion H as [|? ? Ht Hl]; subst.
  assert (Hone : segments t = [t]).
  { destruct Ht as (Hne & Hnc & Hs). unfold segments.
    rewrite (split_on_comma_free t Hnc). cbn [map filter]. rewrite Hs.
    apply nonempty_true in Hne. now rewrite Hne. }
  destruct l as [|t' l]; [exact Hone |].
  rewrite join_cons2.
  change (t ++ ", " ++ join ", " (t' :: l))
    with (t ++ String "," (String " " (join ", " (t' :: l)))).
  rewrite segments_app, Hone, segments_joined; [reflexivity | exact Hl | discriminate].
Qed.

Section Dedup.

Variable set_iter : list string -> list string.

Lemma is_duplicate_seen (seen_stems : list string) (stem : string) :
  is_duplicate set_iter seen_stems stem = false -> mem stem seen_stems = false.
Proof.
  unfold is_duplicate. destruct (mem stem seen_stems); [| reflexivity].
  cbn [negb andb]. discriminate.
Qed.

Lemma dedup_step_eq (seen fin : list string) (t : string) :
  dedup_step set_iter (seen, fin) t =
  if is_duplicate set_iter seen (stem_of t) then (seen, fin)
  else ((seen ++ [stem_of t])%list, (fin ++ [t])%list).
Proof. reflexivity. Qed.

(** The tokens the loop keeps are kept again, in the same states, when the
    loop runs on them alone. *)
Lemma dedup_fold_kept (l : list string) :
  forall seen fin,
    exists kept,
      snd (fold_left (dedup_step set_iter) l (seen, fin)) = (fin ++ kept)%list /\
      forall fin0,
        fold_left (dedup_step set_iter) kept (seen, fin0) =
        (fst (fold_left (dedup_step set_iter) l (seen, fin)), (fin0 ++ kept)%list).
Proof.
  induction l as [|t l IH]; intros seen fin.
  - exists []. cbn [fold_left fst snd]. split; [now rewrite List.app_nil_r |].
    intros fin0. now rewrite List.app_nil_r.
  - cbn [fold_left]. rewrite dedup_step_eq.
    destruct (is_duplicate set_iter seen (stem_of t)) eqn:E.
    + apply IH.
    + destruct (IH (seen ++ [stem_of t])%list (fin ++ [t])%list) as (kept & H1 & H2).
      exists (t :: kept). split.
      * rewrite H1, <- List.app_assoc. reflexivity.
      * intros fin0. cbn [fold_left]. rewrite dedup_step_eq, E.
        rewrite H2, <- List.app_assoc. reflexivity.
Qed.

Lemma final_tokens_fixed (prompt : string) :
  final_tokens set_iter (deduplicate_prompt set_iter prompt) = final_tokens set_iter prompt.
Proof.
  unfold deduplicate_prompt. unfold final_tokens at 1.
  rewrite (segments_join _ (final_tokens_segments set_iter prompt)).
  unfold final_tokens.
  destruct (dedup_fold_kept (segments prompt) [] []) as (kept & H1 & H2).
  rewrite H1. cbn [app]. now rewrite (H2 []).
Qed.

(** The loop keeps [seen_stems] equal to the stems of the tokens kept, and
    free of duplicates. *)
Lemma dedup_fold_stems (l : list string) :
  forall seen fin,
    seen = map stem_of fin -> NoDup seen ->
    fst (fold_left (dedup_step set_iter) l (seen, fin)) =
      map stem_of (snd (fold_left (dedup_step set_iter) l (seen, fin))) /\
    NoDup (fst (fold_left (dedup_step set_iter) l (seen, fin))).
Proof.
  induction l as [|t l IH]; intros seen fin Hseen Hnd; [now split |].
  cbn [fold_left]. rewrite dedup_step_eq.
  destruct (is_duplicate set_iter seen (stem_of t)) eqn:E; [now apply IH |].
  apply IH.
  - rewrite map_app, Hseen. reflexivity.
  - apply is_duplicate_seen in E.
    apply NoDup_app; [exact Hnd | repeat constructor; intros [] |].
    intros x Hx [<- | []]. apply (proj2 (SortFacts.mem_In _ _)) in Hx. now rewrite Hx in E.
Qed.

Lemma final_tokens_stems (prompt : string) :
  NoDup (map stem_of (final_tokens set_iter prompt)).
Proof.
  unfold final_tokens.
  destruct (dedup_fold_stems (segments prompt) [] [] eq_refl (NoDup_nil _)) as [H1 H2].
  now rewrite <- H1.
Qed.

End Dedup.

Lemma NoDup_map_outer {A B C : Type} (f : A -> B) (g : B -> C) (l : list A) :
  NoDup (map (fun x => g (f x)) l) -> NoDup (map f l).
Proof.
  induction l as [|x l IH]; cbn [map]; intros H; [constructor |].
  inversion H as [|? ? Hx Hl]; subst. constructor; [| now apply IH].
  intros Hin. apply Hx. apply in_map_iff in Hin as (y & Hy & Hin).
  apply in_map_iff. exists y. split; [now rewrite Hy | exact Hin].
Qed.

End DedupFacts.

Module StemFacts.
Import Py Core.

Local Open Scope string_scope.

Lemma substring_all (s : string) : String.substring 0 (String.length s) s = s.
Proof. induction s as [|c s IH]; [reflexivity |]. cbn [String.length String.substring]. now rewrite IH. Qed.





End StemFacts.

(** X9.  After [safe_format_template] no two commas are left side by side
    or with one blank between them, whatever the template and the components
    are: the rounds of the final loop are enough to remove them all. *)
Theorem formatted_has_no_double_comma (template : string) (components : Dict string) :
  Py.contains ",," (safe_format_template template components) = false /\
  Py.contains ", ," (safe_format_template template components) = false.
Proof. apply FormatFacts.safe_format_template_no_double. Qed.

(** X10.  Merging adds the unclassified tokens of the prompt as segments of
    their own, in their order, after the segments of the formatted text:
    none of them melts into a neighbour or is split. *)
Theorem merged_segments (input_prompt enhanced : string) (classification : Dict ClassRule) :
  let unclassified :=
    unclassified_of (classify_all_tokens (tokenize input_prompt) classification) in
  segments (merge_with_unclassified enhanced unclassified) =
  (segments enhanced ++ unclassified)%list.
Proof.
  cbv zeta. apply TokenFacts.segments_merged.
  apply Forall_forall. intros t Ht. apply TokenFacts.unclassified_sound in Ht.
  pose proof (TokenFacts.tokenize_segments input_prompt) as H.
  rewrite Forall_forall in H. now apply H.
Qed.

(** X11.  Deduplication is idempotent: a prompt that went through
    [deduplicate_prompt] comes out of it unchanged. *)
Theorem deduplicate_prompt_idempotent
        (set_iter : list string -> list string) (prompt : string) :
  deduplicate_prompt set_iter (deduplicate_prompt set_iter prompt) =
  deduplicate_prompt set_iter prompt.
Proof.
  unfold deduplicate_prompt at 1. rewrite DedupFacts.final_tokens_fixed. reflexivity.
Qed.

(** X12.  The segments that deduplication keeps have pairwise different
    stems, hence differ pairwise even when case is ignored, and each of them
    is a segment of the prompt. *)
Theorem kept_segments_differ (set_iter : list string -> list string) (prompt : string) :
  NoDup (map stem_of (final_tokens set_iter prompt)) /\
  NoDup (map Py.lower (final_tokens set_iter prompt)) /\
  NoDup (final_tokens set_iter prompt) /\
  (forall t, In t (final_tokens set_iter prompt) -> In t (segments prompt)).
Proof.
  pose proof (DedupFacts.final_tokens_stems set_iter prompt) as H.
  split; [exact H |]. split; [| split].
  - exact (DedupFacts.NoDup_map_outer Py.lower (strip_suffix ["ing"; "ed"; "ly"; "s"]) _ H).
  - exact (NoDup_map_inv _ _ H).
  - intros t. apply StageFacts.final_tokens_subset.
Qed.



(* ================================================================== *)
(** * Further properties: profiles and nodes *)
(* ================================================================== *)

Module HostFacts.
Import Py Spec Core Host TokenFacts.

Local Open Scope string_scope.

(** ** Dict updates *)

Lemma dict_update_cons {A : Type} (a b : Dict A) (k : string) (v : A) :
  dict_update a ((k, v) :: b) = dict_update (dict_set k v a) b.
Proof. reflexivity. Qed.

Lemma dict_update_lookup {A : Type} (b : Dict A) :
  forall (a : Dict A) (k : string),
    NoDup (map fst b) ->
    lookup k (dict_update a b) =
    match lookup k b with
    | Some v => Some v
    | None => lookup k a
    end.
Proof.
  induction b as [|[k' v] b IH]; intros a k H; [reflexivity |].
  cbn [map fst] in H. inversion H as [|? ? Hk Hb]; subst.
  rewrite dict_update_cons, (IH _ _ Hb), lookup_dict_set. cbn [lookup].
  destruct (String.eqb k k') eqn:E; [| reflexivity].
  apply String.eqb_eq in E. subst k'.
  destruct (lookup k b) eqn:El; [| reflexivity].
  exfalso. apply Hk. apply BucketFacts.lookup_keys. now rewrite El.
Qed.

Lemma dict_set_nonempty {A : Type} (k : string) (v : A) (d : Dict A) : dict_set k v d <> [].
Proof. destruct d as [|[k' v'] d]; cbn [dict_set]; [| destruct (String.eqb k k')]; discriminate. Qed.

Lemma dict_update_nonempty {A : Type} (b : Dict A) :
  forall a : Dict A, a <> [] \/ b <> [] -> dict_update a b <> [].
Proof.
  induction b as [|[k v] b IH]; intros a H.
  - destruct H as [H | H]; [exact H | contradiction].
  - rewrite dict_update_cons. apply IH. left. apply dict_set_nonempty.
Qed.

(** ** Validation *)

Lemma validate_profile_Ok (profile : Document) :
  validate_profile profile = Ok tt <->
  (exists t ts, templates (content profile) = Some (t :: ts)) /\
  (exists p ps, pools (content profile) = Some (p :: ps)).
Proof.
  unfold validate_profile. split.
  - destruct (templates (content profile)) as [[|t ts]|]; try discriminate.
    destruct (pools (content profile)) as [[|p ps]|]; try discriminate.
    intros _. split; eauto.
  - intros [(t & ts & ->) (p & ps & ->)]. reflexivity.
Qed.


Lemma load_profile_valid (store : Dict file) (profile_name : string) (doc : Document) :
  load_profile store profile_name = Ok doc -> validate_profile doc = Ok tt.
Proof.
  unfold load_profile. destruct (read_json store profile_name) as [profile | e]; [| discriminate].
  destruct (extends profile) as [base_name|].
  - destruct (read_json store base_name) as [base | e]; [| discriminate].
    destruct (validate_profile (merge_profiles base profile)) as [[] | e] eqn:E; [| discriminate].
    now intros [= <-].
  - destruct (validate_profile profile) as [[] | e] eqn:E; [| discriminate].
    now intros [= <-].
Qed.

(** ** The count of combinations *)

Lemma combinations_fold (pools : list (list string)) :
  forall total : Z,
    (total = 0 ->
     fold_left (fun total pool => match pool with [] => total | _ => total * len pool end)
       pools total = 0) /\
    (0 < total ->
     total <=
     fold_left (fun total (pool : list string) =>
                  match pool with [] => total | _ => total * len pool end)
       pools total).
Proof.
  induction pools as [|pool pools IH]; intros total; cbn [fold_left]; [split; lia |].
  destruct pool as [|p pool].
  - apply IH.
  - destruct (IH (total * len (p :: pool))) as [H0 H1]. split.
    + intros ->. now apply H0.
    + intros H. assert (Hlen : 0 < len (p :: pool)) by (apply EngineFacts.len_nonzero; discriminate).
      assert (total <= total * len (p :: pool)) by nia.
      assert (0 < total * len (p :: pool)) by nia.
      specialize (H1 ltac:(assumption)). lia.
Qed.

(** ** The directory listing *)

Lemma remove_first_In (x y : string) (l : list string) :
  In y (remove_first x l) -> In y l.
Proof.
  induction l as [|z l IH]; cbn [remove_first]; [trivial |].
  destruct (String.eqb x z); [now right |]. intros [H | H]; [now left | right; now apply IH].
Qed.

Lemma remove_first_perm (x : string) (l : list string) :
  In x l -> Permutation (x :: remove_first x l) l.
Proof.
  induction l as [|z l IH]; [intros [] |]. cbn [remove_first].
  destruct (String.eqb x z) eqn:E.
  - apply String.eqb_eq in E. now subst z.
  - intros [H | H]; [subst z; now rewrite String.eqb_refl in E |].
    apply perm_trans with (z :: x :: remove_first x l); [apply perm_swap |].
    apply perm_skip. now apply IH.
Qed.

Lemma remove_first_sorted (R : string -> string -> Prop) (x : string) (l : list string) :
  StronglySorted R l -> StronglySorted R (remove_first x l).
Proof.
  induction 1 as [|z l Hl IH Hz]; cbn [remove_first]; [constructor |].
  destruct (String.eqb x z); [exact Hl |]. constructor; [exact IH |].
  rewrite Forall_forall in *. intros y Hy. apply Hz. now apply remove_first_In in Hy.
Qed.

(** ** Words around the enhanced prompt *)

Lemma split_app_space (a b : string) :
  split (a ++ String " " b) = (split a ++ split b)%list.
Proof.
  induction a as [|c a IH].
  - cbn [append app]. now rewrite ShapeFacts.split_step.
  - change (String c a ++ String " " b) with (String c (a ++ String " " b)).
    rewrite !(ShapeFacts.split_step c). destruct (isspace c); [exact IH |].
    destruct a as [|d a].
    + cbn [append] in IH |- *. change (isspace " ") with true. cbv iota.
      rewrite IH. reflexivity.
    + change (String d a ++ String " " b) with (String d (a ++ String " " b)) in *.
      destruct (isspace d) eqn:Ed; rewrite ?Ed; [now rewrite IH |].
      rewrite IH. pose proof (ShapeFacts.split_nonspace_cons d a Ed) as Hne.
      destruct (split (String d a)) as [|w ws]; [contradiction | reflexivity].
Qed.

Lemma word_count_app_space (a b : string) :
  word_count (a ++ String " " b) = word_count a + word_count b.
Proof. unfold word_count, len. rewrite split_app_space, length_app. lia. Qed.

Lemma apply_prefix_suffix_words (enhanced prefix suffix : string) :
  word_count (apply_prefix_suffix enhanced prefix suffix) =
  word_count prefix + word_count enhanced + word_count suffix.
Proof.
  unfold apply_prefix_suffix.
  assert (Hempty : forall s, nonempty s = false -> word_count s = 0).
  { intros s H. destruct s; [reflexivity | discriminate]. }
  destruct (nonempty prefix) eqn:Ep; destruct (nonempty suffix) eqn:Es.
  - change (prefix ++ " " ++ enhanced) with (prefix ++ String " " enhanced).
    change ((prefix ++ String " " enhanced) ++ " " ++ suffix)
      with ((prefix ++ String " " enhanced) ++ String " " suffix).
    now rewrite !word_count_app_space.
  - change (prefix ++ " " ++ enhanced) with (prefix ++ String " " enhanced).
    rewrite word_count_app_space, (Hempty suffix Es). lia.
  - change (enhanced ++ " " ++ suffix) with (enhanced ++ String " " suffix).
    rewrite word_count_app_space, (Hempty prefix Ep). lia.
  - rewrite (Hempty suffix Es), (Hempty prefix Ep). lia.
Qed.

(** ** The cache *)


End HostFacts.

Module NodeFacts.
Import Py Spec Core Host TokenFacts HostFacts.

Section Nodes.

Variable set_iter : list string -> list string.





End Nodes.

End NodeFacts.

(** X15.  How a child profile is merged onto its base.  In the merged pools,
    classification rules and anti-pairs, a name of the child has the child's
    entry and every other name has the base's: the child replaces whole
    entries and cannot remove one. *)
Theorem merged_tables (base child : Host.Document) (k : string) :
  NoDup (map fst (Host.get (pools (Host.content child)) [])) ->
  NoDup (map fst (Host.get (classification (Host.content child)) [])) ->
  NoDup (map fst (Host.get (anti_pairs (Host.content child)) [])) ->
  let merged := Host.content (Host.merge_profiles base child) in
  Py.lookup k (Host.get (pools merged) []) =
    match Py.lookup k (Host.get (pools (Host.content child)) []) with
    | Some pool => Some pool
    | None => Py.lookup k (Host.get (pools (Host.content base)) [])
    end /\
  Py.lookup k (Host.get (classification merged) []) =
    match Py.lookup k (Host.get (classification (Host.content child)) []) with
    | Some rule => Some rule
    | None => Py.lookup k (Host.get (classification (Host.content base)) [])
    end /\
  Py.lookup k (Host.get (anti_pairs merged) []) =
    match Py.lookup k (Host.get (anti_pairs (Host.content child)) []) with
    | Some terms => Some terms
    | None => Py.lookup k (Host.get (anti_pairs (Host.content base)) [])
    end.
Proof.
  intros H1 H2 H3. cbv zeta.
  cbn [Host.merge_profiles Host.content pools classification anti_pairs Host.get].
  split; [| split]; now apply HostFacts.dict_update_lookup.
Qed.

Lemma merged_tables_witness :
  let merged := Host.content (Host.merge_profiles Host.DEFAULT_PROFILE Host.night_profile) in
  Py.lookup "lighting" (Host.get (pools merged) []) =
    match Py.lookup "lighting" (Host.get (pools (Host.content Host.night_profile)) []) with
    | Some pool => Some pool
    | None => Py.lookup "lighting" (Host.get (pools (Host.content Host.DEFAULT_PROFILE)) [])
    end /\
  Py.lookup "lighting" (Host.get (classification merged) []) =
    match Py.lookup "lighting"
            (Host.get (classification (Host.content Host.night_profile)) []) with
    | Some rule => Some rule
    | None =>
        Py.lookup "lighting" (Host.get (classification (Host.content Host.DEFAULT_PROFILE)) [])
    end /\
  Py.lookup "lighting" (Host.get (anti_pairs merged) []) =
    match Py.lookup "lighting" (Host.get (anti_pairs (Host.content Host.night_profile)) []) with
    | Some terms => Some terms
    | None =>
        Py.lookup "lighting" (Host.get (anti_pairs (Host.content Host.DEFAULT_PROFILE)) [])
    end.
Proof.
  apply (merged_tables Host.DEFAULT_PROFILE Host.night_profile "lighting").
  - cbn. repeat constructor; cbn; intuition discriminate.
  - cbn. constructor.
  - cbn. repeat constructor; cbn; intuition discriminate.
Defined.

(** X16.  Merging keeps what validation asks for: if the base or the child
    passes [validate_profile], so does the merged profile.  A child without
    templates, or with an empty list of them, has the templates of its
    base. *)
Theorem merged_profile_is_valid (base child : Host.Document) :
  Host.validate_profile base = Host.Ok tt \/ Host.validate_profile child = Host.Ok tt ->
  Host.validate_profile (Host.merge_profiles base child) = Host.Ok tt /\
  (templates (Host.content child) = None \/ templates (Host.content child) = Some [] ->
   templates (Host.content (Host.merge_profiles base child)) = templates (Host.content base)).
Proof.
  intros H. split.
  - apply HostFacts.validate_profile_Ok.
    cbn [Host.merge_profiles Host.content templates pools].
    split.
    + destruct H as [H | H]; apply HostFacts.validate_profile_Ok in H as [(t & ts & Ht) _].
      * destruct (templates (Host.content child)) as [[|t' ts']|]; eauto.
      * rewrite Ht. eauto.
    + assert (Hne : Host.dict_update (Host.get (pools (Host.content base)) [])
                      (Host.get (pools (Host.content child)) []) <> []).
      { apply HostFacts.dict_update_nonempty.
        destruct H as [H | H]; apply HostFacts.validate_profile_Ok in H as [_ (p & ps & Hp)];
          rewrite Hp; [left | right]; discriminate. }
      destruct (Host.dict_update _ _) as [|p ps]; [contradiction | eauto].
  - cbn [Host.merge_profiles Host.content templates]. intros [-> | ->]; reflexivity.
Qed.

Lemma merged_profile_is_valid_witness :
  Host.validate_profile (Host.merge_profiles Host.DEFAULT_PROFILE Host.night_profile)
    = Host.Ok tt /\
  (templates (Host.content Host.night_profile) = None \/
   templates (Host.content Host.night_profile) = Some [] ->
   templates (Host.content (Host.merge_profiles Host.DEFAULT_PROFILE Host.night_profile))
     = templates (Host.content Host.DEFAULT_PROFILE)).
Proof.
  apply (merged_profile_is_valid Host.DEFAULT_PROFILE Host.night_profile).
  left. reflexivity.
Defined.

(** X17.  The count of combinations is zero exactly if the profile has no
    template; a pool without entries does not bring it to zero, and the
    count is never below the number of templates. *)
Theorem combinations_zero_iff (profile : Host.Document) :
  (Host.calculate_combinations profile = 0 <->
   Host.get (templates (Host.content profile)) [] = []) /\
  len (Host.get (templates (Host.content profile)) [])
    <= Host.calculate_combinations profile.
Proof.
  unfold Host.calculate_combinations. cbv zeta.
  set (total := len (Host.get (templates (Host.content profile)) [])).
  destruct (HostFacts.combinations_fold
              (map snd (Host.get (pools (Host.content profile)) [])) total) as [H0 H1].
  assert (Htotal : 0 <= total) by (unfold total, len; lia).
  assert (Hzero : total = 0 <-> Host.get (templates (Host.content profile)) [] = []).
  { unfold total, len. destruct (Host.get (templates (Host.content profile)) []).
    - split; reflexivity.
    - split; [cbn [List.length]; lia | discriminate]. }
  rewrite <- Hzero. split; [split |].
  - intros H. destruct (Z.eq_dec total 0) as [E | E]; [exact E |].
    specialize (H1 ltac:(lia)). lia.
  - exact H0.
  - destruct (Z.eq_dec total 0) as [E | E]; [rewrite (H0 E); lia | apply H1; lia].
Qed.

(** X18.  The list of profiles offered is never empty.  For a directory
    with JSON files it is a rearrangement of their names: in ascending order
    when "default.json" is not among them, and else "default.json" first and
    the others in ascending order behind it.  The call leaves an existing
    directory as it is. *)
Theorem discover_profiles_listing (names : list string) :
  let profiles := fst (Host.discover_profiles (Some names)) in
  profiles <> [] /\
  snd (Host.discover_profiles (Some names)) = Some names /\
  (names = [] -> profiles = ["default.json"%string]) /\
  (names <> [] -> Permutation profiles names) /\
  (~ In "default.json"%string names -> names <> [] -> profiles = Py.sorted names) /\
  (In "default.json"%string names ->
   exists others,
     profiles = ("default.json"%string :: others) /\
     StronglySorted (fun a b => String.leb a b = true) others).
Proof.
  cbv zeta. unfold Host.discover_profiles. cbn [fst snd].
  assert (Hmem : Py.mem "default.json" (Py.sorted names) = true <->
                 In "default.json"%string names).
  { rewrite SortFacts.mem_In. apply SortFacts.sorted_In. }
  assert (Hsorted : names <> [] -> Py.sorted names <> []).
  { intros Hne E. apply Hne. apply Permutation_nil.
    rewrite <- E. apply SortFacts.sorted_perm. }
  destruct (Py.mem "default.json" (Py.sorted names)) eqn:E.
  - assert (Hin : In "default.json"%string names) by now apply Hmem.
    split; [discriminate |]. split; [reflexivity |]. split; [| split; [| split]].
    + intros ->. destruct Hin.
    + intros _. apply perm_trans with (Py.sorted names); [| apply SortFacts.sorted_perm].
      apply HostFacts.remove_first_perm. now apply SortFacts.sorted_In.
    + intros H. contradiction.
    + intros _. eexists. split; [reflexivity |].
      apply HostFacts.remove_first_sorted, SetFacts.sorted_sorted.
  - assert (Hout : ~ In "default.json"%string names).
    { intros H. apply Hmem in H. discriminate. }
    split; [| split; [reflexivity | split; [| split; [| split]]]].
    + destruct (Py.sorted names); discriminate.
    + intros ->. reflexivity.
    + intros Hne. specialize (Hsorted Hne).
      destruct (Py.sorted names) as [|x l] eqn:Es; [contradiction |].
      rewrite <- Es. apply SortFacts.sorted_perm.
    + intros _ Hne. specialize (Hsorted Hne).
      destruct (Py.sorted names) as [|x l] eqn:Es; [contradiction | reflexivity].
    + intros H. contradiction.
Qed.

(** X19.  What [load_profile] returns has passed [validate_profile].  It is
    the document of the file, or, for a file with an "extends" key, that
    document merged onto the document of the file named there, taken as that
    file holds it. *)
Theorem load_profile_validated
        (store : Dict Host.file) (profile_name : string) (doc : Host.Document) :
  Host.load_profile store profile_name = Host.Ok doc ->
  Host.validate_profile doc = Host.Ok tt /\
  exists profile,
    Py.lookup profile_name store = Some (Host.Json profile) /\
    match Host.extends profile with
    | None => doc = profile
    | Some base_name =>
        exists base,
          Py.lookup base_name store = Some (Host.Json base) /\
          doc = Host.merge_profiles base profile
    end.
Proof.
  intros H. split; [exact (HostFacts.load_profile_valid _ _ _ H) |].
  unfold Host.load_profile, Host.read_json in H.
  destruct (Py.lookup profile_name store) as [[profile|]|]; try discriminate.
  exists profile. split; [reflexivity |].
  destruct (Host.extends profile) as [base_name|].
  - destruct (Py.lookup base_name store) as [[base|]|]; try discriminate.
    exists base. split; [reflexivity |].
    destruct (Host.validate_profile (Host.merge_profiles base profile)) as [[]|];
      [now injection H | discriminate].
  - destruct (Host.validate_profile profile) as [[]|]; [now injection H | discriminate].
Qed.

Lemma load_profile_validated_witness :
  Host.validate_profile (Host.merge_profiles Host.DEFAULT_PROFILE Host.night_profile)
    = Host.Ok tt /\
  exists profile,
    Py.lookup "night.json" Host.example_store = Some (Host.Json profile) /\
    match Host.extends profile with
    | None => Host.merge_profiles Host.DEFAULT_PROFILE Host.night_profile = profile
    | Some base_name =>
        exists base,
          Py.lookup base_name Host.example_store = Some (Host.Json base) /\
          Host.merge_profiles Host.DEFAULT_PROFILE Host.night_profile
            = Host.merge_profiles base profile
    end.
Proof.
  apply (load_profile_validated Host.example_store "night.json"
           (Host.merge_profiles Host.DEFAULT_PROFILE Host.night_profile)).
  reflexivity.
Defined.

(** X20.  Inheritance is resolved one level deep: [load_profile] reads the
    named file and, if that file has an "extends" key, the file named
    there, and nothing else.  Two directories that agree on these two files
    give the same result, whatever the base itself extends. *)
Theorem load_profile_reads_two_files
        (store store' : Dict Host.file) (profile_name : string) :
  Py.lookup profile_name store' = Py.lookup profile_name store ->
  (forall profile base_name,
     Py.lookup profile_name store = Some (Host.Json profile) ->
     Host.extends profile = Some base_name ->
     Py.lookup base_name store' = Py.lookup base_name store) ->
  Host.load_profile store' profile_name = Host.load_profile store profile_name.
Proof.
  intros H1 H2. unfold Host.load_profile, Host.read_json. rewrite H1.
  destruct (Py.lookup profile_name store) as [[profile|]|] eqn:E; try reflexivity.
  destruct (Host.extends profile) as [base_name|] eqn:Ee; [| reflexivity].
  now rewrite (H2 profile base_name eq_refl Ee).
Qed.

Lemma load_profile_reads_two_files_witness :
  Host.load_profile (("classic.json", Host.Malformed) :: Host.example_store) "night.json" =
  Host.load_profile Host.example_store "night.json".
Proof.
  apply (load_profile_reads_two_files Host.example_store
           (("classic.json", Host.Malformed) :: Host.example_store) "night.json").
  - reflexivity.
  - intros profile base_name H1 H2. injection H1 as <-. injection H2 as <-. reflexivity.
Defined.




(** X23.  Prefix and suffix are added after the word limit was applied: the
    string a node returns has the words of the enhanced prompt and all
    words of the prefix and of the suffix, so it can be longer than
    [max_words]. *)
Theorem prefix_and_suffix_add_words
        (set_iter : list string -> list string) (prompt : string) (seed : Z)
        (intensity : string) (max_words : Z) (prefix suffix : string) :
  match Host.V1_enhance set_iter prompt seed intensity max_words prefix suffix with
  | Some out =>
      exists enhanced,
        V1.enhance_prompt set_iter prompt seed intensity max_words = Some enhanced /\
        out = Host.apply_prefix_suffix enhanced prefix suffix /\
        word_count out = word_count prefix + word_count enhanced + word_count suffix
  | None => V1.enhance_prompt set_iter prompt seed intensity max_words = None
  end.
Proof.
  unfold Host.V1_enhance.
  destruct (V1.enhance_prompt set_iter prompt seed intensity max_words) as [enhanced|];
    [| reflexivity].
  exists enhanced. split; [reflexivity |]. split; [reflexivity |].
  apply HostFacts.apply_prefix_suffix_words.
Qed.

(* ================================================================== *)
(** * Further properties: letter case *)
(* ================================================================== *)

Module CaseFacts.
Import Py Spec Core StrFacts SortFacts.

Local Open Scope string_scope.

Lemma lower_char_idem (c : ascii) : lower_char (lower_char c) = lower_char c.
Proof. destruct c as [[] [] [] [] [] [] [] []]; reflexivity. Qed.

Lemma lower_idem (s : string) : lower (lower s) = lower s.
Proof.
  induction s as [|c s IH]; [reflexivity |]. cbn [lower]. now rewrite lower_char_idem, IH.
Qed.





End CaseFacts.




